(** * hightd node agent: sandbox paths, registry, instance lifecycle, HTTP and SFTP front ends

    A shallow embedding of the parts of the agent that decide where a user
    supplied path lands, which instance a request reaches, which fields a
    lifecycle operation leaves behind and which status code a caller sees.

    Conventions.
    - A JavaScript string is a [string]: a sequence of code units below 256.
    - A value that may be [undefined] is an [option]; [falsy] is the
      JavaScript test [!x] on such a value.
    - A thrown [Error] is the [Throw] constructor of [result].
    - Node's [path] module is modelled in its POSIX flavour ([path.posix]);
      [process.cwd()] is an explicit argument.
    - The container runtime, the file system and the remote helper API are
      environments: their answers are inputs, the requests sent to them are
      recorded in a trace. *)

From Stdlib Require Import ZArith Lia Bool Ascii.
From stdpp Require Import base strings list gmap.

Local Open Scope Z_scope.

(** ** Results of fallible code *)

Inductive result (E A : Type) : Type :=
| Ok (a : A)
| Throw (e : E).
Arguments Ok {E A} a.
Arguments Throw {E A} e.

Definition bind {E A B} (m : result E A) (k : A -> result E B) : result E B :=
  match m with
  | Ok a => k a
  | Throw e => Throw e
  end.

Notation "'do' x <- m ; k" := (bind m (fun x => k))
  (at level 10, x name, m at level 100, k at level 200).

Definition is_ok {E A} (m : result E A) : bool :=
  match m with Ok _ => true | Throw _ => false end.

(** ** JavaScript strings *)

Module Js.

Definition chr (n : nat) : ascii := Ascii.ascii_of_nat n.

Definition slash : ascii := chr 47.
Definition backslash : ascii := chr 92.
Definition dot : ascii := chr 46.
Definition underscore : ascii := chr 95.
Definition colon : ascii := chr 58.

Definition is_slash (c : ascii) : bool := Ascii.eqb c slash.
Definition is_backslash (c : ascii) : bool := Ascii.eqb c backslash.
(** the character class [[/\\]] *)
Definition is_sep (c : ascii) : bool := is_slash c || is_backslash c.
Definition is_dot (c : ascii) : bool := Ascii.eqb c dot.
Definition is_underscore (c : ascii) : bool := Ascii.eqb c underscore.

(** White space removed by [String.prototype.trim], below code unit 256:
    TAB, LF, VT, FF, CR, SPACE and NBSP. *)
Definition is_ws (c : ascii) : bool :=
  let n := Ascii.nat_of_ascii c in
  ((9 <=? n)%nat && (n <=? 13)%nat) || (n =? 32)%nat || (n =? 160)%nat.

(** [!s] for a string that is known to be defined *)
Definition empty (s : string) : bool := String.eqb s "".

(** [!x] for a possibly undefined string *)
Definition falsy (x : option string) : bool :=
  match x with
  | None => true
  | Some s => empty s
  end.

(** [s.split(sep)] for a one-character class [sep]; never returns [[]] *)
Fixpoint split (sep : ascii -> bool) (s : string) : list string :=
  match s with
  | EmptyString => [EmptyString]
  | String c s' =>
      if sep c then EmptyString :: split sep s'
      else match split sep s' with
           | [] => [String c EmptyString]
           | h :: t => String c h :: t
           end
  end.

(** [l.join(sep)] *)
Fixpoint join (sep : string) (l : list string) : string :=
  match l with
  | [] => EmptyString
  | [x] => x
  | x :: t => x +:+ sep +:+ join sep t
  end.

(** [s.replace(/^[cls]+/, '')] *)
Fixpoint strip_leading (cls : ascii -> bool) (s : string) : string :=
  match s with
  | EmptyString => EmptyString
  | String c s' => if cls c then strip_leading cls s' else s
  end.

Definition trim_start (s : string) : string := strip_leading is_ws s.

Fixpoint trim_end (s : string) : string :=
  match s with
  | EmptyString => EmptyString
  | String c s' =>
      let r := trim_end s' in
      if empty r && is_ws c then EmptyString else String c r
  end.

Definition trim (s : string) : string := trim_end (trim_start s).

(** [s.replace(/\\/g, '/')] *)
Fixpoint backslashes_to_slashes (s : string) : string :=
  match s with
  | EmptyString => EmptyString
  | String c s' =>
      String (if is_backslash c then slash else c) (backslashes_to_slashes s')
  end.

(** [s.startsWith(pre)] *)
Fixpoint startsWith (s pre : string) {struct pre} : bool :=
  match pre with
  | EmptyString => true
  | String a pre' =>
      match s with
      | EmptyString => false
      | String b s' => Ascii.eqb b a && startsWith s' pre'
      end
  end.

Definition drop (n : nat) (s : string) : string :=
  String.substring n (String.length s - n) s.

Definition take (n : nat) (s : string) : string := String.substring 0 n s.

Definition endsWith (s suf : string) : bool :=
  let n := String.length s in
  let k := String.length suf in
  (k <=? n)%nat && String.eqb (drop (n - k) s) suf.

(** [s.slice(0, -k)] *)
Definition drop_end (k : nat) (s : string) : string :=
  take (String.length s - k) s.

Definition lower_char (c : ascii) : ascii :=
  let n := Ascii.nat_of_ascii c in
  if ((65 <=? n)%nat && (n <=? 90)%nat)
     || ((192 <=? n)%nat && (n <=? 222)%nat && negb (n =? 215)%nat)
  then chr (n + 32) else c.

Fixpoint toLowerCase (s : string) : string :=
  match s with
  | EmptyString => EmptyString
  | String c s' => String (lower_char c) (toLowerCase s')
  end.

(** [s] between double quotes *)
Definition quoted (s : string) : string :=
  String (chr 34) s +:+ String (chr 34) "".

Fixpoint all_chars (p : ascii -> bool) (s : string) : bool :=
  match s with
  | EmptyString => true
  | String c s' => p c && all_chars p s'
  end.

End Js.

(** ** Node's [path] module, POSIX flavour *)

Module Path.

(** One step of [normalizeString]: [acc] is the stack of segments kept so
    far, most recent first. Empty segments and [.] are dropped; [..] pops
    the previous segment, unless there is none (or it is itself [..]), in
    which case it is kept only when [allowAboveRoot]. *)
Definition norm_step (allowAboveRoot : bool) (acc : list string) (seg : string)
  : list string :=
  if Js.empty seg || String.eqb seg "." then acc
  else if String.eqb seg ".." then
    match acc with
    | [] => if allowAboveRoot then [".."] else []
    | top :: rest =>
        if String.eqb top ".."
        then (if allowAboveRoot then ".." :: acc else acc)
        else rest
    end
  else seg :: acc.

Definition norm_segments (allowAboveRoot : bool) (segs : list string) : list string :=
  rev (fold_left (norm_step allowAboveRoot) segs []).

Definition normalizeString (path : string) (allowAboveRoot : bool) : string :=
  Js.join "/" (norm_segments allowAboveRoot (Js.split Js.is_slash path)).

Definition isAbsolute (path : string) : bool := Js.startsWith path "/".

(** Segments that [normalizeString] keeps as they are: [keep] excludes the
    empty segment and [.], [good] also excludes [..]. *)
Definition keep (x : string) : bool := negb (Js.empty x || String.eqb x ".").
Definition good (x : string) : bool := keep x && negb (String.eqb x "..").
Definition slash_free (x : string) : bool :=
  Js.all_chars (fun c => negb (Js.is_slash c)) x.

(** The shape of a normalized stack: kept segments above a run of [..],
    which is empty when climbing above the start is not allowed. *)
Definition canon_stack (a : bool) (acc : list string) : Prop :=
  exists stk n, acc = stk ++ repeat ".." n /\
                forallb good stk = true /\ (a = false -> n = 0%nat).

Definition normalize (path : string) : string :=
  if Js.empty path then "."
  else
    let isAbs := isAbsolute path in
    let trailingSeparator := Js.endsWith path "/" in
    let p := normalizeString path (negb isAbs) in
    if Js.empty p then
      (if isAbs then "/" else if trailingSeparator then "./" else ".")
    else
      let p := if trailingSeparator then p +:+ "/" else p in
      if isAbs then "/" +:+ p else p.

Definition join (args : list string) : string :=
  match List.filter (fun a => negb (Js.empty a)) args with
  | [] => "."
  | parts => normalize (Js.join "/" parts)
  end.

(** The loop of [resolve], from the last argument to the first and then
    the working directory, until an absolute path has been seen. *)
Fixpoint resolve_loop (pending : list string) (resolvedPath : string)
    (resolvedAbsolute : bool) : string * bool :=
  match pending with
  | [] => (resolvedPath, resolvedAbsolute)
  | p :: rest =>
      if resolvedAbsolute then (resolvedPath, resolvedAbsolute)
      else if Js.empty p then resolve_loop rest resolvedPath resolvedAbsolute
      else resolve_loop rest (p +:+ "/" +:+ resolvedPath) (isAbsolute p)
  end.

Definition resolve (cwd : string) (args : list string) : string :=
  let '(resolvedPath, resolvedAbsolute) :=
    resolve_loop (rev args ++ [cwd]) "" false in
  let p := normalizeString resolvedPath (negb resolvedAbsolute) in
  if resolvedAbsolute then "/" +:+ p
  else if Js.empty p then "." else p.

(** [basename(path)]: the last non-empty segment, or the empty string *)
Definition basename (path : string) : string :=
  default "" (last (List.filter (fun a => negb (Js.empty a))
                                (Js.split Js.is_slash path))).

End Path.

(** ** Sandbox path resolvers *)

Inductive exn : Type :=
| CaminhoNaoPermitido          (* sanitizeRelative: a segment is [..] *)
| ForaDoDiretorioDoServidor    (* resolveServerPath: prefix test failed *)
| PathForaDoSandbox            (* SFTP normalize: prefix test failed *)
| ServidorNaoEncontrado        (* ensurePermission *)
| SemPermissao                 (* ensurePermission *)
| EntradaInvalidaEmArchive     (* sanitizeArchiveEntry: a segment is [..] *)
| PathForaDoDestino            (* unarchive: entry leaves the destination *)
| ComandoInvalido              (* sendCommand *)
| ContainerInexistente         (* sendCommand *)
| StdinIndisponivel            (* sendCommand *)
| FalhaAoEscreverNoStdin       (* sendCommand *)
| Runtime (msg : string)       (* an error raised by the container runtime *)
| Fs (msg : string)            (* an error raised by the file system *)
| TypeError (msg : string).    (* property access on [undefined] *)

Definition BASE_SERVER_PATH : string := "E:/servers".

Module Sandbox.

Definition has_dotdot (segs : list string) : bool :=
  existsb (String.eqb "..") segs.

Definition sanitizeRelative (p : option string) : result exn string :=
  match p with
  | None => Ok ""
  | Some p =>
      if Js.empty p || String.eqb p "/" || String.eqb p "." then Ok ""
      else
        let rel := Js.trim (Js.strip_leading Js.is_sep p) in
        if has_dotdot (Js.split Js.is_sep rel) then Throw CaminhoNaoPermitido
        else Ok (Js.backslashes_to_slashes rel)
  end.

Definition serverBase (serverId : string) : string :=
  Path.join [BASE_SERVER_PATH; serverId].

Definition resolveServerPath (cwd serverId rel : string) : result exn string :=
  let base := serverBase serverId in
  let abs := Path.resolve cwd [base; rel] in
  if negb (Js.startsWith abs (Path.resolve cwd [base]))
  then Throw ForaDoDiretorioDoServidor
  else Ok abs.


(** *** SFTP *)

Definition is_letter (c : ascii) : bool :=
  let n := Ascii.nat_of_ascii c in
  ((65 <=? n)%nat && (n <=? 90)%nat) || ((97 <=? n)%nat && (n <=? 122)%nat).

(** [/^(?:[a-zA-Z]:\|\\|[a-zA-Z]:\/)/.test(p)] *)
Definition isOsAbsolute (p : string) : bool :=
  match p with
  | String a (String b (String c _)) =>
      (is_letter a && Ascii.eqb b Js.colon && Js.is_sep c)
      || (Js.is_backslash a && Js.is_backslash b)
  | String a (String b EmptyString) => Js.is_backslash a && Js.is_backslash b
  | _ => false
  end.

Definition check_root (rootDir candidate : string) : result exn string :=
  if negb (Js.startsWith candidate rootDir) then Throw PathForaDoSandbox
  else Ok candidate.

Definition normalize (rootDir p : string) : result exn string :=
  if Js.empty p || String.eqb p "." || String.eqb p "/" then Ok rootDir
  else if String.eqb p rootDir || String.eqb p (rootDir +:+ "/")
          || String.eqb p (rootDir +:+ "/" +:+ ".") then Ok rootDir
  else if Js.startsWith p "/" then
    let relPart := Js.strip_leading Js.is_slash p in
    if Js.empty relPart then Ok rootDir
    else check_root rootDir (Path.normalize (Path.join [rootDir; relPart]))
  else if isOsAbsolute p || Path.isAbsolute p then
    check_root rootDir (Path.normalize p)
  else
    check_root rootDir
      (Path.normalize (Path.join [rootDir; Js.strip_leading Js.is_slash p])).

(** [rootDir] as the authentication handler sets it for server [serverId] *)
Definition rootDir (serverId : string) : string :=
  Path.join [BASE_SERVER_PATH; serverId].

(** *** Lexical containment *)

(** The segments that lexical canonicalization keeps: those of
    [normalizeString], which may climb above the start only for a relative
    path. *)
Definition canonical (p : string) : list string :=
  Path.norm_segments (negb (Path.isAbsolute p)) (Js.split Js.is_slash p).

Fixpoint list_prefixb (l1 l2 : list string) : bool :=
  match l1, l2 with
  | [], _ => true
  | x :: l1', y :: l2' => String.eqb x y && list_prefixb l1' l2'
  | _ :: _, [] => false
  end.

(** [p] is [root] or lies below it, after lexical canonicalization *)
Definition descendant (root p : string) : bool :=
  list_prefixb (canonical root) (canonical p).

End Sandbox.

(** ** One server instance *)

Module Instance.

(** Handles of the container runtime and of its attach streams, and the
    identity of a subscribed callback. *)
Definition Container := nat.
Definition Stream := nat.
Definition Listener := nat.

Record Server : Type := mkServer {
  id : string;
  container : option Container;
  running : bool;
  isInitializing : bool;
  startedAt : option Z;
  stdinStream : option Stream;
  liveListeners : list Listener
}.

(** [new Server(id)] *)
Definition new_Server (id : string) : Server :=
  mkServer id None false false None None [].

(** What an operation asks of the outside world, in order. *)
Inductive effect : Type :=
| Emit (category message : string)          (* _emitLive *)
| RtPull (image : string)
| RtCreate (image : string)
| RtStart (c : Container)
| RtInspect (c : Container)
| RtAttach (c : Container)
| RtWait (c : Container)                     (* exit continuation registered *)
| RtKill (c : Container)
| RtRemoveForce (c : Container)
| StdinWrite (s : Stream) (line : string)
| FsMkdir (path : string)
| FsWriteFile (path : string)
| FsRm (path : string).

(** *** A state and exception monad over the instance's fields *)

Definition M (A : Type) : Type :=
  Server -> result exn A * Server * list effect.

Definition ret {A} (a : A) : M A := fun s => (Ok a, s, []).
Definition throw {A} (e : exn) : M A := fun s => (Throw e, s, []).

Definition bindM {A B} (m : M A) (k : A -> M B) : M B :=
  fun s =>
    match m s with
    | (Ok a, s1, t1) =>
        let '(r, s2, t2) := k a s1 in (r, s2, t1 ++ t2)
    | (Throw e, s1, t1) => (Throw e, s1, t1)
    end.

(** [try { m } catch (e) { h e }] *)
Definition try_catch {A} (m : M A) (h : exn -> M A) : M A :=
  fun s =>
    match m s with
    | (Ok a, s1, t1) => (Ok a, s1, t1)
    | (Throw e, s1, t1) =>
        let '(r, s2, t2) := h e s1 in (r, s2, t1 ++ t2)
    end.

Definition get : M Server := fun s => (Ok s, s, []).
Definition modify (f : Server -> Server) : M unit := fun s => (Ok tt, f s, []).
Definition tell (e : effect) : M unit := fun s => (Ok tt, s, [e]).
Definition emitLive (category message : string) : M unit :=
  tell (Emit category message).

(** an answer of the outside world to a request already recorded *)
Definition answer {A} (r : result exn A) : M A := fun s => (r, s, []).

(** a runtime call: the request is recorded, the given answer comes back *)
Definition call {A} (e : effect) (answer : result exn A) : M A :=
  fun s => (answer, s, [e]).

Declare Scope inst_scope.
Delimit Scope inst_scope with inst.
Notation "x <- m ;; k" := (bindM m (fun x => k))
  (at level 100, m at next level, k at level 200, right associativity)
  : inst_scope.
Notation "m ;; k" := (bindM m (fun _ => k))
  (at level 100, k at level 200, right associativity) : inst_scope.
Local Open Scope inst_scope.

Definition set_container (c : option Container) (s : Server) : Server :=
  mkServer (id s) c (running s) (isInitializing s) (startedAt s)
           (stdinStream s) (liveListeners s).
Definition set_running (b : bool) (s : Server) : Server :=
  mkServer (id s) (container s) b (isInitializing s) (startedAt s)
           (stdinStream s) (liveListeners s).
Definition set_isInitializing (b : bool) (s : Server) : Server :=
  mkServer (id s) (container s) (running s) b (startedAt s)
           (stdinStream s) (liveListeners s).
Definition set_startedAt (t : option Z) (s : Server) : Server :=
  mkServer (id s) (container s) (running s) (isInitializing s) t
           (stdinStream s) (liveListeners s).
Definition set_stdinStream (st : option Stream) (s : Server) : Server :=
  mkServer (id s) (container s) (running s) (isInitializing s) (startedAt s)
           st (liveListeners s).
Definition set_liveListeners (l : list Listener) (s : Server) : Server :=
  mkServer (id s) (container s) (running s) (isInitializing s) (startedAt s)
           (stdinStream s) l.

(** [!this.startedAt]: [null] and [0] are falsy *)
Definition startedAt_falsy (t : option Z) : bool :=
  match t with
  | None => true
  | Some z => z =? 0
  end.

(** *** getStatus *)

(** What [container.inspect()] reports: the status string, and
    [State.StartedAt] parsed by [new Date(..).getTime()]: [None] when the
    field is absent or empty, [Some None] when the date is not a number. *)
Record InspectData : Type := mkInspect {
  Status : string;
  StartedAt : option (option Z)
}.

Inductive status : Type := running_ | stopped_.

Definition getStatus (inspect : result exn InspectData) (now : Z) : M status :=
  s <- get ;;
  match container s with
  | None =>
      modify (set_running false) ;;
      ret stopped_
  | Some c =>
      try_catch
        (inspectData <- call (RtInspect c) inspect ;;
         if String.eqb (Status inspectData) "running" then
           (if negb (running s) then
              modify (set_running true) ;;
              match StartedAt inspectData with
              | Some parsed =>
                  if startedAt_falsy (startedAt s) then
                    modify (set_startedAt
                              (Some (match parsed with
                                     | Some startedDate => startedDate
                                     | None => now
                                     end)))
                  else ret tt
              | None => ret tt
              end
            else ret tt) ;;
           ret running_
         else
           modify (set_running false) ;;
           ret stopped_)
        (fun _ =>
           modify (set_running false) ;;
           modify (set_container None) ;;
           ret stopped_)
  end.

(** *** kill, _reattach, sendCommand, stop *)

(** [kill_answer] is what [container.kill()] does; a failure is swallowed *)
Definition kill (kill_answer : result exn unit) : M unit :=
  s <- get ;;
  match container s with
  | None => ret tt
  | Some c =>
      emitLive "status" "Forçando parada (kill)..." ;;
      try_catch (call (RtKill c) kill_answer) (fun _ => ret tt)
  end.

Definition reattach (attach_answer : result exn Stream) : M unit :=
  s <- get ;;
  match container s with
  | None => ret tt
  | Some c =>
      try_catch
        (stream <- call (RtAttach c) attach_answer ;;
         modify (set_stdinStream (Some stream)))
        (fun _ => ret tt)
  end.

Definition with_newline (cmd : string) : string :=
  if Js.endsWith cmd (String (Js.chr 10) "") then cmd
  else cmd +:+ String (Js.chr 10) "".

Definition sendCommand (cmd : option string)
    (attach_answer : result exn Stream) (write_answer : result exn unit)
  : M unit :=
  if Js.falsy cmd then throw ComandoInvalido
  else
    s <- get ;;
    match container s with
    | None => throw ContainerInexistente
    | Some _ =>
        (match stdinStream s with
         | None => reattach attach_answer
         | Some _ => ret tt
         end) ;;
        s' <- get ;;
        match stdinStream s' with
        | None => throw StdinIndisponivel
        | Some stream =>
            try_catch
              (call (StdinWrite stream (with_newline (default "" cmd)))
                    write_answer)
              (fun _ => throw FalhaAoEscreverNoStdin)
        end
    end.

Definition stop (command : option string)
    (attach_answer : result exn Stream) (write_answer : result exn unit)
    (kill_answer : result exn unit) : M unit :=
  s <- get ;;
  match container s with
  | None => ret tt
  | Some _ =>
      emitLive "status" "Parando servidor..." ;;
      try_catch
        (sendCommand command attach_answer write_answer)
        (fun _ =>
           emitLive "error" "Falha stop gracioso, aplicando kill." ;;
           kill kill_answer)
  end.

(** *** The exit continuation registered by [_attachAfterStart] *)

Definition onExit : M unit :=
  modify (set_running false) ;;
  modify (set_startedAt None) ;;
  modify (set_stdinStream None) ;;
  emitLive "status" "Servidor marcado como desligado.".

(** *** start *)

Definition exn_message (e : exn) : string :=
  match e with
  | CaminhoNaoPermitido => "Caminho não permitido"
  | ForaDoDiretorioDoServidor => "Fora do diretório do servidor"
  | PathForaDoSandbox => "Path fora do sandbox"
  | ServidorNaoEncontrado => "Servidor não encontrado"
  | SemPermissao => "Sem permissão"
  | EntradaInvalidaEmArchive => "Entrada de arquivo inválida em archive"
  | PathForaDoDestino => "Path fora do destino"
  | ComandoInvalido => "Comando inválido"
  | ContainerInexistente => "Container inexistente"
  | StdinIndisponivel => "STDIN indisponível"
  | FalhaAoEscreverNoStdin => "Falha ao escrever no STDIN"
  | Runtime msg => msg
  | Fs msg => msg
  | TypeError msg => msg
  end.

(** The part of [StartData] that reaches the runtime and the file system:
    the image, and the names of the config files that [configSystem] and
    [startupParser] describe (their rendered text is not tracked). *)
Record StartData : Type := mkStartData {
  image : string;
  templateNames : list string
}.

(** The answers of the outside world during one [start]. *)
Record StartAnswers : Type := mkStartAnswers {
  remove_old : result exn unit;       (* remove of a pre-existing handle *)
  write_template : string -> result exn unit;
  pull_progress : list string;        (* progress lines seen before the end *)
  pull_result : result exn unit;      (* how the pull ends *)
  create_result : result exn Container;
  start_result : result exn unit;
  inspect_poll : nat -> result exn InspectData;
  attach_result : result exn Stream;
  remove_new : result exn unit;       (* remove in the error handler *)
  start_now : Z                       (* Date.now() *)
}.

Definition serverPath (s : Server) : string :=
  BASE_SERVER_PATH +:+ "/" +:+ id s.

Definition writeTemplateFile (a : StartAnswers) (name : string) : M unit :=
  s <- get ;;
  try_catch
    (call (FsWriteFile (serverPath s +:+ "/" +:+ name)) (write_template a name) ;;
     emitLive "status" ("Arquivo de config gerado: " +:+ name))
    (fun e =>
       emitLive "error"
         ("Falha ao gerar arquivo " +:+ name +:+ ": " +:+ exn_message e)).

Fixpoint forM_ {A} (l : list A) (f : A -> M unit) : M unit :=
  match l with
  | [] => ret tt
  | x :: l' => f x ;; forM_ l' f
  end.

(** The bounded wait for the runtime to report [running]: at most
    [attempts] inspections, numbered from [i]. *)
Fixpoint poll_running (a : StartAnswers) (attempts i : nat) : M bool :=
  match attempts with
  | O => ret false
  | S attempts' =>
      s <- get ;;
      match container s with
      | None => ret false
      | Some c =>
          isRunning <-
            try_catch
              (inspectData <- call (RtInspect c) (inspect_poll a i) ;;
               ret (String.eqb (Status inspectData) "running"))
              (fun _ => ret false) ;;
          if isRunning then ret true
          else poll_running a attempts' (S i)
      end
  end.

Definition attachAfterStart (attach_answer : result exn Stream) : M unit :=
  s <- get ;;
  match container s with
  | None => ret tt
  | Some c =>
      stream <- call (RtAttach c) attach_answer ;;
      modify (set_stdinStream (Some stream)) ;;
      tell (RtWait c)
  end.

Definition start_body (data : StartData) (a : StartAnswers) : M unit :=
  emitLive "pull" ("Baixando imagem " +:+ image data) ;;
  tell (RtPull (image data)) ;;
  forM_ (pull_progress a) (emitLive "pull") ;;
  answer (pull_result a) ;;
  emitLive "pull" "Pull concluído" ;;
  newContainer <- call (RtCreate (image data)) (create_result a) ;;
  modify (set_container (Some newContainer)) ;;
  call (RtStart newContainer) (start_result a) ;;
  isRunning <- poll_running a 15 0 ;;
  (if isRunning then
     modify (set_running true) ;;
     modify (set_startedAt (Some (start_now a))) ;;
     emitLive "status" "Servidor em execução."
   else
     emitLive "error" "Timeout para container ficar running.") ;;
  emitLive "internal" "container_started" ;;
  emitLive "status" "Container iniciado, anexando..." ;;
  attachAfterStart (attach_result a).

Definition start_rollback (a : StartAnswers) (error : exn) : M unit :=
  emitLive "error" ("Falha ao iniciar: " +:+ exn_message error) ;;
  s <- get ;;
  (match container s with
   | Some c =>
       try_catch (call (RtRemoveForce c) (remove_new a)) (fun _ => ret tt)
   | None => ret tt
   end) ;;
  modify (set_container None) ;;
  modify (set_running false) ;;
  modify (set_isInitializing false) ;;
  modify (set_startedAt None) ;;
  modify (set_stdinStream None) ;;
  throw error.

(** What [start] does before its [try] block. *)
Definition start_prepare (data : StartData) (a : StartAnswers) : M unit :=
  s <- get ;;
  (match container s with
   | Some c =>
       try_catch (call (RtRemoveForce c) (remove_old a)) (fun _ => ret tt) ;;
       modify (set_container None)
   | None => ret tt
   end) ;;
  modify (set_startedAt None) ;;
  modify (set_running false) ;;
  modify (set_isInitializing false) ;;
  emitLive "status" "Iniciando servidor..." ;;
  tell (FsMkdir (serverPath s)) ;;
  forM_ (templateNames data) (writeTemplateFile a).

Definition start (data : StartData) (a : StartAnswers) : M unit :=
  start_prepare data a ;;
  try_catch (start_body data a) (start_rollback a).

(** *** delete: the part that touches the instance itself

    [kill()], [container.remove] and [fs.rm] are issued and not awaited;
    their failures are swallowed. *)
Definition delete_instance (kill_answer : result exn unit) : M unit :=
  kill kill_answer ;;
  s <- get ;;
  (match container s with
   | Some c => tell (RtRemoveForce c) ;; modify (set_container None)
   | None => ret tt
   end) ;;
  modify (set_running false) ;;
  modify (set_isInitializing false) ;;
  modify (set_startedAt None) ;;
  modify (set_stdinStream None) ;;
  modify (set_liveListeners []) ;;
  tell (FsRm (serverPath s)).

(** *** Reconciliation at boot, for one persisted id

    [existing] is the runtime's container named after the id, with its
    listed state, if there is one. A running container is adopted with
    [_reattach]: no exit continuation is registered. *)
Definition adopt (existing : option (Container * string))
    (inspect : result exn InspectData) (attach_answer : result exn Stream)
    (now : Z) : M unit :=
  match existing with
  | None => ret tt
  | Some (c, state) =>
      modify (set_container (Some c)) ;;
      if String.eqb state "running" then
        modify (set_running true) ;;
        try_catch
          (d <- call (RtInspect c) inspect ;;
           match StartedAt d with
           | Some (Some startedDate) => modify (set_startedAt (Some startedDate))
           | Some None => modify (set_startedAt (Some now))
           | None => modify (set_startedAt (Some now))
           end)
          (fun _ => modify (set_startedAt (Some now))) ;;
        reattach attach_answer
      else ret tt
  end.

(** The fields after a rollback: everything but the id and the
    subscribers is reset. *)
Definition reset (s : Server) : Server :=
  mkServer (id s) None false false None None (liveListeners s).

(** The fields when the [try] block of [start] is entered. *)
Definition prepared (s : Server) : Server :=
  mkServer (id s) None false false None (stdinStream s) (liveListeners s).

(** The three failures of [start] that the specification names: which
    step fails, with which error, and the handle that exists by then. *)
Inductive start_fails (a : StartAnswers) (e : exn) : option Container -> Prop :=
| pull_fails :
    pull_result a = Throw e -> start_fails a e None
| create_fails :
    pull_result a = Ok tt -> create_result a = Throw e ->
    start_fails a e None
| container_start_fails (c : Container) :
    pull_result a = Ok tt -> create_result a = Ok c ->
    start_result a = Throw e -> start_fails a e (Some c).

(** A scenario: the pull of the image is refused. *)
Definition failing_pull : StartAnswers :=
  mkStartAnswers (Ok tt) (fun _ => Ok tt) ["busybox: Pulling"]
    (Throw (Runtime "pull access denied")) (Ok 1%nat) (Ok tt)
    (fun _ => Ok (mkInspect "running" None)) (Ok 2%nat) (Ok tt) 1000.

(** A scenario: an instance adopted at boot, as [Server.start] leaves it
    when the runtime lists a running container for its id. *)
Definition adopted : Server :=
  (adopt (Some (7%nat, "running"))
         (Ok (mkInspect "running" (Some (Some 1000))))
         (Ok 3%nat) 2000 (new_Server "s1")).1.2.

(** Invariant 2 of the data model. *)
Definition startedAt_iff_running (s : Server) : Prop :=
  startedAt s <> None <-> running s = true.

(** The stopped state: no handle, not running, no start time, no stdin. *)
Definition stopped_state (s : Server) : Prop :=
  container s = None /\ running s = false /\ isInitializing s = false /\
  startedAt s = None /\ stdinStream s = None.

End Instance.

(** ** The registry: [Server.servers]

    Instances are objects: the registry holds references, and [indexOf]
    compares references. The store maps an address to the object's fields. *)

Module Registry.
Import Instance.

Record World : Type := mkWorld {
  heap : gmap nat Server;       (* the objects, by address *)
  servers : list nat;           (* Server.servers, in registration order *)
  next : nat;                   (* the next fresh address *)
  dirs : gset string;           (* the directories that exist *)
  trace : list effect           (* requests sent to the outside world *)
}.

Definition empty_world : World := mkWorld ∅ [] 0%nat ∅ [].

Definition id_of (w : World) (a : nat) : option string :=
  id <$> heap w !! a.

Definition has_id (w : World) (uuid : string) (a : nat) : bool :=
  match heap w !! a with
  | Some s => String.eqb (id s) uuid
  | None => false
  end.

(** [Server.servers.find(server => server.id === uuid) || null] *)
Definition getServer (uuid : string) (w : World) : option nat :=
  List.find (has_id w uuid) (servers w).

Definition sandbox (id : string) : string :=
  BASE_SERVER_PATH +:+ "/" +:+ id.

(** [Server.create(id)]: [mkdir_answer] is what the recursive [fs.mkdir]
    does. *)
Definition create (id : string) (mkdir_answer : result exn unit) (w : World)
  : result exn unit * World :=
  match mkdir_answer with
  | Throw e =>
      (Throw (Fs ("Falha ao criar o diretório para o servidor " +:+ id)),
       mkWorld (heap w) (servers w) (next w) (dirs w)
               (trace w ++ [FsMkdir (sandbox id)]))
  | Ok _ =>
      (Ok tt,
       mkWorld (<[next w := new_Server id]> (heap w))
               (servers w ++ [next w])
               (S (next w))
               (dirs w ∪ {[sandbox id]})
               (trace w ++ [FsMkdir (sandbox id)]))
  end.

(** [indexOf] followed by [splice(index, 1)] *)
Fixpoint remove_first (a : nat) (l : list nat) : list nat :=
  match l with
  | [] => []
  | x :: l' => if Nat.eqb x a then l' else x :: remove_first a l'
  end.

(** [this.delete()] on the object at address [a]. [rm_done] says whether
    the removal of the directory, which is started and not awaited, has
    succeeded by the time the caller looks. *)
Definition delete (a : nat) (kill_answer : result exn unit) (rm_done : bool)
    (w : World) : World :=
  match heap w !! a with
  | None => w
  | Some s =>
      let '(_, s', t) := delete_instance kill_answer s in
      mkWorld (<[a := s']> (heap w))
              (remove_first a (servers w))
              (next w)
              (if rm_done then dirs w ∖ {[serverPath s]} else dirs w)
              (trace w ++ t)
  end.

(** Run an instance operation on the object at address [a]. *)
Definition on_instance {A} (a : nat) (m : M A) (w : World)
  : option (result exn A) * World :=
  match heap w !! a with
  | None => (None, w)
  | Some s =>
      let '(r, s', t) := m s in
      (Some r,
       mkWorld (<[a := s']> (heap w)) (servers w) (next w) (dirs w)
               (trace w ++ t))
  end.

(** The ids of the registered instances, in registration order. *)
Definition ids (w : World) : list string :=
  omap (id_of w) (servers w).

(** Every reference of the registry points to an object below the next
    fresh address, and no reference is registered twice. *)
Definition wf (w : World) : bool :=
  forallb (fun a => bool_decide (is_Some (heap w !! a)) && (a <? next w)%nat)
          (servers w)
  && bool_decide (NoDup (servers w)).

(** No other registered instance has the id of the one at [a]. *)
Definition unique_id (w : World) (a : nat) : bool :=
  match heap w !! a with
  | None => false
  | Some s =>
      forallb (fun b => Nat.eqb b a || negb (has_id w (id s) b)) (servers w)
  end.

(** Scenarios: one server, and the same id created twice. *)
Definition one_server : World := (create "s1" (Ok tt) empty_world).2.
Definition same_id_twice : World := (create "s1" (Ok tt) one_server).2.

(** A scenario: two servers, [abc] and [xyz]. *)
Definition abc_and_xyz : World :=
  (create "xyz" (Ok tt) (create "abc" (Ok tt) empty_world).2).2.

End Registry.

(** ** SFTP authentication *)

Module Sftp.
Import Instance.

Inductive decision : Type :=
| RejectOffering (methods : list string)   (* ctx.reject(['password']) *)
| Reject                                    (* ctx.reject() *)
| Accept (usernameBase : string) (server : nat) (rootDir : string).

(** [parts.slice(0, -1)] *)
Definition init (parts : list string) : list string := removelast parts.

(** [parts.pop() || 'a'] *)
Definition pop_or_a (parts : list string) : string :=
  let popped := default "" (last parts) in
  if Js.empty popped then "a" else popped.

(** [Server.servers.filter(s => s.id.startsWith(serverId))] *)
Definition prefix_matches (serverId : string) (w : Registry.World) : list nat :=
  List.filter
    (fun a => match Registry.heap w !! a with
              | Some s => Js.startsWith (id s) serverId
              | None => false
              end)
    (Registry.servers w).

(** The instance the handler settles on, if any: exact id first, then a
    prefix that exactly one registered id has. *)
Definition lookup (serverId : string) (w : Registry.World) : option nat :=
  match Registry.getServer serverId w with
  | Some a => Some a
  | None =>
      match prefix_matches serverId w with
      | [a] => Some a
      | _ => None
      end
  end.

(** The [authentication] handler. [verify] is the remote check
    [VerifySFTP(userName, password, server)], which answers [false] when
    the helper API cannot be reached. *)
Definition authentication (method : string) (username : option string)
    (password : string) (verify : string -> string -> string -> bool)
    (w : Registry.World) : decision :=
  if String.eqb method "none" then RejectOffering ["password"]
  else if negb (String.eqb method "password") then RejectOffering ["password"]
  else
    let rawUser := default "" username in
    let parts := Js.split Js.is_underscore rawUser in
    if (length parts <? 2)%nat then Reject
    else
      let usernameBase := Js.join "_" (init parts) in
      let serverId := pop_or_a parts in
      match lookup serverId w with
      | None => Reject
      | Some a =>
          match Registry.heap w !! a with
          | None => Reject
          | Some serverObj =>
              if verify usernameBase password (id serverObj)
              then Accept usernameBase a
                          (Path.join [BASE_SERVER_PATH; id serverObj])
              else Reject
          end
      end.

(** *** The rule as the specification words it

    The user name is split on its last underscore; the right side is the
    server id. *)
Fixpoint split_last_underscore (u : string) : option (string * string) :=
  match u with
  | EmptyString => None
  | String c u' =>
      match split_last_underscore u' with
      | Some (l, r) => Some (String c l, r)
      | None => if Js.is_underscore c then Some (EmptyString, u') else None
      end
  end.

Definition spec_lookup (u : string) (w : Registry.World) : option nat :=
  match split_last_underscore u with
  | None => None
  | Some (_, serverId) => lookup serverId w
  end.

(** The instance the code settles on for a password attempt as [u]. *)
Definition code_lookup (u : string) (w : Registry.World) : option nat :=
  let parts := Js.split Js.is_underscore u in
  if (length parts <? 2)%nat then None
  else lookup (pop_or_a parts) w.

End Sftp.

(** ** Unarchive: which path each entry of a zip archive is written to *)

Module Unarchive.

Record Entry : Type := mkEntry {
  entryName : string;
  isDirectory : bool
}.

(** [/^([A-Za-z]:)?[\\/]+/]: an optional drive, then separators *)
Definition strip_root (p : string) : string :=
  match p with
  | String a (String b (String c rest)) =>
      if Sandbox.is_letter a && Ascii.eqb b Js.colon && Js.is_sep c
      then Js.strip_leading Js.is_sep rest
      else if Js.is_sep a then Js.strip_leading Js.is_sep p
      else p
  | String a _ => if Js.is_sep a then Js.strip_leading Js.is_sep p else p
  | EmptyString => p
  end.

Definition keep_segment (seg : string) : bool :=
  negb (Js.empty seg) && negb (String.eqb seg ".").

Definition sanitizeArchiveEntry (p : string) : result exn string :=
  let clean := Js.backslashes_to_slashes (strip_root p) in
  let parts := List.filter keep_segment (Js.split Js.is_slash clean) in
  if Sandbox.has_dotdot parts then Throw EntradaInvalidaEmArchive
  else Ok (Js.join "/" parts).

(** the index of the last character that satisfies [p], if any *)
Fixpoint last_index (p : ascii -> bool) (s : string) : option nat :=
  match s with
  | EmptyString => None
  | String c s' =>
      match last_index p s' with
      | Some i => Some (S i)
      | None => if p c then Some 0%nat else None
      end
  end.

(** [name.replace(/\.[^.]+$/, '')] *)
Definition strip_extension (name : string) : string :=
  match last_index Js.is_dot name with
  | Some i =>
      if (S i <? String.length name)%nat then Js.take i name else name
  | None => name
  end.

Definition deriveArchiveBase (name : string) : string :=
  let lower := Js.toLowerCase name in
  if Js.endsWith lower ".tar.gz" then Js.drop_end 7 name
  else if Js.endsWith lower ".tgz" then Js.drop_end 4 name
  else if Js.endsWith lower ".zip" || Js.endsWith lower ".rar"
          || Js.endsWith lower ".tar" then Js.drop_end 4 name
  else strip_extension name.

(** [names[0].split('/')[0]] *)
Definition first_component (n : string) : string :=
  default "" (head (Js.split Js.is_slash n)).

Definition under (top n : string) : bool :=
  String.eqb n top || Js.startsWith n (top +:+ "/").

(** The names the test looks at: slashes normalised, empty names dropped. *)
Definition listed_names (entries : list Entry) : list string :=
  List.filter (fun n => negb (Js.empty n))
              (map (fun e => Js.backslashes_to_slashes (entryName e)) entries).

(** The flatten test: [Some T] when the top-level directory [T] is to be
    stripped ([flatten = true], [rootCandidate = T]). *)
Definition flatten_root (userProvidedDestination : bool)
    (archiveBaseName : string) (entries : list Entry) : option string :=
  if userProvidedDestination then
    match listed_names entries with
    | [] => None
    | first :: _ =>
        let firstTop := first_component first in
        if negb (Js.empty firstTop)
           && forallb (under firstTop) (listed_names entries)
           && String.eqb firstTop archiveBaseName
        then Some firstTop
        else None
    end
  else None.

(** What happens to one entry: it is skipped, or written at a path. *)
Inductive outcome : Type :=
| Skipped
| Written (relative finalAbs : string) (dir : bool).

(** The name of an entry below the destination, after the optional
    stripping; [None] when the entry is skipped. *)
Definition target_name (root : option string) (entryName : string)
  : option string :=
  if Js.empty entryName then None
  else
    match root with
    | None => Some entryName
    | Some rootCandidate =>
        if String.eqb entryName rootCandidate then None
        else
          let stripped :=
            if Js.startsWith entryName (rootCandidate +:+ "/")
            then Js.drop (String.length rootCandidate + 1) entryName
            else entryName in
          if Js.empty stripped then None else Some stripped
    end.

Definition extract_entry (cwd destAbs : string) (root : option string)
    (e : Entry) : result exn outcome :=
  do name <- sanitizeArchiveEntry (entryName e);
  match target_name root name with
  | None => Ok Skipped
  | Some name' =>
      let finalAbs := Path.join [destAbs; name'] in
      if negb (Js.startsWith finalAbs (Path.resolve cwd [destAbs]))
      then Throw PathForaDoDestino
      else Ok (Written name' finalAbs (isDirectory e))
  end.

Record Extraction : Type := mkExtraction {
  archive : string;             (* reported as [archive] *)
  destination : string;         (* reported as [destination] *)
  flattened : bool;
  outcomes : list (Entry * result exn outcome)
}.

(** What [handleUnarchive] derives from the request before it opens the
    archive. *)
Record Prepared : Type := mkPrepared {
  relArchive : string;
  archiveBaseName : string;
  userProvidedDestination : bool;
  destRel : string;
  destAbs : string
}.

Definition prepare (cwd serverId relArchive : string)
    (destination : option string) : result exn Prepared :=
  let archiveBaseName := deriveArchiveBase (Path.basename relArchive) in
  let userProvidedDestination := negb (Js.falsy destination) in
  do destRel <-
    (if userProvidedDestination then Sandbox.sanitizeRelative destination
     else Sandbox.sanitizeRelative (Some archiveBaseName));
  do destAbs <- Sandbox.resolveServerPath cwd serverId destRel;
  Ok (mkPrepared relArchive archiveBaseName userProvidedDestination
                 destRel destAbs).

(** The zip branch, over the entries the archive lists. The rar branch
    applies the same test and the same stripping to the names of its file
    headers. *)
Definition extract_zip (cwd : string) (p : Prepared) (entries : list Entry)
  : Extraction :=
  let root :=
    flatten_root (userProvidedDestination p) (archiveBaseName p) entries in
  mkExtraction ("/" +:+ relArchive p) ("/" +:+ destRel p)
    (match root with Some _ => true | None => false end)
    (map (fun e => (e, extract_entry cwd (destAbs p) root e)) entries).











End Unarchive.

(** ** The HTTP surface *)

Module Http.
Import Instance.

#[local] Set Warnings "-register-all".

(** Values handed to [reply.send]. A promise that was not awaited is a
    value of its own: [JPromise v] is a promise that settles to [v]. *)
Inductive jsval : Type :=
| JNull
| JStr (s : string)
| JBool (b : bool)
| JObj (fields : list (string * jsval))
| JArr (items : list jsval)
| JPromise (settles_to : jsval)
| JOther.                      (* a value whose content is not tracked *)

(** [JSON.stringify], without escapes: a promise has no enumerable
    property of its own and is written as an empty object. *)
Fixpoint stringify (v : jsval) : string :=
  match v with
  | JNull => "null"
  | JStr s => Js.quoted s
  | JBool b => if b then "true" else "false"
  | JObj fields =>
      "{" +:+
      Js.join ","
        (map (fun kv =>
                Js.quoted (fst kv) +:+ ":" +:+ stringify (snd kv)) fields)
      +:+ "}"
  | JArr items => "[" +:+ Js.join "," (map stringify items) +:+ "]"
  | JPromise _ => "{}"
  | JOther => "null"
  end.

Definition field (name : string) (v : jsval) : option jsval :=
  match v with
  | JObj fields => snd <$> List.find (fun kv => String.eqb (fst kv) name) fields
  | _ => None
  end.

Record Reply : Type := mkReply {
  code : nat;
  payload : jsval
}.

Definition send (v : jsval) : Reply := mkReply 200 v.
Definition fail (c : nat) (msg : string) : Reply :=
  mkReply c (JObj [("error", JStr msg)]).
Definition success : Reply := send (JObj [("status", JStr "success")]).

(** The fields of a request body that the handlers read. *)
Record Body : Type := mkBody {
  token : option string;
  serverId : option string;
  userUuid : option string;
  action : option string;
  command : option string;
  path : option string;
  content : option string;
  contentBase64 : option string;
  newName : option string;
  destination : option string;
  from : option string;
  to : option string;
  paths : option (list string);
  archiveName : option string;
  memory : option Z;
  cpu : option Z;
  disk : option Z;
  environment : bool;               (* present and truthy *)
  primaryAllocation : bool;
  additionalAllocation : bool;
  image : option string;
  core : option (list string)       (* the config files the core describes *)
}.

Definition empty_body : Body :=
  mkBody None None None None None None None None None None None None None
         None None None None false false false None None.

Record Stat : Type := mkStat {
  isDirectory : bool;
  size : Z
}.

(** The answers of the file system, of the persisted id list and of the
    remote helper API. *)
Record Env : Type := mkEnv {
  config_token : string;
  cwd : string;
  userIsAdmin : string -> bool;
  hasPermission : string -> string -> bool;   (* user, server id *)
  stat : string -> option Stat;               (* [None]: the call fails *)
  readdir : string -> bool;
  mkdir : string -> result exn unit;      (* of the path, or of its directory *)
  writeFile : string -> result exn unit;
  readFile : string -> result exn string;
  rm : string -> result exn unit;
  zipEntries : string -> result exn (list Unarchive.Entry);
  bufferLength : Body -> Z;                   (* bytes of an upload *)
  later : string -> list string -> result exn Reply;
    (* the rest of a handler once its paths are resolved, where that rest
       is not followed here: the handler's name and the resolved paths *)
  db : result exn unit;                       (* the persisted id list *)
  mkdir_sandbox : result exn unit;
  inspect : result exn InspectData;
  kill_answer : result exn unit;
  now : Z
}.

Definition resolvePath (env : Env) (b : Body) (p : option string)
  : result exn (string * string) :=
  do rel <- Sandbox.sanitizeRelative p;
  do abs <- Sandbox.resolveServerPath (cwd env) (default "" (serverId b)) rel;
  Ok (rel, abs).

(** *** File manager *)

Definition validateAuth (env : Env) (b : Body) : bool * string :=
  if Js.falsy (token b) then (false, "token é obrigatório")
  else if negb (String.eqb (default "" (token b)) (config_token env))
  then (false, "token inválido")
  else if Js.falsy (serverId b) then (false, "serverId é obrigatório")
  else if Js.falsy (userUuid b) then (false, "userUuid é obrigatório")
  else (true, "").

Definition ensurePermission (env : Env) (w : Registry.World) (b : Body)
  : result exn nat :=
  match Registry.getServer (default "" (serverId b)) w with
  | None => Throw ServidorNaoEncontrado
  | Some a =>
      if hasPermission env (default "" (userUuid b)) (default "" (serverId b))
      then Ok a else Throw SemPermissao
  end.

Definition handleList (env : Env) (b : Body) : result exn Reply :=
  do ra <- resolvePath env b (path b);
  if readdir env ra.2 then Ok (send JOther)
  else Ok (fail 404 "Diretório não encontrado").

Definition handleRead (env : Env) (b : Body) : result exn Reply :=
  if Js.falsy (path b) then Ok (fail 400 "path é obrigatório")
  else
    do ra <- resolvePath env b (path b);
    match stat env ra.2 with
    | None => Ok (fail 404 "Arquivo não existe")
    | Some st =>
        if isDirectory st then Ok (fail 400 "path é diretório")
        else if 2 * 1024 * 1024 <? size st
        then Ok (fail 413 "Arquivo muito grande (>2MB) para leitura inline")
        else
          do text <- readFile env ra.2;
          Ok (send (JObj [("path", JStr ("/" +:+ ra.1));
                          ("content", JStr text)]))
    end.

Definition handleWrite (env : Env) (b : Body) : result exn Reply :=
  if Js.falsy (path b) then Ok (fail 400 "path é obrigatório")
  else match content b with
       | None => Ok (fail 400 "content é obrigatório")
       | Some _ =>
           do ra <- resolvePath env b (path b);
           do _ <- mkdir env ra.2;
           do _ <- writeFile env ra.2;
           Ok (send (JObj [("status", JStr "ok")]))
       end.

Definition handleRename (env : Env) (b : Body) : result exn Reply :=
  if Js.falsy (path b) || Js.falsy (newName b)
  then Ok (fail 400 "path e newName são obrigatórios")
  else if negb (Js.all_chars (fun c => negb (Js.is_sep c)) (default "" (newName b)))
  then Ok (fail 400 "newName inválido")
  else
    do ra <- resolvePath env b (path b);
    match stat env ra.2 with
    | None => Ok (fail 404 "Origem não existe")
    | Some _ => later env "rename" [ra.2]
    end.

Definition handleDownload (env : Env) (b : Body) : result exn Reply :=
  if Js.falsy (path b) then Ok (fail 400 "path é obrigatório")
  else
    do ra <- resolvePath env b (path b);
    match stat env ra.2 with
    | None => Ok (fail 404 "Arquivo não existe")
    | Some st =>
        if isDirectory st then Ok (fail 400 "Não é arquivo")
        else
          do _ <- readFile env ra.2;
          Ok (send JOther)
    end.

(** One entry of [mass]: an error of the resolver or of the file system
    becomes that entry's result. *)
Definition mass_delete_entry (env : Env) (b : Body) (p : string) : jsval :=
  match (do ra <- resolvePath env b (Some p);
         do _ <- rm env ra.2;
         Ok ra.1) with
  | Ok rel => JObj [("path", JStr ("/" +:+ rel)); ("status", JStr "deleted")]
  | Throw e => JObj [("path", JStr p); ("status", JStr "error");
                     ("error", JStr (exn_message e))]
  end.

Definition handleMass (env : Env) (b : Body) : result exn Reply :=
  match paths b with
  | None => Ok (fail 400 "paths vazio")
  | Some [] => Ok (fail 400 "paths vazio")
  | Some ps =>
      if String.eqb (default "" (action b)) "delete" then
        Ok (send (JObj [("status", JStr "ok");
                        ("results", JArr (map (mass_delete_entry env b) ps))]))
      else if String.eqb (default "" (action b)) "archive" then
        later env "archive" ps
      else Ok (fail 400 "action inválido")
  end.

Definition handleMkdir (env : Env) (b : Body) : result exn Reply :=
  if Js.falsy (path b) then Ok (fail 400 "path é obrigatório")
  else
    do rel <- Sandbox.sanitizeRelative (path b);
    if Js.empty rel then Ok (fail 400 "Não pode criar raiz")
    else
      do abs <- Sandbox.resolveServerPath (cwd env) (default "" (serverId b)) rel;
      match mkdir env abs with
      | Throw _ => Ok (fail 500 "Falha ao criar diretório")
      | Ok _ => Ok (send (JObj [("status", JStr "ok");
                                ("path", JStr ("/" +:+ rel))]))
      end.

Definition handleMove (env : Env) (b : Body) : result exn Reply :=
  if Js.falsy (from b) || Js.falsy (to b)
  then Ok (fail 400 "from e to são obrigatórios")
  else
    do relFrom <- Sandbox.sanitizeRelative (from b);
    do relToRaw <- Sandbox.sanitizeRelative (to b);
    do absFrom <- Sandbox.resolveServerPath (cwd env) (default "" (serverId b)) relFrom;
    match stat env absFrom with
    | None => Ok (fail 404 "origem não existe")
    | Some _ =>
        do absToCandidate <-
          Sandbox.resolveServerPath (cwd env) (default "" (serverId b)) relToRaw;
        later env "move" [absFrom; absToCandidate]
    end.

Definition handleUpload (env : Env) (b : Body) : result exn Reply :=
  if Js.falsy (path b) then Ok (fail 400 "path é obrigatório")
  else
    do rel <- Sandbox.sanitizeRelative (path b);
    if Js.empty rel || Js.endsWith (default "" (path b)) "/"
    then Ok (fail 400 "path deve incluir nome do arquivo")
    else if Js.falsy (contentBase64 b)
            && (match content b with None => true | Some _ => false end)
    then Ok (fail 400 "contentBase64 ou content requerido")
    else if 25 * 1024 * 1024 <? bufferLength env b
    then Ok (fail 413 "Arquivo excede 25MB")
    else
      do abs <- Sandbox.resolveServerPath (cwd env) (default "" (serverId b)) rel;
      do _ <- mkdir env abs;
      match writeFile env abs with
      | Throw _ => Ok (fail 500 "Falha ao salvar")
      | Ok _ => Ok (send (JObj [("status", JStr "ok");
                                ("path", JStr ("/" +:+ rel))]))
      end.

Definition handleUnarchive (env : Env) (b : Body) : result exn Reply :=
  if Js.falsy (path b) then Ok (fail 400 "path é obrigatório")
  else
    do ra <- resolvePath env b (path b);
    match stat env ra.2 with
    | None => Ok (fail 404 "Arquivo não existe")
    | Some st =>
        if isDirectory st then Ok (fail 400 "path aponta para diretório")
        else
          let lower := Js.toLowerCase ra.1 in
          let isZip := Js.endsWith lower ".zip" in
          let isRar := Js.endsWith lower ".rar" in
          let isTarGz := Js.endsWith lower ".tar.gz" || Js.endsWith lower ".tgz" in
          if negb isZip && negb isRar && negb isTarGz
          then Ok (fail 400 "Formato não suportado (use .zip, .rar ou .tar.gz/.tgz)")
          else
            do p <- Unarchive.prepare (cwd env) (default "" (serverId b))
                      ra.1 (destination b);
            if isZip then
              match zipEntries env ra.2 with
              | Throw _ => Ok (fail 500 "Falha ao descompactar")
              | Ok entries =>
                  let x := Unarchive.extract_zip (cwd env) p entries in
                  Ok (send (JObj [("status", JStr "ok");
                                  ("archive", JStr (Unarchive.archive x));
                                  ("destination", JStr (Unarchive.destination x));
                                  ("flattened", JBool (Unarchive.flattened x))]))
              end
            else later env "unarchive" [ra.2; Unarchive.destAbs p]
    end.

Definition interpretFileManager (env : Env) (w : Registry.World)
    (body : option Body) (subPath : string) : result exn Reply :=
  let b := default empty_body body in
  let auth := validateAuth env b in
  if negb auth.1 then Ok (fail 400 auth.2)
  else
    match ensurePermission env w b with
    | Throw e => Ok (fail 403 (exn_message e))
    | Ok _ =>
        if String.eqb subPath "list" then handleList env b
        else if String.eqb subPath "read" then handleRead env b
        else if String.eqb subPath "write" then handleWrite env b
        else if String.eqb subPath "rename" then handleRename env b
        else if String.eqb subPath "download" then handleDownload env b
        else if String.eqb subPath "mass" then handleMass env b
        else if String.eqb subPath "mkdir" then handleMkdir env b
        else if String.eqb subPath "move" then handleMove env b
        else if String.eqb subPath "upload" then handleUpload env b
        else if String.eqb subPath "unarchive" then handleUnarchive env b
        else Ok (fail 404 "ação filemanager desconhecida")
    end.

(** *** Control handlers *)

Definition Handled : Type := result exn (Reply * Registry.World).

(** [body.token] on a request without a body *)
Definition no_body : Handled :=
  Throw (TypeError "Cannot read properties of undefined (reading 'token')").

Definition VerifyStatus (env : Env) (w : Registry.World) (body : option Body)
  : Handled :=
  match body with
  | None => no_body
  | Some b =>
      match token b with
      | Some t =>
          if String.eqb t (config_token env)
          then Ok (mkReply 200 (JObj [("status", JStr "success")]), w)
          else Ok (mkReply 401 (JObj [("status", JStr "error")]), w)
      | None => Ok (mkReply 401 (JObj [("status", JStr "error")]), w)
      end
  end.

(** The four checks that open every handler of [/api/v1/servers]:
    [None] when they pass. *)
Definition common_checks (env : Env) (b : Body) : option Reply :=
  if Js.falsy (token b) then Some (fail 400 "Token is required")
  else if negb (String.eqb (default "" (token b)) (config_token env))
  then Some (fail 403 "Invalid token")
  else if Js.falsy (serverId b) then Some (fail 400 "serverId is required")
  else if Js.falsy (userUuid b) then Some (fail 400 "userUuid is required")
  else None.

Definition CreateServer (env : Env) (w : Registry.World) (body : option Body)
  : Handled :=
  match body with
  | None => no_body
  | Some b =>
      match common_checks env b with
      | Some r => Ok (r, w)
      | None =>
          if negb (userIsAdmin env (default "" (userUuid b)))
          then Ok (fail 403 "Not admin", w)
          else
            match db env with
            | Throw _ => Ok (success, w)
            | Ok _ =>
                Ok (success,
                    (Registry.create (default "" (serverId b))
                                     (mkdir_sandbox env) w).2)
            end
      end
  end.

Definition DeleteServer (env : Env) (rm_done : bool) (w : Registry.World)
    (body : option Body) : Handled :=
  match body with
  | None => no_body
  | Some b =>
      match common_checks env b with
      | Some r => Ok (r, w)
      | None =>
          if negb (userIsAdmin env (default "" (userUuid b)))
          then Ok (fail 403 "Not admin", w)
          else
            match Registry.getServer (default "" (serverId b)) w with
            | None => Ok (fail 404 "Server not found", w)
            | Some a =>
                Ok (success, Registry.delete a (kill_answer env) rm_done w)
            end
      end
  end.

(** The checks shared by status, usage and action: the instance when they
    pass. *)
Definition member_checks (env : Env) (w : Registry.World) (b : Body)
  : Reply + nat :=
  match common_checks env b with
  | Some r => inl r
  | None =>
      match Registry.getServer (default "" (serverId b)) w with
      | None => inl (fail 404 "Server not found")
      | Some a =>
          if hasPermission env (default "" (userUuid b))
               (default "" (serverId b))
          then inr a else inl (fail 403 "No permission")
      end
  end.

Definition status_text (st : status) : jsval :=
  match st with
  | running_ => JStr "running"
  | stopped_ => JStr "stopped"
  end.

(** [getStatus()] on the instance at [a]: what the returned promise
    settles to, and the world once it has. *)
Definition getStatus_at (env : Env) (a : nat) (w : Registry.World)
  : jsval * Registry.World :=
  match Registry.on_instance a (getStatus (inspect env) (now env)) w with
  | (Some (Ok st), w') => (status_text st, w')
  | (_, w') => (JOther, w')
  end.

(** [serverStatus: server.getStatus()]: the promise itself is the field. *)
Definition GetServerStatus (env : Env) (w : Registry.World)
    (body : option Body) : Handled :=
  match body with
  | None => no_body
  | Some b =>
      match member_checks env w b with
      | inl r => Ok (r, w)
      | inr a =>
          let '(settled, w') := getStatus_at env a w in
          Ok (send (JObj [("status", JStr "success");
                          ("serverStatus", JPromise settled)]), w')
      end
  end.

(** [state: await server.getStatus()]: the settled value is the field. *)
Definition GetServerUsage (env : Env) (w : Registry.World)
    (body : option Body) : Handled :=
  match body with
  | None => no_body
  | Some b =>
      match member_checks env w b with
      | inl r => Ok (r, w)
      | inr a =>
          let '(_, w1) := getStatus_at env a w in
          let '(settled, w2) := getStatus_at env a w1 in
          Ok (send (JObj [("status", JStr "success");
                          ("usage", JObj [("cpu", JOther);
                                          ("memory", JOther);
                                          ("state", settled)])]), w2)
      end
  end.

(** The lifecycle operation is started and not awaited: the reply does not
    depend on it, and the registry is as it was when the reply is sent. *)
Definition SendActionServer (env : Env) (w : Registry.World)
    (body : option Body) : Handled :=
  match body with
  | None => no_body
  | Some b =>
      match member_checks env w b with
      | inl r => Ok (r, w)
      | inr a =>
          if Js.falsy (action b) then Ok (fail 400 "action is required", w)
          else
            let act := default "" (action b) in
            if String.eqb act "start" || String.eqb act "restart" then
              match memory b, cpu b, disk b, core b with
              | Some _, Some _, Some _, Some _ =>
                  if environment b && primaryAllocation b
                     && negb (Js.falsy (image b)) && additionalAllocation b
                  then Ok (success, w)
                  else Ok (fail 400 "Missing required fields for starting/restarting the server", w)
              | _, _, _, _ =>
                  Ok (fail 400 "Missing required fields for starting/restarting the server", w)
              end
            else if String.eqb act "stop" then
              if Js.falsy (command b)
              then Ok (fail 400 ("command is required for action " +:+ Js.quoted "stop"), w)
              else Ok (success, w)
            else if String.eqb act "kill" then Ok (success, w)
            else if String.eqb act "command" then
              if Js.falsy (command b)
              then Ok (fail 400 ("command is required for action " +:+ Js.quoted "command"), w)
              else Ok (success, w)
            else Ok (fail 400 "Invalid action", w)
      end
  end.

(** *** Routing *)

Definition interpretServers (env : Env) (rm_done : bool) (w : Registry.World)
    (body : option Body) (action : option string) : Handled :=
  let act := default "" action in
  if negb (Js.falsy action) && Js.startsWith act "filemanager" then
    let sub := default "" (Js.split Js.is_slash act !! 1%nat) in
    do r <- interpretFileManager env w body
              (if Js.empty sub then "list" else sub);
    Ok (r, w)
  else if String.eqb act "delete" then DeleteServer env rm_done w body
  else if String.eqb act "status" then GetServerStatus env w body
  else if String.eqb act "action" then SendActionServer env w body
  else if String.eqb act "usage" then GetServerUsage env w body
  else CreateServer env w body.

Inductive route : Type :=
| StatusRoute                              (* /api/v1/status *)
| ServersRoute (action : option string).  (* /api/v1/servers/[[...action]] *)

Definition no_line_break (s : string) : bool :=
  Js.all_chars (fun c => negb (Ascii.eqb c (Js.chr 10))
                         && negb (Ascii.eqb c (Js.chr 13))) s.

(** The two patterns as the regular expressions they are turned into:
    the status path with an optional final slash; the servers path, alone
    or followed by a slash and any text without a line break, which is
    the [action] parameter (the final slash, if any, included). *)
Definition findMatchingApiRoute (pathname : string) : option route :=
  if String.eqb pathname "/api/v1/status"
     || String.eqb pathname "/api/v1/status/" then Some StatusRoute
  else if String.eqb pathname "/api/v1/servers" then Some (ServersRoute None)
  else if Js.startsWith pathname "/api/v1/servers/" then
    let rest := Js.drop 16 pathname in
    if no_line_break rest then Some (ServersRoute (Some rest)) else None
  else None.

Definition handleRequest (env : Env) (rm_done : bool) (w : Registry.World)
    (method pathname : string) (body : option Body)
  : Reply * Registry.World :=
  match findMatchingApiRoute pathname with
  | None =>
      (mkReply 404 (JObj [("message",
                           JStr ("A rota " +:+ pathname +:+ " não foi encontrada."))]),
       w)
  | Some r =>
      let handler : option Handled :=
        match r with
        | StatusRoute =>
            if String.eqb method "POST" then Some (VerifyStatus env w body)
            else None
        | ServersRoute action =>
            if String.eqb method "POST" || String.eqb method "GET"
            then Some (interpretServers env rm_done w body action)
            else None
        end in
      match handler with
      | Some (Ok rw) => rw
      | Some (Throw err) =>
          (mkReply 500 (JObj [("message", JStr "Erro interno do servidor");
                              ("error", JStr (exn_message err))]), w)
      | None =>
          (mkReply 405 (JObj [("message",
                               JStr ("Método " +:+ method
                                     +:+ " não permitido para a rota "
                                     +:+ pathname +:+ "."))]),
           w)
      end
  end.

(** The reply the router sends for what a handler returned or raised. *)
Definition routed (w : Registry.World) (h : Handled) : Reply * Registry.World :=
  match h with
  | Ok rw => rw
  | Throw err =>
      (mkReply 500 (JObj [("message", JStr "Erro interno do servidor");
                          ("error", JStr (exn_message err))]), w)
  end.

(** The operations of the file manager and of the control surface, as the
    last segment of the request path names them. *)
Definition file_ops : list string :=
  ["list"; "read"; "write"; "rename"; "download"; "mass"; "mkdir"; "move";
   "upload"; "unarchive"].

Definition control_ops : list string :=
  ["create"; "delete"; "status"; "usage"; "action"].

Definition control_handler (env : Env) (rm : bool) (w : Registry.World)
    (body : option Body) (op : string) : Handled :=
  if String.eqb op "delete" then DeleteServer env rm w body
  else if String.eqb op "status" then GetServerStatus env w body
  else if String.eqb op "action" then SendActionServer env w body
  else if String.eqb op "usage" then GetServerUsage env w body
  else CreateServer env w body.

(** *** Scenarios *)

(** An agent whose token is [secret], run in [/app]; the helper API
    grants everything, every path names a file of ten bytes, and the
    runtime reports containers as running. *)
Definition sample_env : Env :=
  mkEnv "secret" "/app" (fun _ => true) (fun _ _ => true)
        (fun _ => Some (mkStat false 10)) (fun _ => true)
        (fun _ => Ok tt) (fun _ => Ok tt) (fun _ => Ok "hello")
        (fun _ => Ok tt) (fun _ => Ok []) (fun _ => 0)
        (fun _ _ => Ok success) (Ok tt) (Ok tt)
        (Ok (mkInspect "running" None)) (Ok tt) 0.

(** A request body with a token, for server [s1] and user [u]. *)
Definition body_with (tok : option string) (p : option string) : Body :=
  mkBody tok (Some "s1") (Some "u") None None p None None None None None
         None None None None None None false false false None None.

End Http.


(** * The rest of the agent: log lines, the start command, the SFTP session,
      boot, the ORM, the configuration script and the console socket *)

(** ** More of JavaScript's strings *)

Module Text.

(** the longest prefix of [s] whose characters satisfy [p], and the rest *)
Fixpoint span (p : ascii -> bool) (s : string) : string * string :=
  match s with
  | EmptyString => (EmptyString, EmptyString)
  | String c s' =>
      if p c then (String c (span p s').1, (span p s').2)
      else (EmptyString, s)
  end.

(** the first occurrence of [pat] in [s]: the text before it and the
    text after it *)
Fixpoint find (pat s : string) : option (string * string) :=
  if Js.startsWith s pat then Some (EmptyString, Js.drop (String.length pat) s)
  else
    match s with
    | EmptyString => None
    | String c s' =>
        match find pat s' with
        | Some (before, after) => Some (String c before, after)
        | None => None
        end
    end.

(** [s.includes(pat)] *)
Definition includes (s pat : string) : bool :=
  match find pat s with Some _ => true | None => false end.

Definition is_digit (c : ascii) : bool :=
  let n := Ascii.nat_of_ascii c in (48 <=? n)%nat && (n <=? 57)%nat.

(** the character class [\w] *)
Definition is_word_char (c : ascii) : bool :=
  Sandbox.is_letter c || is_digit c || Js.is_underscore c.

(** the character class [[A-Z0-9_]] *)
Definition is_var_char (c : ascii) : bool :=
  let n := Ascii.nat_of_ascii c in
  ((65 <=? n)%nat && (n <=? 90)%nat) || is_digit c || Js.is_underscore c.

Definition dollar : ascii := Js.chr 36.
Definition ampersand : ascii := Js.chr 38.
Definition backtick : ascii := Js.chr 96.
Definition apostrophe : ascii := Js.chr 39.

(** The replacement text of [String.prototype.replace] for a pattern
    that is a string, so that there is no capture: [$$] is a dollar,
    [$&] the matched text, [$`] the text before the match and [$'] the
    text after it; any other dollar stands for itself. *)
Fixpoint substitution (matched before after template : string) : string :=
  match template with
  | EmptyString => EmptyString
  | String c t' =>
      if Ascii.eqb c dollar then
        match t' with
        | String d t'' =>
            if Ascii.eqb d dollar
            then String dollar (substitution matched before after t'')
            else if Ascii.eqb d ampersand
            then matched +:+ substitution matched before after t''
            else if Ascii.eqb d backtick
            then before +:+ substitution matched before after t''
            else if Ascii.eqb d apostrophe
            then after +:+ substitution matched before after t''
            else String c (substitution matched before after t')
        | EmptyString => String c EmptyString
        end
      else String c (substitution matched before after t')
  end.

(** [s.replace(pat, template)] for a string [pat]: the first occurrence
    only *)
Definition replace_first (pat template s : string) : string :=
  match find pat s with
  | None => s
  | Some (before, after) =>
      before +:+ substitution pat before after template +:+ after
  end.

End Text.

(** ** Container log lines: [streamDockerLogs] *)

Module Logs.

Definition lf : ascii := Js.chr 10.
Definition cr : ascii := Js.chr 13.
Definition is_lf (c : ascii) : bool := Ascii.eqb c lf.
Definition is_cr (c : ascii) : bool := Ascii.eqb c cr.

(** [c] in front of the first piece *)
Definition push (c : ascii) (pieces : list string) : list string :=
  match pieces with
  | [] => [String c EmptyString]
  | h :: t => String c h :: t
  end.

(** [text.split(/\r?\n/)]: a line feed ends a piece, together with the
    carriage return right before it, if there is one. *)
Fixpoint split_lines (text : string) : list string :=
  match text with
  | EmptyString => [EmptyString]
  | String c s' =>
      if is_lf c then EmptyString :: split_lines s'
      else
        match s' with
        | String d s'' =>
            if is_cr c && is_lf d then EmptyString :: split_lines s''
            else push c (split_lines s')
        | EmptyString => push c (split_lines s')
        end
  end.

(** [handleChunk]: the lines handed to [onLine], in order; what [onLine]
    throws is swallowed. *)
Definition handleChunk (text : string) : list string :=
  List.filter (fun l => negb (Js.empty l)) (split_lines text).

(** the last character of [text] is a carriage return *)
Fixpoint ends_with_cr (text : string) : bool :=
  match text with
  | EmptyString => false
  | String c EmptyString => is_cr c
  | String _ s' => ends_with_cr s'
  end.

Definition LF : string := String lf EmptyString.

(** a text without a line feed *)
Definition lf_free (l : string) : Prop :=
  Js.all_chars (fun c => negb (is_lf c)) l = true.

End Logs.

(** ** The command a container is started with: [Server.start] *)

Module Startup.

Definition lbrace : ascii := Js.chr 123.
Definition rbrace : ascii := Js.chr 125.
Definition is_lbrace (c : ascii) : bool := Ascii.eqb c lbrace.

(** A match of [/\{\{([A-Z0-9_]+)\}\}/] at the start of [s]: the key. *)
Definition placeholder (s : string) : option string :=
  match s with
  | String a (String b r) =>
      if is_lbrace a && is_lbrace b then
        let k := (Text.span Text.is_var_char r).1 in
        let r' := (Text.span Text.is_var_char r).2 in
        if negb (Js.empty k) && Js.startsWith r' "}}" then Some k else None
      else None
  | _ => None
  end.

(** the text of the placeholder for key [k] *)
Definition braces (k : string) : string := "{{" +:+ k +:+ "}}".

(** The scan of [txt.replace(/.../g, (m, k) => ...)], from left to
    right: [skip] characters of a match are still to be passed over. A
    key that [varMap] does not define leaves its placeholder as it is. *)
Fixpoint replace_from (varMap : gmap string string) (skip : nat)
    (txt : string) : string :=
  match txt with
  | EmptyString => EmptyString
  | String c txt' =>
      match skip with
      | S n => replace_from varMap n txt'
      | O =>
          match placeholder txt with
          | Some k =>
              default (braces k) (varMap !! k)
              +:+ replace_from varMap (String.length k + 3) txt'
          | None => String c (replace_from varMap 0 txt')
          end
      end
  end.

Definition replaceVars (varMap : gmap string string) (txt : string) : string :=
  replace_from varMap 0 txt.

(** What [start] reads of [StartData] to build the command. Numbers and
    the values of the environment are given as [String(..)] renders
    them. *)
Record CommandData : Type := mkCommandData {
  memory : string;                      (* String(data.memory) *)
  primaryPort : option string;          (* [None]: no allocation or no port *)
  primaryIp : option string;
  environment : gmap string string;
  installScript : option string;        (* data.core.installScript *)
  startupCommand : option string        (* data.core.startupCommand *)
}.

(** The three server variables, then the entries of the environment,
    which come last in the object literal and so win. *)
Definition varMap (d : CommandData) : gmap string string :=
  environment d ∪
  {[ "SERVER_MEMORY" := memory d;
     "SERVER_PORT" := default "" (primaryPort d);
     "SERVER_IP" := default "" (primaryIp d) ]}.

Definition rendered (d : CommandData) (script : option string) : string :=
  if Js.falsy script then "" else replaceVars (varMap d) (default "" script).

Definition startupBase (d : CommandData) : string :=
  Text.replace_first "{{SERVER_MEMORY}}" (memory d)
    (rendered d (startupCommand d)).

(** [/^\s*exec\b/.test(s)] *)
Definition starts_with_exec (s : string) : bool :=
  let r := Js.strip_leading Js.is_ws s in
  Js.startsWith r "exec" &&
  match Js.drop 4 r with
  | EmptyString => true
  | String c _ => negb (Text.is_word_char c)
  end.

Definition with_exec (startupBase : string) : string :=
  if negb (starts_with_exec startupBase) then "exec " +:+ startupBase
  else startupBase.

Definition finalStartupCommand (d : CommandData) : string :=
  with_exec (startupBase d).

Definition combinedCommand (d : CommandData) : string :=
  let installScript := rendered d (installScript d) in
  if negb (Js.empty installScript) && negb (Js.empty (Js.trim installScript))
  then installScript +:+ Logs.LF +:+ finalStartupCommand d
  else finalStartupCommand d.

(** [Cmd] of the container *)
Definition Cmd (d : CommandData) : list string :=
  ["/bin/sh"; "-c"; combinedCommand d].

(** a non-empty run of [[A-Z0-9_]] *)
Definition is_key (k : string) : bool :=
  negb (Js.empty k) && Js.all_chars Text.is_var_char k.

Definition brace_free (s : string) : bool :=
  Js.all_chars (fun c => negb (is_lbrace c)) s.

(** the placeholder for [k] is written somewhere in [txt] *)
Definition occurs (k txt : string) : Prop :=
  exists pre rest, txt = pre +:+ braces k +:+ rest.

(** A scenario: a Minecraft-like core with one variable of its own. *)
Definition sample_data : CommandData :=
  mkCommandData "1024" (Some "25565") (Some "0.0.0.0")
    {[ "JAR" := "server.jar" ]}
    (Some "echo port {{SERVER_PORT}}")
    (Some "java -Xmx{{SERVER_MEMORY}}M -jar {{JAR}} {{UNKNOWN}}").

End Startup.

(** ** More of Node's [path] module, POSIX flavour *)

Module PathMore.

(** [path.charCodeAt(i) === 47] *)
Definition slash_at (path : string) (i : nat) : bool :=
  match String.get i path with
  | Some c => Js.is_slash c
  | None => false
  end.

(** The loop of [dirname], which goes down from index [i] to index 1:
    the index of the slash that ends the directory part, if there is
    one. *)
Fixpoint dirname_loop (path : string) (i : nat) (matchedSlash : bool)
  : option nat :=
  match i with
  | O => None
  | S i' =>
      if slash_at path i then
        if negb matchedSlash then Some i
        else dirname_loop path i' matchedSlash
      else dirname_loop path i' false
  end.

Definition dirname (path : string) : string :=
  if Js.empty path then "."
  else
    let hasRoot := slash_at path 0 in
    match dirname_loop path (String.length path - 1) true with
    | None => if hasRoot then "/" else "."
    | Some e =>
        if hasRoot && (e =? 1)%nat then "//" else Js.take e path
    end.

End PathMore.

(** ** The SFTP session: virtual paths, open flags and handles *)

Module SftpSession.

Definition OK : nat := 0.
Definition EOF : nat := 1.
Definition FAILURE : nat := 4.

(** The path shown to the client for the host path [abs]. *)
Definition toVirtual (rootDir abs : string) : string :=
  if String.eqb abs rootDir then "/"
  else if Js.startsWith abs (rootDir +:+ "/") then
    "/" +:+ Js.backslashes_to_slashes
              (Js.drop (String.length rootDir + 1) abs)
  else "/".

(** [flags & SSH2_FXF_WRITE || flags & SSH2_FXF_CREAT] *)
Definition flagsToFsFlags (flags : Z) : string :=
  if negb (Z.land flags 2 =? 0) || negb (Z.land flags 8 =? 0)
  then "w+" else "r".

(** the flag [OPEN] hands to [fsp.open] *)
Definition open_flag (flags : Z) : string :=
  if Text.includes (flagsToFsFlags flags) "w" then "w+" else "r".

Definition Fd : Type := nat.

Record DirHandle : Type := mkDirHandle {
  dirPath : string;
  entries : list string;        (* the names [readdir] returned *)
  sent : bool
}.

(** The two tables of the module, keyed by the handle's bytes (the code
    keys them by the hexadecimal text of these bytes). *)
Record Handles : Type := mkHandles {
  fileHandles : gmap string Fd;
  dirHandles : gmap string DirHandle
}.

Definition no_handles : Handles := mkHandles ∅ ∅.

(** The requests of a session. [drawn] is the handle that
    [Math.random().toString(36).slice(2)] gives when one is issued. *)
Inductive request : Type :=
| REALPATH (givenPath : string)
| FSTAT (handle : string)
| STAT (givenPath : string)
| LSTAT (givenPath : string)
| OPENDIR (givenPath : string) (drawn : string)
| READDIR (handle : string)
| OPEN (filename : string) (flags : Z) (drawn : string)
| READ (handle : string) (offset length : Z)
| WRITE (handle : string) (offset : Z) (data : string)
| CLOSE (handle : string)
| REMOVE (pth : string)
| MKDIR (pth : string)
| RMDIR (pth : string)
| RENAME (oldPath newPath : string).

(** What the session answers; the content of attributes is not
    tracked. *)
Inductive response : Type :=
| Status (code : nat)
| Handle (handle : string)
| Name (filenames : list string)
| Data (bytes : string)
| Attrs.

(** The answers of the file system. *)
Record Fs : Type := mkFs {
  stat : string -> result exn unit;
  lstat : string -> result exn unit;
  fstat : Fd -> result exn unit;
  readdir : string -> result exn (list string);
  mkdir : string -> result exn unit;
  open : string -> string -> result exn Fd;
  read : Fd -> Z -> Z -> result exn string;
  write : Fd -> Z -> string -> result exn unit;
  unlink : string -> result exn unit;
  rmdir : string -> result exn unit;
  rename : string -> string -> result exn unit
}.

(** [try { ...; status(OK) } catch { status(FAILURE) }] *)
Definition status_of (r : result exn unit) : response :=
  match r with
  | Ok _ => Status OK
  | Throw _ => Status FAILURE
  end.

(** One request of a session whose root is [rootDir]. *)
Definition serve (fs : Fs) (rootDir : string) (req : request) (h : Handles)
  : response * Handles :=
  match req with
  | REALPATH givenPath =>
      match Sandbox.normalize rootDir givenPath with
      | Ok full => (Name [toVirtual rootDir full], h)
      | Throw _ => (Status FAILURE, h)
      end
  | FSTAT handle =>
      match fileHandles h !! handle with
      | None => (Status FAILURE, h)
      | Some fd =>
          (match fstat fs fd with Ok _ => Attrs | Throw _ => Status FAILURE end,
           h)
      end
  | STAT givenPath =>
      (match (do p <- Sandbox.normalize rootDir givenPath; stat fs p) with
       | Ok _ => Attrs
       | Throw _ => Status FAILURE
       end, h)
  | LSTAT givenPath =>
      (match (do p <- Sandbox.normalize rootDir givenPath; lstat fs p) with
       | Ok _ => Attrs
       | Throw _ => Status FAILURE
       end, h)
  | OPENDIR givenPath drawn =>
      match (do dirPath <- Sandbox.normalize rootDir givenPath;
             do entries <- readdir fs dirPath;
             Ok (dirPath, entries)) with
      | Ok (dirPath, entries) =>
          (Handle drawn,
           mkHandles (fileHandles h)
                     (<[drawn := mkDirHandle dirPath entries false]>
                        (dirHandles h)))
      | Throw _ => (Status FAILURE, h)
      end
  | READDIR handle =>
      match dirHandles h !! handle with
      | None => (Status FAILURE, h)
      | Some d =>
          if sent d then (Status EOF, h)
          else
            (Name (entries d),
             mkHandles (fileHandles h)
                       (<[handle := mkDirHandle (dirPath d) (entries d) true]>
                          (dirHandles h)))
      end
  | OPEN filename flags drawn =>
      match (do p <- Sandbox.normalize rootDir filename;
             do _ <- mkdir fs (PathMore.dirname p);
             open fs p (open_flag flags)) with
      | Ok fd =>
          (Handle drawn,
           mkHandles (<[drawn := fd]> (fileHandles h)) (dirHandles h))
      | Throw _ => (Status FAILURE, h)
      end
  | READ handle offset length =>
      match fileHandles h !! handle with
      | None => (Status FAILURE, h)
      | Some fd =>
          (match read fs fd offset length with
           | Ok bytes => Data bytes
           | Throw _ => Status FAILURE
           end, h)
      end
  | WRITE handle offset data =>
      match fileHandles h !! handle with
      | None => (Status FAILURE, h)
      | Some fd => (status_of (write fs fd offset data), h)
      end
  | CLOSE handle =>
      match fileHandles h !! handle with
      | Some _ =>
          (Status OK,
           mkHandles (delete handle (fileHandles h)) (dirHandles h))
      | None =>
          match dirHandles h !! handle with
          | Some _ =>
              (Status OK,
               mkHandles (fileHandles h) (delete handle (dirHandles h)))
          | None => (Status FAILURE, h)
          end
      end
  | REMOVE pth =>
      (status_of (do p <- Sandbox.normalize rootDir pth; unlink fs p), h)
  | MKDIR pth =>
      (status_of (do p <- Sandbox.normalize rootDir pth; mkdir fs p), h)
  | RMDIR pth =>
      (status_of (do p <- Sandbox.normalize rootDir pth; rmdir fs p), h)
  | RENAME oldPath newPath =>
      (status_of (do o <- Sandbox.normalize rootDir oldPath;
                  do n <- Sandbox.normalize rootDir newPath;
                  rename fs o n), h)
  end.

(** The handles after a run of requests. *)
Definition serve_all (fs : Fs) (rootDir : string) (reqs : list request)
    (h : Handles) : Handles :=
  fold_left (fun h req => (serve fs rootDir req h).2) reqs h.

(** [req] neither closes [handle] nor issues it anew. *)
Definition leaves_alone (handle : string) (req : request) : bool :=
  match req with
  | CLOSE h' => negb (String.eqb h' handle)
  | OPENDIR _ drawn => negb (String.eqb drawn handle)
  | OPEN _ _ drawn => negb (String.eqb drawn handle)
  | _ => true
  end.

(** A plain name: not empty, not [.] or [..], without a slash or a
    backslash. *)
Definition plain (x : string) : bool :=
  Path.good x && Js.all_chars (fun c => negb (Js.is_sep c)) x.

(** A scenario: a file system that lists [a.txt] and [b] everywhere and
    opens every file as descriptor 3. *)
Definition sample_fs : Fs :=
  mkFs (fun _ => Ok tt) (fun _ => Ok tt) (fun _ => Ok tt)
       (fun _ => Ok ["a.txt"; "b"]) (fun _ => Ok tt)
       (fun _ _ => Ok 3%nat) (fun _ _ _ => Ok "data")
       (fun _ _ _ => Ok tt) (fun _ => Ok tt) (fun _ => Ok tt)
       (fun _ _ => Ok tt).

End SftpSession.

(** ** File manager: where [rename] moves a file *)

Module FileOps.
Import Http.

(** [/[/\\]/.test(name)] *)
Definition has_separator (name : string) : bool :=
  negb (Js.all_chars (fun c => negb (Js.is_sep c)) name).

(** The [fs.rename(fileAbs, newAbs)] that [handleRename] issues, when it
    gets that far: the checks on the body, the resolver and [fs.stat]
    come first. *)
Definition rename_call (env : Env) (b : Body) : option (string * string) :=
  if Js.falsy (path b) || Js.falsy (newName b) then None
  else if has_separator (default "" (newName b)) then None
  else
    match resolvePath env b (path b) with
    | Throw _ => None
    | Ok (rel, fileAbs) =>
        match stat env fileAbs with
        | None => None
        | Some _ =>
            Some (fileAbs,
                  Path.join [PathMore.dirname fileAbs;
                             default "" (newName b)])
        end
    end.

(** the sanitized [path] of the body does not begin with a slash *)
Definition relative_path (b : Body) : bool :=
  match Sandbox.sanitizeRelative (path b) with
  | Ok rel => negb (Path.isAbsolute rel)
  | Throw _ => false
  end.

(** the server's directory, resolved against the working directory *)
Definition base_of (env : Env) (b : Body) : string :=
  Path.resolve (cwd env) [Sandbox.serverBase (default "" (serverId b))].

(** A scenario: [world/level.dat] of server [s1] is renamed. *)
Definition rename_body (name : string) : Body :=
  mkBody (Some "secret") (Some "s1") (Some "u") None None
         (Some "world/level.dat") None None (Some name) None None None
         None None None None None false false false None None.

End FileOps.

(** ** Boot: [Server.start()] reconciles the persisted ids with the runtime *)

Module Boot.
Import Instance Registry.

Definition CONTAINER_NAME_PREFIX : string := "ptero-clone-".

(** An entry of [docker.listContainers({ all: true })]. *)
Record ContainerInfo : Type := mkContainerInfo {
  Id : Container;
  Names : list string;
  State : string
}.

(** What the runtime answers during boot. *)
Record Runtime : Type := mkRuntime {
  allContainers : list ContainerInfo;
  inspect : Container -> result exn InspectData;
  attach : Container -> result exn Stream;
  now : Z
}.

Definition containerName (id : string) : string :=
  "/" +:+ CONTAINER_NAME_PREFIX +:+ id.

(** [allContainers.find(c => c.Names.includes(containerName))] *)
Definition existingContainer (rt : Runtime) (id : string)
  : option ContainerInfo :=
  List.find (fun c => existsb (String.eqb (containerName id)) (Names c))
            (allContainers rt).

(** The instance built for one persisted id, and what was asked of the
    runtime for it. *)
Definition boot_instance (rt : Runtime) (serverId : string)
  : Server * list effect :=
  match existingContainer rt serverId with
  | None => (new_Server serverId, [])
  | Some c =>
      let '(_, server, t) :=
        adopt (Some (Id c, State c)) (inspect rt (Id c)) (attach rt (Id c))
              (now rt) (new_Server serverId) in
      (server, t)
  end.

(** One turn of the loop: the instance is built, then pushed. *)
Definition boot_one (rt : Runtime) (w : World) (serverId : string) : World :=
  let '(server, t) := boot_instance rt serverId in
  mkWorld (<[next w := server]> (heap w)) (servers w ++ [next w])
          (S (next w)) (dirs w) (trace w ++ t).

(** [Server.start()], over the [serverId] column of the rows that
    [ServerModel.getAll()] returned. *)
Definition boot (rt : Runtime) (rows : list string) (w : World) : World :=
  fold_left (boot_one rt) rows w.

(** Every registered instance is stored and satisfies [P]. *)
Definition all_instances (P : Server -> Prop) (w : World) : Prop :=
  forall a, In a (servers w) -> exists s, heap w !! a = Some s /\ P s.

(** What boot leaves of an instance: the start time goes with the
    running flag, which goes with a container handle. *)
Definition booted (s : Server) : Prop :=
  startedAt_iff_running s /\
  (running s = true -> container s <> None) /\
  (container s = None -> stdinStream s = None).

(** A scenario: two containers, one of them running; three rows, one of
    them without a container. *)
Definition sample_runtime : Runtime :=
  mkRuntime
    [mkContainerInfo 1%nat ["/ptero-clone-a"] "running";
     mkContainerInfo 2%nat ["/ptero-clone-b"] "exited"]
    (fun _ => Ok (mkInspect "running" (Some (Some 1000))))
    (fun _ => Ok 5%nat) 2000.

End Boot.

(** ** Which requests are served for a member of a server *)

Module Access.
Import Http.

(** The actions of [/api/v1/servers] that act for a member of a server:
    the file manager, [status], [usage] and [action]. *)
Definition member_action (action : string) : bool :=
  Js.startsWith action "filemanager" || String.eqb action "status"
  || String.eqb action "action" || String.eqb action "usage".

(** The request carries the agent's token. *)
Definition has_token (env : Env) (body : option Body) : Prop :=
  exists b, body = Some b /\ token b = Some (config_token env).

End Access.

(** ** JavaScript values *)

Module Value.

(** A number: not-a-number, an infinity, or the fraction
    [numerator/denominator]; the sign of zero is not kept. *)
Inductive number : Type :=
| NaN
| Infinity (negative : bool)
| Finite (numerator : Z) (denominator : positive).

Definition of_Z (z : Z) : number := Finite z 1.

(** [!!n] *)
Definition truthy_number (n : number) : bool :=
  match n with
  | NaN => false
  | Infinity _ => true
  | Finite z _ => negb (z =? 0)
  end.

(** The values a record of the table or a field of the configuration
    file may hold. A date is given by what [toISOString()] returns for
    it, [None] for an invalid date, on which [toISOString()] throws. *)
Inductive value : Type :=
| VUndefined
| VNull
| VBool (b : bool)
| VNum (n : number)
| VStr (s : string)
| VDate (iso : option string)
| VObject.                       (* any other object *)

(** [!!v] *)
Definition truthy (v : value) : bool :=
  match v with
  | VUndefined | VNull => false
  | VBool b => b
  | VNum n => truthy_number n
  | VStr s => negb (Js.empty s)
  | VDate _ | VObject => true
  end.

(** [v === undefined || v === null] *)
Definition nullish (v : value) : bool :=
  match v with
  | VUndefined | VNull => true
  | _ => false
  end.

(** [a || b] *)
Definition or_else (a b : value) : value := if truthy a then a else b.

End Value.

(** ** The ORM: [BaseModel] and [SuperORM] *)

Module Orm.
Import Value.

Record ColumnOptions : Type := mkColumn {
  type : string;
  primaryKey : bool;               (* [options.primaryKey] is truthy *)
  autoIncrement : bool
}.

(** [columns] is a [Map]: its keys come in the order in which they were
    first set. *)
Record Schema : Type := mkSchema {
  tableName : string;
  columns : list (string * ColumnOptions);
  schemaPrimaryKey : string
}.

Definition empty_schema : Schema := mkSchema "" [] "".

(** [schemaRegistry], keyed by the model's constructor, which its name
    stands for. *)
Definition Registry : Type := gmap string Schema.

(** [Map.prototype.set]: a key already there keeps its place. *)
Fixpoint map_set (k : string) (v : ColumnOptions)
    (l : list (string * ColumnOptions)) : list (string * ColumnOptions) :=
  match l with
  | [] => [(k, v)]
  | (k', v') :: l' =>
      if String.eqb k' k then (k, v) :: l' else (k', v') :: map_set k v l'
  end.

(** [Map.prototype.get] *)
Definition map_get (k : string) (l : list (string * ColumnOptions))
  : option ColumnOptions :=
  snd <$> List.find (fun kv => String.eqb (fst kv) k) l.

(** The decorator [@Table(tableName)] on the class [ctor]. *)
Definition Table (tableName' ctor : string) (reg : Registry) : Registry :=
  let schema := default empty_schema (reg !! ctor) in
  <[ctor := mkSchema tableName' (columns schema) (schemaPrimaryKey schema)]> reg.

(** The decorator [@Column(options)] on the property [propertyKey] of
    the class [ctor]. *)
Definition Column (options : ColumnOptions) (ctor propertyKey : string)
    (reg : Registry) : Registry :=
  let schema := default empty_schema (reg !! ctor) in
  <[ctor := mkSchema (tableName schema)
              (map_set propertyKey options (columns schema))
              (if primaryKey options then propertyKey
               else schemaPrimaryKey schema)]> reg.

(** An instance of a model: its own properties, [_isNew] among them. *)
Definition Instance : Type := gmap string value.

(** [this[key]], for a key that is not the name of a method of
    [BaseModel] or of [Object.prototype]: a property the instance does not
    have reads as [undefined]. *)
Definition prop (this : Instance) (key : string) : value :=
  default VUndefined (this !! key).

(** [new Model(data)]: the field [_isNew] is initialised first; the
    properties that the model declares without a value are not
    created. *)
Definition new_instance (data : option Instance) : Instance :=
  match data with
  | None => {[ "_isNew" := VBool true ]}
  | Some d => <["_isNew" := VBool false]> (d ∪ {[ "_isNew" := VBool true ]})
  end.

Inductive orm_error : Type :=
| NotRegistered            (* no schema for the model *)
| NoDatabase               (* [useDatabase] was not called *)
| NotSaved                 (* [delete] before [save], or without a key *)
| InvalidTime              (* [toISOString] of an invalid date *)
| Driver (msg : string).   (* thrown by the database driver *)

(** [convertValue] *)
Definition convertValue (val : value) : result orm_error value :=
  match val with
  | VBool b => Ok (VNum (of_Z (if b then 1 else 0)))
  | VDate (Some iso) => Ok (VStr iso)
  | VDate None => Throw InvalidTime
  | _ => Ok val
  end.

Fixpoint mapM {A B} (f : A -> result orm_error B) (l : list A)
  : result orm_error (list B) :=
  match l with
  | [] => Ok []
  | x :: l' => do y <- f x; do ys <- mapM f l'; Ok (y :: ys)
  end.

(** A statement handed to the driver: [db.prepare(sql).run(...params)]. *)
Record Statement : Type := mkStatement {
  sql : string;
  params : list value
}.

(** [allColumnNames.filter(...)] of [save]: the primary key is left out
    of an insertion when it is generated and the instance has none. *)
Definition insertColumnNames (schema : Schema) (this : Instance)
  : list string :=
  List.filter
    (fun c =>
       negb (String.eqb c (schemaPrimaryKey schema)
             && match map_get c (columns schema) with
                | Some col => autoIncrement col && nullish (prop this c)
                | None => false
                end))
    (map fst (columns schema)).

Definition otherColumnNames (schema : Schema) : list string :=
  List.filter (fun c => negb (String.eqb c (schemaPrimaryKey schema)))
              (map fst (columns schema)).

Definition insert_sql (schema : Schema) (names : list string) : string :=
  "INSERT INTO " +:+ tableName schema +:+ " (" +:+ Js.join ", " names
  +:+ ") VALUES (" +:+ Js.join ", " (map (fun _ => "?") names) +:+ ")".

Definition update_sql (schema : Schema) : string :=
  "UPDATE " +:+ tableName schema +:+ " SET "
  +:+ Js.join ", " (map (fun c => c +:+ " = ?") (otherColumnNames schema))
  +:+ " WHERE " +:+ schemaPrimaryKey schema +:+ " = ?".

Definition delete_sql (schema : Schema) : string :=
  "DELETE FROM " +:+ tableName schema +:+ " WHERE "
  +:+ schemaPrimaryKey schema +:+ " = ?".

(** The generated key is written back after an insertion. *)
Definition generated_key (schema : Schema) (this : Instance) : bool :=
  negb (Js.empty (schemaPrimaryKey schema))
  && match map_get (schemaPrimaryKey schema) (columns schema) with
     | Some col => autoIncrement col
     | None => false
     end
  && nullish (prop this (schemaPrimaryKey schema)).

(** [save()]. [db] tells whether the model has a database; [run] is what
    the driver does with the statement: it returns [lastInsertRowid], or
    throws. The result is the instance afterwards and the statement
    handed to the driver, if the method got that far. *)
Definition save (reg : Registry) (db : bool) (ctor : string)
    (run : Statement -> result orm_error value) (this : Instance)
  : result orm_error unit * Instance * option Statement :=
  match reg !! ctor with
  | None => (Throw NotRegistered, this, None)
  | Some schema =>
      if negb db then (Throw NoDatabase, this, None)
      else if truthy (prop this "_isNew") then
        let names := insertColumnNames schema this in
        match mapM (fun key => convertValue (prop this key)) names with
        | Throw e => (Throw e, this, None)
        | Ok values =>
            let stmt := mkStatement (insert_sql schema names) values in
            match run stmt with
            | Throw e => (Throw e, this, Some stmt)
            | Ok lastInsertRowid =>
                let this1 :=
                  if generated_key schema this
                  then <[schemaPrimaryKey schema := lastInsertRowid]> this
                  else this in
                let this2 := <["_isNew" := VBool false]> this1 in
                (Ok tt, this2, Some stmt)
            end
        end
      else
        match mapM (fun key => convertValue (prop this key))
                   (otherColumnNames schema) with
        | Throw e => (Throw e, this, None)
        | Ok updateValues =>
            let stmt :=
              mkStatement (update_sql schema)
                (updateValues ++ [prop this (schemaPrimaryKey schema)]) in
            match run stmt with
            | Throw e => (Throw e, this, Some stmt)
            | Ok _ => (Ok tt, this, Some stmt)
            end
        end
  end.

(** [delete()] on an instance. *)
Definition delete (reg : Registry) (db : bool) (ctor : string)
    (run : Statement -> result orm_error value) (this : Instance)
  : result orm_error unit * option Statement :=
  match reg !! ctor with
  | None => (Throw NotRegistered, None)
  | Some schema =>
      if negb db then (Throw NoDatabase, None)
      else
        let pkValue := prop this (schemaPrimaryKey schema) in
        if truthy (prop this "_isNew") || negb (truthy pkValue)
        then (Throw NotSaved, None)
        else
          let stmt := mkStatement (delete_sql schema) [pkValue] in
          match run stmt with
          | Throw e => (Throw e, Some stmt)
          | Ok _ => (Ok tt, Some stmt)
          end
  end.

(** [Model.create(data)]: a fresh instance takes the data, then is
    saved. *)
Definition create (reg : Registry) (db : bool) (ctor : string)
    (run : Statement -> result orm_error value) (data : Instance)
  : result orm_error unit * Instance * option Statement :=
  save reg db ctor run (data ∪ new_instance None).

(** [createTableForModel]: the statement executed, if the model has a
    schema. *)
Definition column_definition (c : string * ColumnOptions) : string :=
  c.1 +:+ " " +:+ type c.2
  +:+ (if primaryKey c.2 then " PRIMARY KEY" else "")
  +:+ (if autoIncrement c.2 then " AUTOINCREMENT" else "").

Definition createTableForModel (reg : Registry) (ctor : string)
  : option string :=
  match reg !! ctor with
  | None => None
  | Some schema =>
      Some ("CREATE TABLE IF NOT EXISTS " +:+ tableName schema +:+ " ("
            +:+ Js.join ", " (map column_definition (columns schema))
            +:+ ")")
  end.

(** The number of question marks of a statement. *)
Definition question : ascii := Js.chr 63.

Fixpoint count_questions (s : string) : nat :=
  match s with
  | EmptyString => 0
  | String c s' =>
      if Ascii.eqb c question then S (count_questions s')
      else count_questions s'
  end.

(** the names of a schema hold no question mark *)
Definition plain_names (schema : Schema) : Prop :=
  count_questions (tableName schema) = 0%nat /\
  count_questions (schemaPrimaryKey schema) = 0%nat /\
  Forall (fun c => count_questions c.1 = 0%nat) (columns schema).

(** [ServerModel], as its decorators register it: the properties first,
    the class last. *)
Definition ServerModel : Registry :=
  Table "servers" "ServerModel"
    (Column (mkColumn "TEXT" false false) "ServerModel" "serverId"
       (Column (mkColumn "INTEGER" true true) "ServerModel" "id" ∅)).

(** A driver that accepts every statement and numbers the row 7. *)
Definition accepting (_ : Statement) : result orm_error value :=
  Ok (VNum (of_Z 7)).

End Orm.

(** ** The configuration script *)

Module Configure.
Import Value.

Definition equals : ascii := Js.chr 61.
Definition hyphen : ascii := Js.chr 45.

(** [.] of a regular expression: any character but a line terminator *)
Definition no_line_terminator (s : string) : bool :=
  Js.all_chars (fun c => negb (Logs.is_lf c) && negb (Logs.is_cr c)) s.

(** The match of an argument against the pattern of [parseArgs]: two
    hyphens, a key of one character or more without an equals sign, an
    equals sign, and a value without a line terminator. *)
Definition match_arg (a : string) : option (string * string) :=
  match a with
  | String c1 (String c2 r) =>
      if Ascii.eqb c1 hyphen && Ascii.eqb c2 hyphen then
        let key := (Text.span (fun c => negb (Ascii.eqb c equals)) r).1 in
        match (Text.span (fun c => negb (Ascii.eqb c equals)) r).2 with
        | String _ value =>
            if negb (Js.empty key) && no_line_terminator value
            then Some (key, value) else None
        | EmptyString => None
        end
      else None
  | _ => None
  end.

Record Args : Type := mkArgs {
  remote : string;
  uuid : string;
  token : string;
  port : option number;
  sftp : option number;
  path : option string;
  help : bool;
  ssl : option bool;
  cert : option string;
  key : option string
}.

Definition no_args : Args :=
  mkArgs "" "" "" None None None false None None None.

(** [/^(1|true|yes)$/i.test(value)] *)
Definition is_yes (value : string) : bool :=
  let v := Js.toLowerCase value in
  String.eqb v "1" || String.eqb v "true" || String.eqb v "yes".

(** One turn of the loop of [parseArgs]. [Number] is the conversion of
    a string to a number. *)
Definition parse_one (Number : string -> number) (args : Args) (a : string)
  : Args :=
  if String.eqb a "--help" || String.eqb a "-h" then
    mkArgs (remote args) (uuid args) (token args) (port args) (sftp args)
           (path args) true (ssl args) (cert args) (key args)
  else
    match match_arg a with
    | None => args
    | Some (k, value) =>
        if String.eqb k "remote" then
          mkArgs value (uuid args) (token args) (port args) (sftp args)
                 (path args) (help args) (ssl args) (cert args) (key args)
        else if String.eqb k "uuid" then
          mkArgs (remote args) value (token args) (port args) (sftp args)
                 (path args) (help args) (ssl args) (cert args) (key args)
        else if String.eqb k "token" then
          mkArgs (remote args) (uuid args) value (port args) (sftp args)
                 (path args) (help args) (ssl args) (cert args) (key args)
        else if String.eqb k "port" then
          mkArgs (remote args) (uuid args) (token args)
                 (Some (Number value)) (sftp args)
                 (path args) (help args) (ssl args) (cert args) (key args)
        else if String.eqb k "sftp" then
          mkArgs (remote args) (uuid args) (token args) (port args)
                 (Some (Number value))
                 (path args) (help args) (ssl args) (cert args) (key args)
        else if String.eqb k "path" then
          mkArgs (remote args) (uuid args) (token args) (port args)
                 (sftp args) (Some value) (help args) (ssl args)
                 (cert args) (key args)
        else if String.eqb k "ssl" then
          mkArgs (remote args) (uuid args) (token args) (port args)
                 (sftp args) (path args) (help args) (Some (is_yes value))
                 (cert args) (key args)
        else if String.eqb k "cert" then
          mkArgs (remote args) (uuid args) (token args) (port args)
                 (sftp args) (path args) (help args) (ssl args)
                 (Some value) (key args)
        else if String.eqb k "key" then
          mkArgs (remote args) (uuid args) (token args) (port args)
                 (sftp args) (path args) (help args) (ssl args)
                 (cert args) (Some value)
        else args
    end.

(** [parseArgs(argv)]: the first two entries of [argv] are passed
    over. *)
Definition parseArgs (Number : string -> number) (argv : list string)
  : Args :=
  fold_left (parse_one Number) (skipn 2 argv) no_args.

(** What [fetchRemote] returns: the fields of the answer that have the
    expected type; nothing when the request fails. *)
Record Fetched : Type := mkFetched {
  fetched_port : option number;
  fetched_sftp : option number;
  fetched_ssl : option bool
}.

(** [!args.port] *)
Definition missing (n : option number) : bool :=
  match n with
  | None => true
  | Some x => negb (truthy_number x)
  end.

(** [s.replace(/\/$/, '')] *)
Fixpoint drop_final_slash (s : string) : string :=
  match s with
  | EmptyString => EmptyString
  | String c EmptyString => if Js.is_slash c then EmptyString else s
  | String c s' => String c (drop_final_slash s')
  end.

(** The fields of [config.json] that are kept when it is written
    again. What [JSON.parse] returns holds no date. *)
Record Existing : Type := mkExisting {
  existing_path : value;
  existing_certPath : value;
  existing_keyPath : value
}.

(** [JSON.stringify] of a number: one that is not finite is written as
    [null]. *)
Definition json_number (n : number) : value :=
  match n with
  | Finite _ _ => VNum n
  | NaN | Infinity _ => VNull
  end.

(** [JSON.stringify] of a field that is a string given on the command
    line or a value read from the file. *)
Definition json (v : value) : value :=
  match v with
  | VNum n => json_number n
  | _ => v
  end.

(** The document that is written to [config.json]. *)
Record Config : Type := mkConfig {
  config_uuid : string;
  config_port : value;
  config_sftp : value;
  config_remote : string;
  config_token : string;
  config_path : value;
  config_ssl : bool;
  config_certPath : value;
  config_keyPath : value
}.

Inductive outcome : Type :=
| Exit (code : nat)                         (* process.exit *)
| Wrote (config : Config) (asked : bool).   (* [asked]: fetchRemote ran *)

Definition of_option (s : option string) : value :=
  match s with
  | Some x => VStr x
  | None => VUndefined
  end.

(** [given || existing.field || fallback]. [existing] is what the
    configuration file holds: [None] when it holds [null], of which no
    field can be read; the field is read only when [given] is falsy.
    [None] stands for the TypeError. *)
Definition pick (given : option string) (existing : option Existing)
    (field : Existing -> value) (fallback : string) : option value :=
  if truthy (of_option given) then Some (of_option given)
  else
    match existing with
    | None => None
    | Some e => Some (or_else (field e) (VStr fallback))
    end.

(** The ports the script settles on: the one of the command line, else
    the one of the panel, else the default. *)
Definition chosen (given fetched : option number) (fallback : Z) : number :=
  let n := if missing given && negb (missing fetched) then fetched
           else given in
  if missing n then of_Z fallback else default NaN n.

(** [main], once the arguments are parsed. [fetch] is what
    [fetchRemote(remote, uuid, token)] returns. A configuration file that
    is missing or is not JSON counts as the empty object. What [main]
    throws makes the script exit with code 1. The file is taken to be
    writable. *)
Definition run (args : Args) (fetch : string -> string -> string -> Fetched)
    (existing : option Existing) : outcome :=
  if help args then Exit 0
  else if Js.empty (remote args) || Js.empty (uuid args)
          || Js.empty (token args) then Exit 1
  else
    let asked :=
      missing (port args) || missing (sftp args)
      || match ssl args with None => true | Some _ => false end in
    let fetched :=
      if asked then fetch (remote args) (uuid args) (token args)
      else mkFetched None None None in
    let ssl1 :=
      match ssl args, fetched_ssl fetched with
      | None, Some b => Some b
      | s, _ => s
      end in
    match pick (path args) existing existing_path "/etc/enderd",
          pick (cert args) existing existing_certPath
               "/etc/enderd/certs/cert.pem",
          pick (key args) existing existing_keyPath
               "/etc/enderd/certs/key.pem" with
    | Some path', Some certPath, Some keyPath =>
        Wrote
          (mkConfig (uuid args)
             (json_number (chosen (port args) (fetched_port fetched) 8080))
             (json_number (chosen (sftp args) (fetched_sftp fetched) 2022))
             (drop_final_slash (remote args))
             (token args) (json path') (default false ssl1)
             (json certPath) (json keyPath))
          asked
    | _, _, _ => Exit 1
    end.


(** A scenario: a conversion that reads a few port numbers. *)
Definition sample_Number (s : string) : number :=
  if String.eqb s "8443" then of_Z 8443
  else if String.eqb s "2222" then of_Z 2222
  else if String.eqb s "0" then of_Z 0
  else NaN.

End Configure.

(** ** The console socket *)

Module Console.
Import Instance.

Definition PREFIX_LABEL : string := "container@hightd ~".

Definition esc : ascii := Js.chr 27.
Definition PREFIX_COLOR : string := String esc "[36;1m".
Definition RESET : string := String esc "[0m".

Definition colorForCategory (category : string) : string :=
  if String.eqb category "error" then String esc "[31m"
  else if String.eqb category "pull" then String esc "[36m"
  else if String.eqb category "status" then ""
  else if String.eqb category "command" then ""
  else if String.eqb category "warn" then String esc "[33m"
  else "".

Definition buildColoredLine (category message : string) : string :=
  if String.eqb category "log" || String.eqb category "internal" then message
  else
    let catColor := colorForCategory category in
    let prefixColored := PREFIX_COLOR +:+ PREFIX_LABEL +:+ RESET in
    let msgColored :=
      if negb (Js.empty catColor) then catColor +:+ message +:+ RESET
      else message in
    prefixColored +:+ " " +:+ msgColored.

(** The object that [sendStructured] serialises for the socket. *)
Record Frame : Type := mkFrame {
  prefix : string;
  category : string;
  message : string;
  timestamp : Z;
  line : string
}.

(** [sendStructured(category, message, timestamp)]: nothing is sent for
    the category [internal]; a timestamp that is missing or zero is
    replaced by the time of the call. *)
Definition sendStructured (now : Z) (category message : string)
    (timestamp : option Z) : list Frame :=
  if String.eqb category "internal" then []
  else
    let ts := match timestamp with
              | Some t => if t =? 0 then now else t
              | None => now
              end in
    [mkFrame (if String.eqb category "log" then "" else PREFIX_LABEL)
             category message ts (buildColoredLine category message)].

(** [parseInt(text, 10)], as the integer it denotes: white space, a
    sign, then digits; [None] is NaN. *)
Definition digit_value (c : ascii) : Z :=
  Z.of_nat (Ascii.nat_of_ascii c) - 48.

Fixpoint digits_value (acc : Z) (s : string) : Z :=
  match s with
  | EmptyString => acc
  | String c s' => digits_value (10 * acc + digit_value c) s'
  end.

Definition parseInt (text : option string) : option Z :=
  let s := Js.strip_leading Js.is_ws (default "undefined" text) in
  let '(negative, s1) :=
    match s with
    | String c r =>
        if Ascii.eqb c Configure.hyphen then (true, r)
        else if Ascii.eqb c (Js.chr 43) then (false, r)
        else (false, s)
    | EmptyString => (false, s)
    end in
  let digits := (Text.span Text.is_digit s1).1 in
  if Js.empty digits then None
  else Some (if negative then - digits_value 0 digits
             else digits_value 0 digits).

(** [isNaN(tailReq) ? 200 : Math.min(Math.max(tailReq, 0), 1000)] *)
Definition tail_of (tail : option string) : Z :=
  match parseInt tail with
  | None => 200
  | Some tailReq => Z.min (Z.max tailReq 0) 1000
  end.

(** The query of the request. *)
Record Query : Type := mkQuery {
  serverId : option string;
  userUuid : option string;
  tail : option string
}.

(** What a connection does, in order. *)
Inductive event : Type :=
| Send (frame : Frame)
| Close
| AddLiveListener (server : nat)
| StreamDockerLogs (server : nat) (tail : Z)
| Monitor (server : nat).            (* the timers and handlers are set *)

Definition send (now : Z) (category message : string) : list event :=
  map Send (sendStructured now category message None).

(** The set-up of a connection, up to the first status of the server.
    [hasPermission] is the answer of the helper API, [inspect] what the
    runtime reports to [getStatus], [stream] whether [streamDockerLogs]
    succeeds. What is thrown once the permission is known is caught by
    the handler that closes the socket. *)
Definition connect (q : Query) (hasPermission : string -> string -> bool)
    (inspect : result exn InspectData) (stream : result exn unit) (now : Z)
    (w : Registry.World) : list event * Registry.World :=
  if Js.falsy (serverId q) || Js.falsy (userUuid q) then
    (send now "error" "Parâmetros ausentes" ++ [Close], w)
  else
    match Registry.getServer (default "" (serverId q)) w with
    | None => (send now "error" "Servidor não encontrado" ++ [Close], w)
    | Some server =>
        if negb (hasPermission (default "" (userUuid q))
                               (default "" (serverId q)))
        then (send now "error" "Sem permissão" ++ [Close], w)
        else
          match Registry.on_instance server (getStatus inspect now) w with
          | (Some (Ok running_), w') =>
              let has_container :=
                match Registry.heap w' !! server with
                | Some s => match container s with
                            | Some _ => true
                            | None => false
                            end
                | None => false
                end in
              ([AddLiveListener server]
               ++ (if has_container then
                     StreamDockerLogs server (tail_of (tail q))
                     :: match stream with
                        | Ok _ => []
                        | Throw e =>
                            send now "error"
                              ("Falha ao iniciar stream de logs: "
                               +:+ exn_message e)
                        end
                   else send now "status" "Aguardando container ser criado...")
               ++ [Monitor server], w')
          | (Some (Ok stopped_), w') =>
              ([AddLiveListener server]
               ++ send now "status" "Servidor marcado como desligado"
               ++ [Monitor server], w')
          | (_, w') =>
              ([AddLiveListener server]
               ++ send now "error" "Falha na verificação de permissão"
               ++ [Close], w')
          end
    end.

(** The events of a connection that give the client something of the
    server to see. *)
Definition discloses (server : nat) (e : event) : Prop :=
  e = AddLiveListener server \/ (exists n, e = StreamDockerLogs server n)
  \/ e = Monitor server.

End Console.

(** * Facts about strings *)

#[local] Arguments String.append !s1 s2 : simpl nomatch.
#[local] Arguments String.eqb : simpl never.

Section SplitFacts.
Variable sep : ascii -> bool.

Lemma split_nonempty (s : string) : Js.split sep s <> [].
Proof.
  destruct s as [|c s]; simpl; [discriminate|].
  destruct (sep c); [discriminate|].
  destruct (Js.split sep s); discriminate.
Qed.

Lemma split_cons_nosep (c : ascii) (s : string) :
  sep c = false ->
  exists h t, Js.split sep s = h :: t /\
              Js.split sep (String c s) = String c h :: t.
Proof.
  intros Hc. simpl. rewrite Hc.
  destruct (Js.split sep s) as [|h t] eqn:E.
  - exfalso. exact (split_nonempty s E).
  - exists h, t. split; reflexivity.
Qed.

(** Splitting at a separator splits the list of segments. *)
Lemma split_app_sep (a b : string) (c : ascii) :
  sep c = true ->
  Js.split sep (a +:+ String c b) = Js.split sep a ++ Js.split sep b.
Proof.
  intros Hc. induction a as [|x a IH]; simpl.
  - rewrite Hc. reflexivity.
  - destruct (sep x); [rewrite IH; reflexivity|].
    rewrite IH.
    destruct (Js.split sep a) as [|h t] eqn:E;
      [exfalso; exact (split_nonempty a E)|].
    reflexivity.
Qed.

Lemma split_no_sep (w : string) :
  Js.all_chars (fun c => negb (sep c)) w = true -> Js.split sep w = [w].
Proof.
  induction w as [|c w IH]; simpl; [reflexivity|].
  intros H. apply andb_prop in H as [Hc Hw].
  apply negb_true_iff in Hc. rewrite Hc, (IH Hw). reflexivity.
Qed.

(** Characters that are not separators, appended at the end, only extend
    the last segment. *)
Lemma split_app_no_sep (r w : string) :
  Js.all_chars (fun c => negb (sep c)) w = true ->
  exists l x, Js.split sep r = l ++ [x] /\
              Js.split sep (r +:+ w) = l ++ [x +:+ w].
Proof.
  intros Hw. induction r as [|c r (l & x & E1 & E2)]; simpl.
  - exists [], "". rewrite (split_no_sep w Hw). split; reflexivity.
  - rewrite E1, E2. destruct (sep c).
    + exists ("" :: l), x. split; reflexivity.
    + destruct l as [|h t]; simpl.
      * exists [], (String c x). split; reflexivity.
      * exists (String c h :: t), x. split; reflexivity.
Qed.

Lemma split_segments_no_sep (s x : string) :
  In x (Js.split sep s) -> Js.all_chars (fun c => negb (sep c)) x = true.
Proof.
  revert x. induction s as [|c s IH]; simpl; intros x Hx.
  - destruct Hx as [<-|[]]. reflexivity.
  - destruct (sep c) eqn:Hc.
    + destruct Hx as [<-|Hx]; [reflexivity|auto].
    + destruct (Js.split sep s) as [|h t] eqn:E.
      * destruct Hx as [<-|[]]. simpl. rewrite Hc. reflexivity.
      * destruct Hx as [<-|Hx].
        -- simpl. rewrite Hc. simpl. apply IH. left. reflexivity.
        -- apply IH. right. exact Hx.
Qed.

End SplitFacts.

Lemma ws_not_sep (c : ascii) : Js.is_ws c = true -> Js.is_sep c = false.
Proof. destruct c as [[] [] [] [] [] [] [] []]; vm_compute; congruence. Qed.

Lemma ws_not_dot (c : ascii) : Js.is_ws c = true -> c <> Js.dot.
Proof. destruct c as [[] [] [] [] [] [] [] []]; vm_compute; congruence. Qed.

Lemma all_ws_no_sep (w : string) :
  Js.all_chars Js.is_ws w = true ->
  Js.all_chars (fun c => negb (Js.is_sep c)) w = true.
Proof.
  induction w as [|c w IH]; simpl; [reflexivity|].
  intros H. apply andb_prop in H as [Hc Hw].
  rewrite (ws_not_sep c Hc), (IH Hw). reflexivity.
Qed.

Lemma eqb_dotdot (x : string) : String.eqb ".." x = true <-> x = "..".
Proof. rewrite String.eqb_eq. split; congruence. Qed.

Lemma has_dotdot_In (segs : list string) :
  Sandbox.has_dotdot segs = true <-> In ".." segs.
Proof.
  unfold Sandbox.has_dotdot. rewrite existsb_exists. split.
  - intros (x & Hx & E). apply eqb_dotdot in E. subst x. exact Hx.
  - intros H. exists "..". split; [exact H|reflexivity].
Qed.

(** ** Stripping and trimming keep every [..] segment *)

Lemma dotdot_strip_leading (p : string) :
  In ".." (Js.split Js.is_sep p) ->
  In ".." (Js.split Js.is_sep (Js.strip_leading Js.is_sep p)).
Proof.
  induction p as [|c p IH]; simpl; [tauto|].
  destruct (Js.is_sep c) eqn:Hc; simpl.
  - intros [H|H]; [discriminate|auto].
  - rewrite Hc. tauto.
Qed.

Lemma dotdot_trim_start (s : string) :
  In ".." (Js.split Js.is_sep s) ->
  In ".." (Js.split Js.is_sep (Js.trim_start s)).
Proof.
  unfold Js.trim_start.
  induction s as [|c s IH]; simpl; [tauto|].
  destruct (Js.is_ws c) eqn:Hw.
  - rewrite (ws_not_sep c Hw).
    destruct (Js.split Js.is_sep s) as [|h t] eqn:E.
    + intros [H|[]]. injection H as Hc _. exfalso. exact (ws_not_dot c Hw Hc).
    + intros [H|H].
      * injection H as Hc _. exfalso. exact (ws_not_dot c Hw Hc).
      * apply IH. right. exact H.
  - simpl. tauto.
Qed.

Lemma trim_end_suffix (s : string) :
  exists w, s = Js.trim_end s +:+ w /\ Js.all_chars Js.is_ws w = true.
Proof.
  induction s as [|c s (w & E & Hw)]; simpl.
  - exists "". split; reflexivity.
  - destruct (Js.empty (Js.trim_end s) && Js.is_ws c) eqn:B.
    + apply andb_prop in B as [B1 B2].
      unfold Js.empty in B1. apply String.eqb_eq in B1.
      rewrite B1 in E. simpl in E. subst w.
      exists (String c s). simpl. rewrite B2, Hw. split; reflexivity.
    + exists w. simpl. rewrite <- E. split; [reflexivity|exact Hw].
Qed.

Lemma append_ws_dotdot (x w : string) :
  Js.all_chars Js.is_ws w = true -> x +:+ w = ".." -> x = "..".
Proof.
  intros Hw E.
  assert (Hd : forall c v, Js.all_chars Js.is_ws (String c v) = true ->
                           c <> Js.dot).
  { intros c v H. simpl in H. apply andb_prop in H as [H _].
    exact (ws_not_dot c H). }
  destruct x as [|a [|b [|c x]]]; simpl in E.
  - subst w. exfalso. exact (Hd _ _ Hw eq_refl).
  - injection E as _ E. subst w. exfalso. exact (Hd _ _ Hw eq_refl).
  - injection E as -> -> E. reflexivity.
  - discriminate.
Qed.

Lemma dotdot_app_ws (r w : string) :
  Js.all_chars Js.is_ws w = true ->
  In ".." (Js.split Js.is_sep (r +:+ w)) ->
  In ".." (Js.split Js.is_sep r).
Proof.
  intros Hw.
  destruct (split_app_no_sep Js.is_sep r w (all_ws_no_sep w Hw))
    as (l & x & E1 & E2).
  rewrite E1, E2, !in_app_iff. simpl.
  intros [H|[H|[]]]; [left; exact H|].
  right. left. exact (append_ws_dotdot x w Hw H).
Qed.

Lemma dotdot_trim (s : string) :
  In ".." (Js.split Js.is_sep s) ->
  In ".." (Js.split Js.is_sep (Js.trim s)).
Proof.
  intros H. apply dotdot_trim_start in H. unfold Js.trim.
  destruct (trim_end_suffix (Js.trim_start s)) as (w & E & Hw).
  rewrite E in H. exact (dotdot_app_ws _ w Hw H).
Qed.

(** [sanitizeRelative] rejects every input that has a [..] segment. *)
Lemma sanitizeRelative_rejects_dotdot (p : string) :
  Sandbox.has_dotdot (Js.split Js.is_sep p) = true ->
  Sandbox.sanitizeRelative (Some p) = Throw CaminhoNaoPermitido.
Proof.
  intros H. unfold Sandbox.sanitizeRelative.
  destruct (Js.empty p || String.eqb p "/" || String.eqb p ".") eqn:B.
  - exfalso. apply orb_prop in B as [B|B]; [apply orb_prop in B as [B|B]|];
      apply String.eqb_eq in B; subst p; discriminate H.
  - apply has_dotdot_In in H.
    apply dotdot_strip_leading, dotdot_trim, has_dotdot_In in H.
    rewrite H. reflexivity.
Qed.

(** What [sanitizeRelative] returns has no [..] segment. *)
Lemma split_backslashes_to_slashes (x : string) :
  Js.split Js.is_slash (Js.backslashes_to_slashes x) = Js.split Js.is_sep x.
Proof.
  induction x as [|c x IH]; simpl; [reflexivity|].
  unfold Js.is_sep at 1. destruct (Js.is_backslash c) eqn:Hb.
  - rewrite orb_true_r. change (Js.is_slash Js.slash) with true. simpl.
    rewrite IH. reflexivity.
  - rewrite orb_false_r. rewrite IH. reflexivity.
Qed.

Lemma sanitizeRelative_no_dotdot (p : option string) (rel : string) :
  Sandbox.sanitizeRelative p = Ok rel ->
  Sandbox.has_dotdot (Js.split Js.is_slash rel) = false.
Proof.
  unfold Sandbox.sanitizeRelative. destruct p as [p|].
  - destruct (Js.empty p || String.eqb p "/" || String.eqb p ".").
    + intros [= <-]. reflexivity.
    + destruct (Sandbox.has_dotdot _) eqn:H; [discriminate|].
      intros [= <-]. rewrite split_backslashes_to_slashes. exact H.
  - intros [= <-]. reflexivity.
Qed.

(** * Facts about lexical canonicalization *)

Import Path (keep, good, slash_free, canon_stack).

Lemma norm_step_skip (a : bool) (acc : list string) (x : string) :
  keep x = false -> Path.norm_step a acc x = acc.
Proof.
  unfold keep, Path.norm_step. intros H. apply negb_false_iff in H.
  rewrite H. reflexivity.
Qed.

Lemma norm_step_good (a : bool) (acc : list string) (x : string) :
  good x = true -> Path.norm_step a acc x = x :: acc.
Proof.
  unfold good, keep, Path.norm_step. intros H.
  apply andb_prop in H as [H1 H2].
  apply negb_true_iff in H1, H2. rewrite H1, H2. reflexivity.
Qed.

Lemma good_or_skip_or_dotdot (x : string) :
  good x = true \/ keep x = false \/ x = "..".
Proof.
  unfold good. destruct (keep x); [|tauto].
  destruct (String.eqb x "..") eqn:E; [|tauto].
  apply String.eqb_eq in E. tauto.
Qed.

(** Without [..], normalization is a filter. *)
Lemma fold_norm_no_dotdot (a : bool) (segs acc : list string) :
  Sandbox.has_dotdot segs = false ->
  fold_left (Path.norm_step a) segs acc = rev (List.filter keep segs) ++ acc.
Proof.
  revert acc. induction segs as [|x segs IH]; intros acc H; [reflexivity|].
  simpl in H. apply orb_false_elim in H as [Hx H]. simpl.
  destruct (keep x) eqn:K.
  - rewrite norm_step_good, (IH _ H).
    + simpl. rewrite <- app_assoc. reflexivity.
    + unfold good. rewrite K. simpl. apply negb_true_iff.
      rewrite String.eqb_sym. exact Hx.
  - rewrite (norm_step_skip a acc x K). exact (IH _ H).
Qed.

Lemma canon_stack_nil (a : bool) : canon_stack a [].
Proof. exists [], 0%nat. repeat split. Qed.

Lemma canon_stack_step (a : bool) (acc : list string) (x : string) :
  canon_stack a acc -> canon_stack a (Path.norm_step a acc x).
Proof.
  intros (stk & n & -> & Hg & Ha).
  destruct (good_or_skip_or_dotdot x) as [G|[K| ->]].
  - rewrite (norm_step_good _ _ _ G). exists (x :: stk), n.
    simpl. rewrite G, Hg. auto.
  - rewrite (norm_step_skip _ _ _ K). exists stk, n. auto.
  - destruct stk as [|y stk]; simpl.
    + destruct n as [|n]; simpl.
      * destruct a; [exists [], 1%nat|exists [], 0%nat]; simpl; auto.
        repeat split. discriminate.
      * destruct a; [|specialize (Ha eq_refl); discriminate].
        exists [], (S (S n)). simpl. repeat split. discriminate.
    + simpl in Hg. apply andb_prop in Hg as [Gy Hg].
      unfold Path.norm_step. simpl.
      unfold good in Gy. apply andb_prop in Gy as [_ Gy].
      apply negb_true_iff in Gy. rewrite Gy.
      exists stk, n. auto.
Qed.

Lemma canon_stack_fold (a : bool) (segs acc : list string) :
  canon_stack a acc -> canon_stack a (fold_left (Path.norm_step a) segs acc).
Proof.
  revert acc. induction segs as [|x segs IH]; intros acc H; [exact H|].
  simpl. apply IH, canon_stack_step, H.
Qed.

Lemma fold_norm_dotdots (n : nat) :
  fold_left (Path.norm_step true) (repeat ".." n) [] = repeat ".." n.
Proof.
  assert (H : forall k m, fold_left (Path.norm_step true) (repeat ".." k)
                            (repeat ".." m) = repeat ".." (k + m)).
  { induction k as [|k IH]; intros m; [reflexivity|].
    simpl. replace (Path.norm_step true (repeat ".." m) "..")
      with (repeat ".." (S m)) by (destruct m; reflexivity).
    rewrite IH. replace (k + S m)%nat with (S (k + m)) by lia. reflexivity. }
  specialize (H n 0%nat). simpl in H. rewrite H. f_equal. lia.
Qed.

Lemma good_no_dotdot (stk : list string) :
  forallb good stk = true ->
  Sandbox.has_dotdot stk = false /\ List.filter keep stk = stk.
Proof.
  induction stk as [|x stk IH]; simpl; [auto|].
  intros H. apply andb_prop in H as [G H]. destruct (IH H) as [I1 I2].
  unfold good in G. apply andb_prop in G as [K D].
  apply negb_true_iff in D. rewrite String.eqb_sym in D.
  rewrite D, K, I1, I2. auto.
Qed.

Lemma forallb_rev {A} (f : A -> bool) (l : list A) :
  forallb f (rev l) = forallb f l.
Proof.
  induction l as [|x l IH]; [reflexivity|].
  simpl. rewrite forallb_app, IH. simpl. rewrite andb_true_r, andb_comm.
  reflexivity.
Qed.

Lemma rev_repeat_dotdot (n : nat) : rev (repeat ".." n) = repeat ".." n.
Proof.
  induction n as [|n IH]; [reflexivity|].
  simpl. rewrite IH. symmetry. apply repeat_cons.
Qed.

(** Normalizing what normalization produced changes nothing. *)
Lemma norm_segments_canon (a : bool) (acc : list string) :
  canon_stack a acc -> Path.norm_segments a (rev acc) = rev acc.
Proof.
  intros (stk & n & -> & Hg & Ha). unfold Path.norm_segments. f_equal.
  rewrite rev_app_distr, rev_repeat_dotdot, fold_left_app.
  assert (E : fold_left (Path.norm_step a) (repeat ".." n) []
              = repeat ".." n).
  { destruct a; [apply fold_norm_dotdots|].
    rewrite (Ha eq_refl). reflexivity. }
  rewrite E.
  rewrite <- (forallb_rev good) in Hg.
  destruct (good_no_dotdot _ Hg) as [H1 H2].
  rewrite (fold_norm_no_dotdot a _ _ H1), H2, rev_involutive. reflexivity.
Qed.

Lemma norm_segments_idem (a : bool) (segs : list string) :
  Path.norm_segments a (Path.norm_segments a segs) = Path.norm_segments a segs.
Proof.
  unfold Path.norm_segments at 2 3.
  apply norm_segments_canon, canon_stack_fold, canon_stack_nil.
Qed.

(** Every kept segment is a segment of the input, or [..]. *)
Lemma fold_norm_Forall (P : string -> Prop) (a : bool) (segs acc : list string) :
  P ".." -> Forall P acc -> Forall P segs ->
  Forall P (fold_left (Path.norm_step a) segs acc).
Proof.
  intros Hd. revert acc. induction segs as [|x segs IH]; intros acc Ha Hs;
    [exact Ha|].
  inversion Hs as [|? ? Px Hs']; subst. simpl. apply IH; [|exact Hs'].
  unfold Path.norm_step.
  destruct (Js.empty x || String.eqb x "."); [exact Ha|].
  destruct (String.eqb x "..").
  - destruct acc as [|top rest].
    + destruct a; [repeat constructor; exact Hd|constructor].
    + inversion Ha; subst.
      destruct (String.eqb top ".."); [|assumption].
      destruct a; [constructor; [exact Hd|exact Ha]|exact Ha].
  - constructor; assumption.
Qed.

Lemma norm_segments_slash_free (a : bool) (s : string) :
  Forall (fun x => slash_free x = true)
         (Path.norm_segments a (Js.split Js.is_slash s)).
Proof.
  unfold Path.norm_segments. apply Forall_rev.
  apply fold_norm_Forall; [reflexivity|constructor|].
  apply Forall_forall. intros x Hx.
  apply list_elem_of_In in Hx.
  exact (split_segments_no_sep Js.is_slash s x Hx).
Qed.

Lemma norm_segments_nonempty (a : bool) (segs : list string) :
  Forall (fun x => x <> "") (Path.norm_segments a segs).
Proof.
  unfold Path.norm_segments. apply Forall_rev.
  destruct (canon_stack_fold a segs [] (canon_stack_nil a))
    as (stk & n & -> & Hg & _).
  apply Forall_app. split.
  - apply Forall_forall. intros x Hx. apply list_elem_of_In in Hx.
    rewrite forallb_forall in Hg. specialize (Hg x Hx).
    intros ->. discriminate Hg.
  - apply Forall_forall. intros x Hx. apply list_elem_of_In in Hx.
    apply repeat_spec in Hx. subst x. discriminate.
Qed.

(** ** Joining and splitting *)



Lemma join_cons (x y : string) (l : list string) :
  Js.join "/" (x :: y :: l) = x +:+ String Js.slash (Js.join "/" (y :: l)).
Proof. reflexivity. Qed.

Lemma append_empty_r (a : string) : a +:+ "" = a.
Proof. induction a as [|x a IH]; simpl; [reflexivity|rewrite IH; reflexivity]. Qed.



Lemma split_join (L : list string) :
  L <> [] -> Forall (fun x => slash_free x = true) L ->
  Js.split Js.is_slash (Js.join "/" L) = L.
Proof.
  induction L as [|x L IH]; [congruence|]. intros _ H.
  inversion H as [|? ? Hx HL]; subst.
  destruct L as [|y L].
  - simpl. apply split_no_sep. exact Hx.
  - rewrite join_cons, split_app_sep by reflexivity.
    rewrite (split_no_sep _ _ Hx), IH by (congruence || assumption).
    reflexivity.
Qed.

Lemma join_eq_empty (L : list string) :
  Forall (fun x => x <> "") L -> Js.join "/" L = "" -> L = [].
Proof.
  destruct L as [|x [|y L]]; [reflexivity| |]; intros H E; exfalso;
    inversion H as [|? ? Hx _]; subst.
  - apply Hx. exact E.
  - rewrite join_cons in E. destruct x; [apply Hx; reflexivity|discriminate].
Qed.

Lemma isAbsolute_cons (c : ascii) (s : string) :
  Path.isAbsolute (String c s) = Js.is_slash c.
Proof.
  unfold Path.isAbsolute, Js.is_slash. simpl. apply andb_true_r.
Qed.

Lemma isAbsolute_join (h : string) (t : list string) (w : string) :
  h <> "" -> slash_free h = true ->
  Path.isAbsolute (Js.join "/" (h :: t) +:+ w) = false.
Proof.
  intros Hh Hs. destruct h as [|c h]; [congruence|].
  simpl in Hs. apply andb_prop in Hs as [Hc _]. apply negb_true_iff in Hc.
  destruct t; simpl; rewrite isAbsolute_cons; exact Hc.
Qed.

Lemma empty_false (x : string) : x <> "" -> Js.empty x = false.
Proof. intros H. apply String.eqb_neq. exact H. Qed.

Lemma empty_true (x : string) : Js.empty x = true -> x = "".
Proof. apply String.eqb_eq. Qed.

Lemma isAbsolute_nonempty (x : string) : Path.isAbsolute x = true -> x <> "".
Proof. intros H ->. discriminate H. Qed.

(** ** [normalize] keeps the canonical segments *)

Lemma norm_segments_skip_first (a : bool) (x : string) (segs : list string) :
  keep x = false ->
  Path.norm_segments a (x :: segs) = Path.norm_segments a segs.
Proof.
  intros K. unfold Path.norm_segments. simpl.
  rewrite (norm_step_skip a [] x K). reflexivity.
Qed.

Lemma norm_segments_skip_last (a : bool) (x : string) (segs : list string) :
  keep x = false ->
  Path.norm_segments a (segs ++ [x]) = Path.norm_segments a segs.
Proof.
  intros K. unfold Path.norm_segments. rewrite fold_left_app. simpl.
  rewrite (norm_step_skip a _ x K). reflexivity.
Qed.

Lemma normalize_cases (x : string) :
  x <> "" ->
  let a := negb (Path.isAbsolute x) in
  let L := Path.norm_segments a (Js.split Js.is_slash x) in
  (L = [] /\ (Path.normalize x = "/" /\ a = false \/
              Path.normalize x = "./" /\ a = true \/
              Path.normalize x = "." /\ a = true)) \/
  (exists h t w, L = h :: t /\ (w = "" \/ w = "/") /\
     (Path.normalize x = Js.join "/" L +:+ w /\ a = true \/
      Path.normalize x = String Js.slash (Js.join "/" L +:+ w) /\ a = false)).
Proof.
  intros Hx a L. unfold Path.normalize. rewrite (empty_false x Hx).
  unfold Path.normalizeString. fold a. fold L.
  pose proof (norm_segments_nonempty a (Js.split Js.is_slash x)) as Hne.
  fold L in Hne.
  destruct (Js.empty (Js.join "/" L)) eqn:E.
  - left. apply empty_true in E. split; [exact (join_eq_empty L Hne E)|].
    subst a. destruct (Path.isAbsolute x); simpl; [tauto|].
    destruct (Js.endsWith x "/"); tauto.
  - right. destruct L as [|h t] eqn:EL; [discriminate E|].
    exists h, t, (if Js.endsWith x "/" then "/" else "").
    split; [reflexivity|]. split; [destruct (Js.endsWith x "/"); tauto|].
    subst a. destruct (Path.isAbsolute x); simpl.
    + right. split; [|reflexivity].
      destruct (Js.endsWith x "/"); simpl; [reflexivity|].
      rewrite append_empty_r. reflexivity.
    + left. split; [|reflexivity].
      destruct (Js.endsWith x "/"); simpl; [reflexivity|].
      rewrite append_empty_r. reflexivity.
Qed.

Lemma split_cons_slash (s : string) :
  Js.split Js.is_slash (String Js.slash s) = "" :: Js.split Js.is_slash s.
Proof. reflexivity. Qed.

Lemma split_join_tail (L : list string) (w : string) :
  L <> [] -> Forall (fun x => slash_free x = true) L ->
  w = "" \/ w = "/" ->
  Js.split Js.is_slash (Js.join "/" L +:+ w) = L \/
  Js.split Js.is_slash (Js.join "/" L +:+ w) = L ++ [""].
Proof.
  intros HL HF [->| ->].
  - left. rewrite append_empty_r. exact (split_join L HL HF).
  - right.
    rewrite (split_app_sep Js.is_slash (Js.join "/" L) "" "/"%char eq_refl).
    rewrite (split_join L HL HF). reflexivity.
Qed.

Lemma normalize_isAbsolute (x : string) :
  Path.isAbsolute (Path.normalize x) = Path.isAbsolute x.
Proof.
  destruct (String.eqb_spec x "") as [->|Hx]; [reflexivity|].
  pose proof (norm_segments_nonempty (negb (Path.isAbsolute x))
                (Js.split Js.is_slash x)) as Hne.
  pose proof (norm_segments_slash_free (negb (Path.isAbsolute x)) x) as Hsf.
  destruct (normalize_cases x Hx)
    as [[_ [[-> A]|[[-> A]|[-> A]]]]|(h & t & w & EL & _ & [[-> A]|[-> A]])];
    destruct (Path.isAbsolute x); try discriminate A; try reflexivity.
  rewrite EL in *. inversion Hne; inversion Hsf; subst.
  apply isAbsolute_join; assumption.
Qed.

Lemma normalize_nonempty (x : string) : Path.normalize x <> "".
Proof.
  destruct (String.eqb_spec x "") as [->|Hx]; [discriminate|].
  pose proof (norm_segments_nonempty (negb (Path.isAbsolute x))
                (Js.split Js.is_slash x)) as Hne.
  destruct (normalize_cases x Hx)
    as [[_ [[-> A]|[[-> A]|[-> A]]]]|(h & t & w & EL & _ & [[-> A]|[-> A]])];
    try discriminate.
  rewrite EL in *. inversion Hne; subst.
  destruct h; [congruence|]. destruct t; discriminate.
Qed.

(** Canonicalization sees through [normalize]. *)
Lemma canonical_normalize (x : string) :
  Sandbox.canonical (Path.normalize x) = Sandbox.canonical x.
Proof.
  destruct (String.eqb_spec x "") as [->|Hx]; [reflexivity|].
  unfold Sandbox.canonical. rewrite normalize_isAbsolute.
  pose proof (norm_segments_slash_free (negb (Path.isAbsolute x)) x) as Hsf.
  pose proof (norm_segments_idem (negb (Path.isAbsolute x))
                (Js.split Js.is_slash x)) as Hid.
  destruct (normalize_cases x Hx)
    as [[EL [[-> A]|[[-> A]|[-> A]]]]|(h & t & w & EL & Hw & [[-> A]|[-> A]])];
    rewrite A in *; rewrite EL in *; try reflexivity.
  - destruct (split_join_tail (h :: t) w ltac:(discriminate) Hsf Hw) as [E|E];
      rewrite E; [exact Hid|].
    rewrite norm_segments_skip_last by reflexivity. exact Hid.
  - rewrite split_cons_slash.
    rewrite norm_segments_skip_first by reflexivity.
    destruct (split_join_tail (h :: t) w ltac:(discriminate) Hsf Hw) as [E|E];
      rewrite E; [exact Hid|].
    rewrite norm_segments_skip_last by reflexivity. exact Hid.
Qed.

Lemma list_prefixb_app (L F : list string) :
  Sandbox.list_prefixb L (L ++ F) = true.
Proof.
  induction L as [|x L IH]; [reflexivity|].
  simpl. rewrite String.eqb_refl. exact IH.
Qed.


(** Appending a path without [..] below [root] appends its kept segments. *)
Lemma canonical_append (root q : string) :
  root <> "" ->
  Sandbox.has_dotdot (Js.split Js.is_slash q) = false ->
  Sandbox.canonical (root +:+ String Js.slash q)
  = Sandbox.canonical root ++ List.filter keep (Js.split Js.is_slash q).
Proof.
  intros Hr Hq. unfold Sandbox.canonical.
  assert (A : Path.isAbsolute (root +:+ String Js.slash q)
              = Path.isAbsolute root).
  { destruct root; [congruence|]. simpl. rewrite !isAbsolute_cons. reflexivity. }
  rewrite A, split_app_sep by reflexivity.
  unfold Path.norm_segments. rewrite fold_left_app.
  rewrite (fold_norm_no_dotdot _ _ _ Hq), rev_app_distr, rev_involutive.
  reflexivity.
Qed.

Lemma join_two (root q : string) :
  root <> "" ->
  Path.join [root; q]
  = if Js.empty q then Path.normalize root
    else Path.normalize (root +:+ String Js.slash q).
Proof.
  intros Hr. unfold Path.join. simpl. rewrite (empty_false root Hr). simpl.
  destruct (Js.empty q); reflexivity.
Qed.

Lemma canonical_join (root q : string) :
  root <> "" ->
  Sandbox.has_dotdot (Js.split Js.is_slash q) = false ->
  Sandbox.canonical (Path.join [root; q])
  = Sandbox.canonical root ++ List.filter keep (Js.split Js.is_slash q).
Proof.
  intros Hr Hq. rewrite (join_two root q Hr).
  destruct (Js.empty q) eqn:E; rewrite canonical_normalize.
  - apply empty_true in E. subst q. simpl. rewrite app_nil_r. reflexivity.
  - exact (canonical_append root q Hr Hq).
Qed.

(** * The sandbox resolvers *)

Lemma split_slash_free (s : string) :
  Forall (fun x => slash_free x = true) (Js.split Js.is_slash s).
Proof.
  apply Forall_forall. intros x Hx. apply list_elem_of_In in Hx.
  exact (split_segments_no_sep Js.is_slash s x Hx).
Qed.

Lemma norm_segments_Forall_slash_free (a : bool) (segs : list string) :
  Forall (fun x => slash_free x = true) segs ->
  Forall (fun x => slash_free x = true) (Path.norm_segments a segs).
Proof.
  intros H. unfold Path.norm_segments. apply Forall_rev.
  apply fold_norm_Forall; [reflexivity|constructor|exact H].
Qed.

(** An absolute path rebuilt from normalized segments has those segments. *)
Lemma canonical_abs_norm (segs : list string) :
  Forall (fun x => slash_free x = true) segs ->
  Sandbox.canonical (String Js.slash (Js.join "/" (Path.norm_segments false segs)))
  = Path.norm_segments false segs.
Proof.
  intros H. unfold Sandbox.canonical. rewrite isAbsolute_cons.
  change (negb (Js.is_slash Js.slash)) with false.
  rewrite split_cons_slash, norm_segments_skip_first by reflexivity.
  destruct (Path.norm_segments false segs) as [|h t] eqn:E; [reflexivity|].
  rewrite split_join; [| discriminate |].
  - rewrite <- E. apply norm_segments_idem.
  - rewrite <- E. apply norm_segments_Forall_slash_free, H.
Qed.

Lemma norm_segments_app_no_dotdot (a : bool) (S0 B : list string) :
  Sandbox.has_dotdot B = false ->
  Path.norm_segments a (S0 ++ B)
  = Path.norm_segments a S0 ++ List.filter keep B.
Proof.
  intros H. unfold Path.norm_segments.
  rewrite fold_left_app, (fold_norm_no_dotdot _ _ _ H).
  rewrite rev_app_distr, rev_involutive. reflexivity.
Qed.

Lemma serverBase_nonempty (s : string) : Sandbox.serverBase s <> "".
Proof.
  unfold Sandbox.serverBase. rewrite join_two by discriminate.
  destruct (Js.empty s); apply normalize_nonempty.
Qed.

Lemma serverBase_relative (s : string) :
  Path.isAbsolute (Sandbox.serverBase s) = false.
Proof.
  unfold Sandbox.serverBase. rewrite join_two by discriminate.
  destruct (Js.empty s); rewrite normalize_isAbsolute; reflexivity.
Qed.

(** [path.resolve] below an absolute working directory. *)
Lemma resolve_below (cwd base rel : string) :
  Path.isAbsolute cwd = true -> base <> "" ->
  Path.isAbsolute base = false -> Path.isAbsolute rel = false ->
  Path.resolve cwd [base; rel]
  = String Js.slash
      (Js.join "/" (Path.norm_segments false
         (Js.split Js.is_slash cwd ++ Js.split Js.is_slash base
          ++ Js.split Js.is_slash rel))).
Proof.
  intros Hc Hb Hb' Hr. unfold Path.resolve. simpl rev. simpl app.
  pose proof (empty_false cwd (isAbsolute_nonempty cwd Hc)) as Ec.
  pose proof (empty_false base Hb) as Eb.
  destruct (Js.empty rel) eqn:Er.
  - apply empty_true in Er. subst rel.
    simpl. rewrite Eb, Ec, Hb', Hc. simpl.
    unfold Path.normalizeString.
    rewrite !split_app_sep by reflexivity. reflexivity.
  - simpl. rewrite Er, Eb, Ec, Hr, Hb', Hc. simpl.
    unfold Path.normalizeString.
    rewrite !split_app_sep by reflexivity.
    change (Js.split Js.is_slash "") with [""].
    rewrite !app_assoc, norm_segments_skip_last by reflexivity.
    reflexivity.
Qed.

Lemma resolve_base (cwd base : string) :
  Path.isAbsolute cwd = true -> base <> "" -> Path.isAbsolute base = false ->
  Path.resolve cwd [base]
  = String Js.slash
      (Js.join "/" (Path.norm_segments false
         (Js.split Js.is_slash cwd ++ Js.split Js.is_slash base))).
Proof.
  intros Hc Hb Hb'. unfold Path.resolve. simpl rev. simpl app.
  pose proof (empty_false cwd (isAbsolute_nonempty cwd Hc)) as Ec.
  pose proof (empty_false base Hb) as Eb.
  simpl. rewrite Eb, Ec, Hb', Hc. simpl.
  unfold Path.normalizeString.
  rewrite !split_app_sep by reflexivity.
  change (Js.split Js.is_slash "") with [""].
  rewrite !app_assoc, norm_segments_skip_last by reflexivity.
  reflexivity.
Qed.






(** * The lifecycle of one instance *)

Module InstanceFacts.
Import Instance.

Lemma forM_emit (category : string) (l : list string) (s : Server) :
  forM_ l (emitLive category) s = (Ok tt, s, map (Emit category) l).
Proof.
  induction l as [|x l IH]; [reflexivity|].
  simpl. unfold bindM. simpl. rewrite IH. reflexivity.
Qed.

Lemma writeTemplateFile_run (a : StartAnswers) (name : string) (s : Server) :
  exists t, writeTemplateFile a name s = (Ok tt, s, t).
Proof.
  unfold writeTemplateFile, bindM, try_catch, get, call, emitLive, tell.
  destruct (write_template a name); eexists; reflexivity.
Qed.

Lemma forM_writeTemplateFile (a : StartAnswers) (l : list string) (s : Server) :
  exists t, forM_ l (writeTemplateFile a) s = (Ok tt, s, t).
Proof.
  induction l as [|x l (t & IH)]; [eexists; reflexivity|].
  destruct (writeTemplateFile_run a x s) as (t1 & E).
  simpl. unfold bindM. rewrite E, IH. eexists. reflexivity.
Qed.

(** The bounded wait never changes a field and never throws. *)
Lemma poll_running_run (a : StartAnswers) (n i : nat) (s : Server) :
  exists b t, poll_running a n i s = (Ok b, s, t).
Proof.
  revert i. induction n as [|n IH]; intros i; [eexists _, _; reflexivity|].
  simpl. unfold bindM, get. simpl.
  destruct (container s) as [c|]; [|eexists _, _; reflexivity].
  unfold try_catch, call, bindM, ret.
  destruct (inspect_poll a i) as [d|e]; simpl.
  - destruct (String.eqb (Status d) "running"); simpl.
    + eexists _, _. reflexivity.
    + destruct (IH (S i)) as (b & t & E). rewrite E.
      eexists _, _. reflexivity.
  - destruct (IH (S i)) as (b & t & E). rewrite E.
    eexists _, _. reflexivity.
Qed.

Lemma start_rollback_run (a : StartAnswers) (e : exn) (s : Server) :
  start_rollback a e s
  = (Throw e, reset s,
     Emit "error" ("Falha ao iniciar: " +:+ exn_message e)
     :: match container s with
        | Some c => [RtRemoveForce c]
        | None => []
        end).
Proof.
  unfold start_rollback, bindM, try_catch, get, call, emitLive, tell,
    modify, throw, ret, reset.
  destruct s as [i c r ini st sd ll]; simpl.
  destruct c as [c|]; simpl; [destruct (remove_new a)|]; reflexivity.
Qed.

Lemma start_body_fails (data : StartData) (a : StartAnswers) (e : exn)
    (created : option Container) (s : Server) :
  start_fails a e created -> container s = None ->
  exists t, start_body data a s
            = (Throw e, set_container created s, t).
Proof.
  intros F Hc. unfold start_body, bindM.
  unfold emitLive at 1. unfold tell at 1 2. rewrite forM_emit.
  unfold answer, call, emitLive, tell, modify.
  destruct s as [i c r ini st sd ll]; simpl in *. subst c.
  destruct F as [P|P C|c P C S]; rewrite P; [eexists; reflexivity| |].
  - rewrite C. eexists; reflexivity.
  - rewrite C. simpl. rewrite S. eexists; reflexivity.
Qed.

(** The fields when the [try] block of [start] is entered. *)
Lemma start_prepare_run (data : StartData) (a : StartAnswers) (s : Server) :
  exists t, start_prepare data a s = (Ok tt, prepared s, t).
Proof.
  destruct (forM_writeTemplateFile a (templateNames data) (prepared s))
    as (tw & Ew).
  unfold start_prepare.
  destruct s as [i c r ini st sd ll]. unfold prepared in *. simpl in Ew.
  destruct c as [c|]; [destruct (remove_old a)|];
    unfold bindM, try_catch, get, modify, emitLive, tell, call, ret,
      set_container, set_running, set_startedAt, set_isInitializing;
    simpl; rewrite Ew; eexists; reflexivity.
Qed.

(** What [start] leaves behind when one of the three steps fails. *)
Lemma start_fails_run (data : StartData) (a : StartAnswers) (e : exn)
    (created : option Container) (s : Server) :
  start_fails a e created ->
  exists t1 t2,
    start data a s
    = (Throw e, reset s,
       t1 ++ Emit "error" ("Falha ao iniciar: " +:+ exn_message e)
          :: match created with
             | Some c => [RtRemoveForce c]
             | None => []
             end ++ t2).
Proof.
  intros F.
  destruct (start_prepare_run data a s) as (tp & Ep).
  destruct (start_body_fails data a e created (prepared s) F eq_refl)
    as (tb & Eb).
  unfold start, bindM, try_catch. rewrite Ep, Eb, start_rollback_run.
  exists (tp ++ tb), []. rewrite app_nil_r, <- app_assoc.
  destruct created; reflexivity.
Qed.

(** *** Which operations keep [startedAt] and [running] in step *)

Lemma reset_invariant (s : Server) : startedAt_iff_running (reset s).
Proof. unfold startedAt_iff_running. simpl. split; [congruence|discriminate]. Qed.

Lemma onExit_invariant (s : Server) :
  startedAt_iff_running (onExit s).1.2.
Proof. unfold startedAt_iff_running. simpl. split; [congruence|discriminate]. Qed.

(** [kill] never raises and changes no field. *)
Lemma kill_run (k : result exn unit) (s : Server) :
  exists t, kill k s = (Ok tt, s, t).
Proof.
  unfold kill, bindM, get. simpl.
  destruct (container s); [|eexists; reflexivity].
  unfold try_catch, call, emitLive, tell, ret. simpl.
  destruct k as [[]|]; eexists; reflexivity.
Qed.

Lemma delete_instance_run (k : result exn unit) (s : Server) :
  exists t,
    delete_instance k s
    = (Ok tt, mkServer (id s) None false false None None [], t).
Proof.
  unfold delete_instance, bindM. destruct (kill_run k s) as (t & ->).
  unfold get, tell, modify, ret. destruct s as [i c r ini st sd ll].
  destruct c; simpl; eexists; reflexivity.
Qed.

Lemma delete_instance_invariant (k : result exn unit) (s : Server) :
  startedAt_iff_running (delete_instance k s).1.2.
Proof.
  destruct (delete_instance_run k s) as (t & ->).
  unfold startedAt_iff_running. simpl. split; [congruence|discriminate].
Qed.

(** A [start] that returns leaves the two fields in step; so does one
    that raises. *)
Lemma attachAfterStart_fields (x : result exn Stream) (s : Server) :
  let '(r, s', _) := attachAfterStart x s in
  running s' = running s /\ startedAt s' = startedAt s.
Proof.
  unfold attachAfterStart, bindM, get. simpl.
  destruct (container s); [|simpl; auto].
  unfold call, modify, tell. destruct x; simpl; auto.
Qed.

Lemma start_body_invariant (data : StartData) (a : StartAnswers) (s : Server) :
  running s = false -> startedAt s = None ->
  forall s' t, start_body data a s = (Ok tt, s', t) ->
               startedAt_iff_running s'.
Proof.
  intros Hr Hs s' t. unfold start_body, bindM.
  unfold emitLive at 1. unfold tell at 1 2. rewrite forM_emit.
  unfold answer. destruct (pull_result a); [|discriminate].
  unfold emitLive at 1. unfold tell at 1. unfold call at 1.
  destruct (create_result a) as [c|]; [|discriminate].
  unfold modify at 1. unfold call at 1.
  destruct (start_result a); [|discriminate].
  destruct (poll_running_run a 15 0 (set_container (Some c) s))
    as (b & tp & ->).
  destruct b.
  - unfold modify at 1 2. unfold emitLive, tell.
    pose proof (attachAfterStart_fields (attach_result a)
      (set_startedAt (Some (start_now a))
         (set_running true (set_container (Some c) s)))) as A.
    destruct (attachAfterStart _ _) as [[r s1] t1]. destruct A as [A1 A2].
    destruct r as [[]|]; [|discriminate]. intros [= <- _].
    unfold startedAt_iff_running. rewrite A1, A2. simpl.
    split; [reflexivity|discriminate].
  - unfold emitLive, tell.
    pose proof (attachAfterStart_fields (attach_result a)
                  (set_container (Some c) s)) as A.
    destruct (attachAfterStart _ _) as [[r s1] t1]. destruct A as [A1 A2].
    destruct r as [[]|]; [|discriminate]. intros [= <- _].
    unfold startedAt_iff_running. rewrite A1, A2. simpl. rewrite Hr, Hs.
    split; congruence.
Qed.

Lemma start_invariant (data : StartData) (a : StartAnswers) (s : Server) :
  startedAt_iff_running (start data a s).1.2.
Proof.
  destruct (start_prepare_run data a s) as (tp & Ep).
  unfold start, bindM, try_catch. rewrite Ep.
  pose proof (start_body_invariant data a (prepared s) eq_refl eq_refl) as B.
  destruct (start_body data a (prepared s)) as [[[[]|e] s1] t1].
  - simpl. exact (B s1 t1 eq_refl).
  - rewrite start_rollback_run. simpl. apply reset_invariant.
Qed.

(** [sendCommand] and [stop] touch neither of the two fields. *)
Lemma reattach_fields (x : result exn Stream) (s : Server) :
  exists t s', reattach x s = (Ok tt, s', t) /\
    running s' = running s /\ startedAt s' = startedAt s /\
    container s' = container s.
Proof.
  unfold reattach, bindM, get. simpl.
  destruct (container s) eqn:C; [|eexists _, _; simpl; eauto].
  unfold try_catch, call, bindM, modify, ret.
  destruct x; simpl; eexists _, _; simpl; eauto.
Qed.

Lemma sendCommand_fields (cmd : option string) (x : result exn Stream)
    (y : result exn unit) (s : Server) :
  let '(_, s', _) := sendCommand cmd x y s in
  running s' = running s /\ startedAt s' = startedAt s.
Proof.
  unfold sendCommand. destruct (Js.falsy cmd); [simpl; auto|].
  unfold bindM at 1. unfold get at 1.
  destruct (container s); [|simpl; auto].
  unfold bindM at 1.
  assert (P : exists t s',
             (match stdinStream s with
              | Some _ => ret tt
              | None => reattach x
              end) s = (Ok tt, s', t) /\
             running s' = running s /\ startedAt s' = startedAt s).
  { destruct (stdinStream s).
    - eexists _, _. simpl. eauto.
    - destruct (reattach_fields x s) as (t & s' & E & R1 & R2 & _). eauto. }
  destruct P as (t & s' & -> & R1 & R2).
  unfold bindM, get. destruct (stdinStream s'); [|simpl; auto].
  unfold try_catch, call, throw. destruct y; simpl; auto.
Qed.

Lemma stop_fields (command : option string) (x : result exn Stream)
    (y k : result exn unit) (s : Server) :
  let '(_, s', _) := stop command x y k s in
  running s' = running s /\ startedAt s' = startedAt s.
Proof.
  unfold stop, bindM at 1. unfold get at 1.
  destruct (container s); [|simpl; auto].
  unfold bindM, emitLive, tell, try_catch.
  pose proof (sendCommand_fields command x y s) as S.
  destruct (sendCommand command x y s) as [[r s1] t1]. destruct S as [S1 S2].
  destruct r; [simpl; auto|].
  destruct (kill_run k s1) as (tk & ->). simpl. auto.
Qed.

(** [getStatus] keeps the two fields in step when the runtime reports
    [running] with a start time. *)
Lemma getStatus_running_invariant (d : InspectData) (now : Z) (s : Server)
    (c : Container) :
  container s = Some c -> Status d = "running" -> StartedAt d <> None ->
  startedAt_iff_running s ->
  startedAt_iff_running (getStatus (Ok d) now s).1.2.
Proof.
  intros Hc Hs Hd [I1 I2]. unfold getStatus, bindM at 1. unfold get at 1.
  rewrite Hc. unfold try_catch, bindM at 1. unfold call at 1.
  rewrite Hs. change (String.eqb "running" "running") with true. cbv iota.
  destruct s as [i c' r ini st sd ll]; simpl in *.
  destruct r; simpl.
  - unfold startedAt_iff_running. simpl. tauto.
  - destruct (StartedAt d) as [parsed|]; [|congruence].
    destruct st as [z|]; [exfalso; specialize (I1 ltac:(discriminate));
                          discriminate I1|].
    simpl. unfold startedAt_iff_running. simpl.
    split; [reflexivity|discriminate].
Qed.

(** *** C4 *)

(** C4. When [start] fails during the pull, the creation or the start of
    the container, it raises the error of the failing step, every field is
    reset (no handle, not running, no start time, no stdin), the container
    created by then, if any, has been force-removed, and an instance that
    was stopped before the call is as it was. *)
Theorem C4_start_failure_rolls_back (data : StartData) (a : StartAnswers)
    (e : exn) (created : option Container) (s : Server) :
  start_fails a e created ->
  exists s' t,
    start data a s = (Throw e, s', t) /\
    container s' = None /\ running s' = false /\
    isInitializing s' = false /\ startedAt s' = None /\
    stdinStream s' = None /\
    id s' = id s /\ liveListeners s' = liveListeners s /\
    (forall c, created = Some c -> In (RtRemoveForce c) t) /\
    (stopped_state s -> s' = s).
Proof.
  intros F. destruct (start_fails_run data a e created s F) as (t1 & t2 & E).
  eexists _, _. split; [exact E|]. repeat split.
  - intros c ->. apply in_or_app. right. right. left. reflexivity.
  - intros (H1 & H2 & H3 & H4 & H5). destruct s; simpl in *.
    subst. reflexivity.
Qed.

Lemma C4_start_failure_witness :
  exists s' t,
    start (mkStartData "busybox:latest" ["server.properties"]) failing_pull
          (new_Server "s1")
    = (Throw (Runtime "pull access denied"), s', t) /\
    container s' = None /\ running s' = false /\
    isInitializing s' = false /\ startedAt s' = None /\
    stdinStream s' = None /\
    id s' = "s1" /\ liveListeners s' = [] /\
    (forall c, None = Some c -> In (RtRemoveForce c) t) /\
    (stopped_state (new_Server "s1") -> s' = new_Server "s1").
Proof.
  apply (C4_start_failure_rolls_back
           (mkStartData "busybox:latest" ["server.properties"])
           failing_pull (Runtime "pull access denied") None
           (new_Server "s1")).
  apply pull_fails. reflexivity.
Defined.

(** *** C3 *)

(** C3 fails on the code. An instance adopted at boot is running with a
    start time; once its container has exited, [getStatus] clears
    [running] and leaves [startedAt] as it was. *)
Lemma C3_getStatus_keeps_startedAt :
  startedAt_iff_running adopted /\
  running (getStatus (Ok (mkInspect "exited" (Some (Some 1000)))) 5000
                     adopted).1.2 = false /\
  startedAt (getStatus (Ok (mkInspect "exited" (Some (Some 1000)))) 5000
                       adopted).1.2 = Some 1000 /\
  ~ startedAt_iff_running
      (getStatus (Ok (mkInspect "exited" (Some (Some 1000)))) 5000
                 adopted).1.2.
Proof.
  repeat split; try discriminate.
  intros [H _]. specialize (H ltac:(discriminate)). discriminate H.
Qed.

End InstanceFacts.

(** * The registry *)

Module RegistryFacts.
Import Instance Registry.

Lemma find_app {A} (f : A -> bool) (l1 l2 : list A) :
  List.find f (l1 ++ l2)
  = match List.find f l1 with
    | Some x => Some x
    | None => List.find f l2
    end.
Proof.
  induction l1 as [|x l1 IH]; [reflexivity|].
  simpl. destruct (f x); [reflexivity|exact IH].
Qed.

Lemma find_ext_in {A} (f g : A -> bool) (l : list A) :
  (forall x, In x l -> f x = g x) -> List.find f l = List.find g l.
Proof.
  induction l as [|x l IH]; intros H; [reflexivity|].
  simpl. rewrite (H x (or_introl eq_refl)).
  destruct (g x); [reflexivity|]. apply IH. intros y Hy. apply H. right. exact Hy.
Qed.

Lemma find_none_all {A} (f : A -> bool) (l : list A) :
  (forall x, In x l -> f x = false) -> List.find f l = None.
Proof.
  induction l as [|x l IH]; intros H; [reflexivity|].
  simpl. rewrite (H x (or_introl eq_refl)). apply IH.
  intros y Hy. apply H. right. exact Hy.
Qed.

(** [find] returns the first element that passes the test. *)
Lemma find_first {A} (f : A -> bool) (l : list A) (x : A) :
  List.find f l = Some x ->
  exists l1 l2, l = l1 ++ x :: l2 /\ f x = true /\
                forall y, In y l1 -> f y = false.
Proof.
  induction l as [|y l IH]; [discriminate|].
  simpl. destruct (f y) eqn:E.
  - intros [= <-]. exists [], l. repeat split; [exact E|intros ? []].
  - intros H. destruct (IH H) as (l1 & l2 & -> & Hx & Hl).
    exists (y :: l1), l2. repeat split; [exact Hx|].
    intros z [<-|Hz]; [exact E|exact (Hl z Hz)].
Qed.

Lemma wf_servers (w : World) (a : nat) :
  wf w = true -> In a (servers w) ->
  is_Some (heap w !! a) /\ (a < next w)%nat.
Proof.
  unfold wf. intros H Ha. apply andb_prop in H as [H _].
  rewrite forallb_forall in H. specialize (H a Ha).
  apply andb_prop in H as [H1 H2].
  apply bool_decide_eq_true in H1. apply Nat.ltb_lt in H2. auto.
Qed.

Lemma wf_NoDup (w : World) : wf w = true -> NoDup (servers w).
Proof.
  unfold wf. intros H. apply andb_prop in H as [_ H].
  apply bool_decide_eq_true in H. exact H.
Qed.

Lemma has_id_insert_ne (w : World) (uuid : string) (a b : nat) (s : Server)
    (l : list nat) (n : nat) (d : gset string) (t : list effect) :
  b <> a ->
  has_id (mkWorld (<[a := s]> (heap w)) l n d t) uuid b = has_id w uuid b.
Proof.
  intros H. unfold has_id. simpl. rewrite lookup_insert_ne by congruence.
  reflexivity.
Qed.

Lemma has_id_insert_eq (w : World) (uuid : string) (a : nat) (s : Server)
    (l : list nat) (n : nat) (d : gset string) (t : list effect) :
  has_id (mkWorld (<[a := s]> (heap w)) l n d t) uuid a
  = String.eqb (id s) uuid.
Proof. unfold has_id. simpl. rewrite lookup_insert_eq. reflexivity. Qed.

(** *** create *)

Lemma create_ok (id : string) (w : World) :
  create id (Ok tt) w
  = (Ok tt,
     mkWorld (<[next w := new_Server id]> (heap w)) (servers w ++ [next w])
             (S (next w)) (dirs w ∪ {[sandbox id]})
             (trace w ++ [FsMkdir (sandbox id)])).
Proof. reflexivity. Qed.

Lemma create_wf (id : string) (w : World) :
  wf w = true -> wf (create id (Ok tt) w).2 = true.
Proof.
  intros H. pose proof (wf_NoDup w H) as ND.
  unfold wf. simpl. apply andb_true_intro. split.
  - rewrite forallb_app. apply andb_true_intro. split.
    + apply forallb_forall. intros a Ha.
      destruct (wf_servers w a H Ha) as [[s Hs] Hlt].
      apply andb_true_intro. split.
      * apply bool_decide_eq_true.
        rewrite lookup_insert_ne by lia. eauto.
      * apply Nat.ltb_lt. lia.
    + simpl. rewrite andb_true_r. apply andb_true_intro. split.
      * apply bool_decide_eq_true. rewrite lookup_insert_eq. eauto.
      * apply Nat.ltb_lt. lia.
  - apply bool_decide_eq_true. apply NoDup_app. repeat split.
    + exact ND.
    + intros a Ha Hn. apply list_elem_of_In in Ha.
      apply list_elem_of_singleton in Hn. subst a.
      destruct (wf_servers w _ H Ha) as [_ Hlt]. lia.
    + apply NoDup_singleton.
Qed.

(** After [create id], [getServer id] still answers the instance it
    answered before, if there was one, and the new instance otherwise. *)
Lemma getServer_create (uuid id : string) (w : World) :
  wf w = true ->
  getServer uuid (create id (Ok tt) w).2
  = match getServer uuid w with
    | Some a => Some a
    | None => if String.eqb id uuid then Some (next w) else None
    end.
Proof.
  intros H. unfold getServer. simpl. rewrite find_app.
  rewrite (find_ext_in _ (has_id w uuid)).
  - destruct (List.find (has_id w uuid) (servers w)); [reflexivity|].
    simpl. rewrite has_id_insert_eq. simpl. reflexivity.
  - intros a Ha. apply has_id_insert_ne.
    destruct (wf_servers w a H Ha) as [_ Hlt]. lia.
Qed.

(** *** C10 *)

(** C10. [create(id)] appends a new instance whatever the registry holds:
    after two calls with the same id the registry ends with two instances
    at distinct addresses, both with that id, and [getServer] answers the
    earliest registered instance with the id it is asked for. *)
Theorem C10_create_appends (id : string) (w : World) :
  wf w = true ->
  let w1 := (create id (Ok tt) w).2 in
  let w2 := (create id (Ok tt) w1).2 in
  servers w1 = servers w ++ [next w] /\
  servers w2 = servers w ++ [next w; S (next w)] /\
  next w <> S (next w) /\
  heap w2 !! next w = Some (new_Server id) /\
  heap w2 !! S (next w) = Some (new_Server id) /\
  getServer id w2
  = match getServer id w with
    | Some a => Some a
    | None => Some (next w)
    end /\
  forall uuid a, getServer uuid w2 = Some a ->
    exists l1 l2, servers w2 = l1 ++ a :: l2 /\
      has_id w2 uuid a = true /\
      forall b, In b l1 -> has_id w2 uuid b = false.
Proof.
  intros H w1 w2. pose proof (create_wf id w H) as H1. fold w1 in H1.
  repeat split.
  - subst w2 w1. simpl. rewrite <- app_assoc. reflexivity.
  - lia.
  - subst w2 w1. simpl. rewrite lookup_insert_ne by lia.
    apply lookup_insert_eq.
  - subst w2 w1. simpl. apply lookup_insert_eq.
  - subst w2. rewrite (getServer_create id id w1 H1). subst w1.
    rewrite (getServer_create id id w H), String.eqb_refl.
    destruct (getServer id w); reflexivity.
  - intros uuid a Ha. exact (find_first _ _ _ Ha).
Qed.

Lemma C10_create_appends_witness :
  servers same_id_twice = [0%nat; 1%nat] /\
  heap same_id_twice !! 0%nat = Some (new_Server "s1") /\
  heap same_id_twice !! 1%nat = Some (new_Server "s1") /\
  getServer "s1" same_id_twice = Some 0%nat.
Proof.
  destruct (C10_create_appends "s1" empty_world eq_refl)
    as (_ & E2 & _ & E3 & E4 & E5 & _).
  exact (conj E2 (conj E3 (conj E4 E5))).
Defined.

(** *** delete *)

Lemma delete_instance_trace (k : result exn unit) (s : Server) :
  exists t,
    delete_instance k s
    = (Ok tt, mkServer (id s) None false false None None [],
       t ++ [FsRm (serverPath s)]).
Proof.
  unfold delete_instance, bindM.
  destruct (InstanceFacts.kill_run k s) as (t & ->).
  unfold get, tell, modify, ret. destruct s as [i c r ini st sd ll].
  destruct c; simpl.
  - exists (t ++ [RtRemoveForce c]). rewrite <- !app_assoc. reflexivity.
  - exists t. reflexivity.
Qed.

Lemma remove_first_In (a b : nat) (l : list nat) :
  In b (remove_first a l) -> In b l.
Proof.
  induction l as [|x l IH]; [auto|]. simpl.
  destruct (Nat.eqb x a); [auto|]. intros [->|Hb]; auto.
Qed.

Lemma remove_first_NoDup (a : nat) (l : list nat) :
  NoDup l -> ~ In a (remove_first a l).
Proof.
  induction l as [|x l IH]; [auto|]. intros ND. simpl.
  apply NoDup_cons in ND as [Hx ND].
  destruct (Nat.eqb_spec x a) as [->|N].
  - intros Ha. apply Hx. apply list_elem_of_In. exact Ha.
  - intros [E|Ha]; [congruence|exact (IH ND Ha)].
Qed.

Lemma unique_id_spec (w : World) (a : nat) (s : Server) (b : nat) :
  unique_id w a = true -> heap w !! a = Some s ->
  In b (servers w) -> b <> a -> has_id w (id s) b = false.
Proof.
  unfold unique_id. intros U Hs Hb N. rewrite Hs in U.
  rewrite forallb_forall in U. specialize (U b Hb).
  apply orb_prop in U as [U|U].
  - apply Nat.eqb_eq in U. contradiction.
  - apply negb_true_iff in U. exact U.
Qed.

(** *** C9 *)

(** C9, as stated, fails: when the same id was created twice, deleting
    the first instance leaves the second registered under that id; and
    while the removal of the directory, which is not awaited, has not
    succeeded, the directory still exists. *)
Lemma C9_counterexample :
  getServer "s1" same_id_twice = Some 0%nat /\
  getServer "s1" (delete 0 (Ok tt) true same_id_twice) = Some 1%nat /\
  bool_decide (sandbox "s1" ∈ dirs (delete 0 (Ok tt) false one_server))
  = true.
Proof. repeat split; vm_compute; reflexivity. Qed.

(** C9, amended. For a registered instance whose id no other registered
    instance has, after [delete] the registry no longer holds it and
    [getServer] answers nothing for its id; the recursive removal of its
    sandbox directory has been requested, and once that removal has
    succeeded the directory does not exist. *)
Theorem C9_delete_deregisters (w : World) (a : nat) (s : Server)
    (k : result exn unit) (rm_done : bool) :
  wf w = true -> In a (servers w) -> heap w !! a = Some s ->
  unique_id w a = true ->
  let w' := delete a k rm_done w in
  getServer (id s) w' = None /\
  ~ In a (servers w') /\
  In (FsRm (sandbox (id s))) (trace w') /\
  (rm_done = true -> sandbox (id s) ∉ dirs w').
Proof.
  intros H Ha Hs U w'. pose proof (wf_NoDup w H) as ND.
  destruct (delete_instance_trace k s) as (t & E).
  assert (Ew : w' = mkWorld
                 (<[a := mkServer (id s) None false false None None []]>
                    (heap w))
                 (remove_first a (servers w)) (next w)
                 (if rm_done then dirs w ∖ {[serverPath s]} else dirs w)
                 (trace w ++ t ++ [FsRm (serverPath s)])).
  { subst w'. unfold delete. rewrite Hs, E. reflexivity. }
  rewrite Ew. repeat split.
  - unfold getServer. simpl. apply find_none_all. intros b Hb.
    assert (N : b <> a).
    { intros ->. exact (remove_first_NoDup a _ ND Hb). }
    rewrite has_id_insert_ne by exact N.
    exact (unique_id_spec w a s b U Hs (remove_first_In a b _ Hb) N).
  - simpl. exact (remove_first_NoDup a _ ND).
  - simpl. rewrite app_assoc. apply in_or_app. right. left. reflexivity.
  - intros -> Hin. simpl in Hin. apply elem_of_difference in Hin as [_ Hn].
    apply Hn. apply elem_of_singleton. reflexivity.
Qed.

Lemma C9_delete_deregisters_witness :
  getServer "s1" (delete 0 (Ok tt) true one_server) = None /\
  ~ In 0%nat (servers (delete 0 (Ok tt) true one_server)) /\
  In (FsRm (sandbox "s1")) (trace (delete 0 (Ok tt) true one_server)) /\
  (true = true -> sandbox "s1" ∉ dirs (delete 0 (Ok tt) true one_server)).
Proof.
  apply (C9_delete_deregisters one_server 0%nat (new_Server "s1")
           (Ok tt) true).
  - reflexivity.
  - left. reflexivity.
  - reflexivity.
  - reflexivity.
Defined.

End RegistryFacts.

(** * SFTP authentication *)

Module SftpFacts.
Import Instance Registry Sftp.

Lemma is_underscore_eq (c : ascii) :
  Js.is_underscore c = true -> c = Js.underscore.
Proof. apply Ascii.eqb_eq. Qed.

(** Splitting on every underscore and splitting on the last one agree:
    the last part is the right side, the other parts joined again are the
    left side. *)
Lemma split_last_spec (u : string) :
  match split_last_underscore u with
  | None => Js.split Js.is_underscore u = [u]
  | Some (l, r) =>
      exists parts, Js.split Js.is_underscore u = parts ++ [r] /\
                    parts <> [] /\ Js.join "_" parts = l
  end.
Proof.
  induction u as [|c u IH]; [reflexivity|].
  simpl. destruct (split_last_underscore u) as [[l r]|].
  - destruct IH as (parts & E & Hne & J). rewrite E.
    destruct (Js.is_underscore c) eqn:Hc.
    + apply is_underscore_eq in Hc. subst c.
      exists ("" :: parts). repeat split; [discriminate|].
      destruct parts as [|p ps]; [congruence|]. subst l. reflexivity.
    + destruct parts as [|p ps]; [congruence|]. simpl.
      exists (String c p :: ps). repeat split; [discriminate|].
      subst l. destruct ps; reflexivity.
  - rewrite IH. destruct (Js.is_underscore c) eqn:Hc.
    + exists [""]. repeat split. discriminate.
    + reflexivity.
Qed.

Lemma length_snoc_ge_2 {A} (parts : list A) (r : A) :
  parts <> [] -> (length (parts ++ [r]) <? 2)%nat = false.
Proof.
  destruct parts as [|p ps]; [congruence|]. intros _.
  rewrite length_app. simpl. apply Nat.ltb_ge. lia.
Qed.

Lemma pop_or_a_snoc (parts : list string) (r : string) :
  pop_or_a (parts ++ [r]) = if Js.empty r then "a" else r.
Proof. unfold pop_or_a. rewrite last_snoc. reflexivity. Qed.

Lemma init_snoc (parts : list string) (r : string) :
  init (parts ++ [r]) = parts.
Proof. unfold init. apply removelast_last. Qed.

(** The instance the handler settles on, in the words of the amended
    claim. *)
Lemma code_lookup_spec (u : string) (w : World) :
  code_lookup u w
  = match split_last_underscore u with
    | None => None
    | Some (_, serverId) =>
        lookup (if Js.empty serverId then "a" else serverId) w
    end.
Proof.
  unfold code_lookup. pose proof (split_last_spec u) as S.
  destruct (split_last_underscore u) as [[l r]|].
  - destruct S as (parts & -> & Hne & _).
    rewrite (length_snoc_ge_2 parts r Hne), pop_or_a_snoc. reflexivity.
  - rewrite S. reflexivity.
Qed.

Lemma authentication_password (u pw : string)
    (verify : string -> string -> string -> bool) (w : World) :
  authentication "password" (Some u) pw verify w
  = match split_last_underscore u with
    | None => Reject
    | Some (user, serverId) =>
        match lookup (if Js.empty serverId then "a" else serverId) w with
        | None => Reject
        | Some a =>
            match heap w !! a with
            | None => Reject
            | Some serverObj =>
                if verify user pw (id serverObj)
                then Accept user a
                       (Path.join [BASE_SERVER_PATH; id serverObj])
                else Reject
            end
        end
    end.
Proof.
  unfold authentication. simpl. pose proof (split_last_spec u) as S.
  destruct (split_last_underscore u) as [[l r]|].
  - destruct S as (parts & -> & Hne & <-).
    rewrite (length_snoc_ge_2 parts r Hne), pop_or_a_snoc, init_snoc.
    reflexivity.
  - rewrite S. reflexivity.
Qed.

(** *** C6 *)

(** C6, as stated, fails on a user name that ends with an underscore: the
    right side is empty, and the code looks up the id [a] instead. With
    servers [abc] and [xyz], the empty id is a prefix of both (the claim
    rejects), yet the code settles on [abc] and accepts. *)
Lemma C6_counterexample :
  split_last_underscore "bob_" = Some ("bob", "") /\
  spec_lookup "bob_" abc_and_xyz = None /\
  code_lookup "bob_" abc_and_xyz = Some 0%nat /\
  authentication "password" (Some "bob_") "pw" (fun _ _ _ => true)
                 abc_and_xyz
  = Accept "bob" 0%nat "E:/servers/abc".
Proof. repeat split; vm_compute; reflexivity. Qed.

(** C6, amended. A user name without an underscore is rejected; otherwise
    it is split on its last underscore, the left side (underscores
    included) is the user name and the right side is the server id,
    except that an empty right side stands for the id [a]. The server is
    looked up by exact id first, then by a prefix that exactly one
    registered id has; when none or several match, the attempt is
    rejected, and it is accepted only for the instance looked up, with
    the left side as user name. *)
Theorem C6_sftp_username (u pw : string)
    (verify : string -> string -> string -> bool) (w : World) :
  (split_last_underscore u = None ->
   authentication "password" (Some u) pw verify w = Reject) /\
  (forall user serverId,
     split_last_underscore u = Some (user, serverId) ->
     let wanted := if Js.empty serverId then "a" else serverId in
     Js.all_chars (fun c => negb (Js.is_underscore c)) serverId = true /\
     u = user +:+ "_" +:+ serverId /\
     code_lookup u w = lookup wanted w /\
     (forall a, getServer wanted w = Some a -> lookup wanted w = Some a) /\
     (getServer wanted w = None ->
      lookup wanted w = match prefix_matches wanted w with
                        | [a] => Some a
                        | _ => None
                        end) /\
     (lookup wanted w = None ->
      authentication "password" (Some u) pw verify w = Reject) /\
     (forall ub a root,
        authentication "password" (Some u) pw verify w = Accept ub a root ->
        ub = user /\ lookup wanted w = Some a)).
Proof.
  split.
  - intros E. rewrite authentication_password, E. reflexivity.
  - intros user serverId E wanted.
    pose proof (code_lookup_spec u w) as CL.
    pose proof (authentication_password u pw verify w) as AU.
    rewrite E in CL, AU. fold wanted in CL, AU.
    repeat split.
    + clear -E. revert user serverId E.
      induction u as [|c u IH]; [discriminate|]. simpl.
      destruct (split_last_underscore u) as [[l r]|] eqn:Eu.
      * intros ? ? [= <- <-]. exact (IH l r eq_refl).
      * destruct (Js.is_underscore c); [|discriminate].
        intros ? ? [= <- <-]. clear IH.
        induction u as [|d u IHu]; [reflexivity|]. simpl in Eu |- *.
        destruct (split_last_underscore u) as [[l r]|]; [discriminate|].
        destruct (Js.is_underscore d); [discriminate|].
        simpl. apply IHu. reflexivity.
    + clear -E. revert user serverId E.
      induction u as [|c u IH]; [discriminate|]. simpl.
      destruct (split_last_underscore u) as [[l r]|] eqn:Eu.
      * intros ? ? [= <- <-]. simpl. f_equal. exact (IH l r eq_refl).
      * destruct (Js.is_underscore c) eqn:Hc; [|discriminate].
        intros ? ? [= <- <-]. apply is_underscore_eq in Hc. subst c.
        reflexivity.
    + exact CL.
    + intros a G. unfold lookup. rewrite G. reflexivity.
    + intros G. unfold lookup. rewrite G. reflexivity.
    + intros L. rewrite AU, L. reflexivity.
    + rewrite AU in H. destruct (lookup wanted w); [|discriminate].
      destruct (heap w !! n); [|discriminate].
      destruct (verify _ _ _); [|discriminate]. congruence.
    + rewrite AU in H. destruct (lookup wanted w); [|discriminate].
      destruct (heap w !! n); [|discriminate].
      destruct (verify _ _ _); [|discriminate]. congruence.
Qed.

Lemma C6_sftp_username_witness :
  authentication "password" (Some "nounderscore") "pw" (fun _ _ _ => true)
                 abc_and_xyz = Reject /\
  code_lookup "a_b_c_xy" abc_and_xyz = lookup "xy" abc_and_xyz /\
  "a_b_c_xy" = "a_b_c" +:+ "_" +:+ "xy".
Proof.
  pose proof (C6_sftp_username "nounderscore" "pw" (fun _ _ _ => true)
                abc_and_xyz) as [N _].
  pose proof (C6_sftp_username "a_b_c_xy" "pw" (fun _ _ _ => true)
                abc_and_xyz) as [_ S].
  destruct (S "a_b_c" "xy" eq_refl) as (_ & E & L & _).
  exact (conj (N eq_refl) (conj L E)).
Defined.

End SftpFacts.

(** * Unarchive *)

Module UnarchiveFacts.
Import Unarchive.
Import Path (slash_free).


Lemma substring_all (r : string) :
  String.substring 0 (String.length r) r = r.
Proof. induction r as [|c r IH]; simpl; [reflexivity|rewrite IH; reflexivity]. Qed.

Lemma drop_append (pre r : string) :
  Js.drop (String.length pre) (pre +:+ r) = r.
Proof.
  unfold Js.drop. induction pre as [|c pre IH]; simpl.
  - rewrite Nat.sub_0_r. apply substring_all.
  - exact IH.
Qed.


(** *** What [target_name] does to a sanitized name *)



(** *** Entries under an ordinary top-level directory *)











(** *** The flatten test *)






(** *** C5 *)



(** *** The base name of an archive has no slash *)





(** *** The destination test *)






(** *** The segments of a sanitized name *)







End UnarchiveFacts.

(** * The HTTP surface *)

Module HttpFacts.
Import Instance Http.

(** A POST to a file manager path reaches [interpretFileManager]. *)
Lemma route_filemanager (env : Env) (rm : bool) (w : Registry.World)
    (body : option Body) (sub : string) :
  In sub file_ops ->
  handleRequest env rm w "POST" ("/api/v1/servers/filemanager/" +:+ sub) body
  = routed w (do r <- interpretFileManager env w body sub; Ok (r, w)).
Proof.
  intros H. unfold file_ops in H. simpl in H.
  repeat (destruct H as [<-|H]; [reflexivity|]). destruct H.
Qed.

Lemma route_control (env : Env) (rm : bool) (w : Registry.World)
    (body : option Body) (op : string) :
  In op control_ops ->
  handleRequest env rm w "POST" ("/api/v1/servers/" +:+ op) body
  = routed w (control_handler env rm w body op).
Proof.
  intros H. unfold control_ops in H. simpl in H.
  repeat (destruct H as [<-|H]; [reflexivity|]). destruct H.
Qed.

Lemma route_status (env : Env) (rm : bool) (w : Registry.World)
    (body : option Body) :
  handleRequest env rm w "POST" "/api/v1/status" body
  = routed w (VerifyStatus env w body).
Proof. reflexivity. Qed.

(** *** Requests that pass the common checks of the file manager *)

Lemma dotdot_nonempty (p : string) :
  Sandbox.has_dotdot (Js.split Js.is_sep p) = true -> Js.empty p = false.
Proof. destruct p; [discriminate|reflexivity]. Qed.

Lemma resolvePath_dotdot (env : Env) (b : Body) (p : string) :
  Sandbox.has_dotdot (Js.split Js.is_sep p) = true ->
  resolvePath env b (Some p) = Throw CaminhoNaoPermitido.
Proof.
  intros H. unfold resolvePath.
  rewrite (sanitizeRelative_rejects_dotdot p H). reflexivity.
Qed.

Lemma interpretFileManager_authorised (env : Env) (w : Registry.World)
    (b : Body) (a : nat) (sub : string) :
  (validateAuth env b).1 = true -> ensurePermission env w b = Ok a ->
  interpretFileManager env w (Some b) sub
  = if String.eqb sub "list" then handleList env b
    else if String.eqb sub "read" then handleRead env b
    else if String.eqb sub "write" then handleWrite env b
    else if String.eqb sub "rename" then handleRename env b
    else if String.eqb sub "download" then handleDownload env b
    else if String.eqb sub "mass" then handleMass env b
    else if String.eqb sub "mkdir" then handleMkdir env b
    else if String.eqb sub "move" then handleMove env b
    else if String.eqb sub "upload" then handleUpload env b
    else if String.eqb sub "unarchive" then handleUnarchive env b
    else Ok (fail 404 "ação filemanager desconhecida").
Proof.
  intros Ha Hp. unfold interpretFileManager. simpl default.
  rewrite Ha, Hp. reflexivity.
Qed.

(** The handlers that resolve [path] first raise what the resolver
    raises. *)
Lemma path_first_handlers_raise (env : Env) (b : Body) (p sub : string) :
  path b = Some p ->
  Sandbox.has_dotdot (Js.split Js.is_sep p) = true ->
  In sub ["list"; "read"; "download"; "mkdir"; "upload"; "unarchive"] ->
  (if String.eqb sub "list" then handleList env b
   else if String.eqb sub "read" then handleRead env b
   else if String.eqb sub "write" then handleWrite env b
   else if String.eqb sub "rename" then handleRename env b
   else if String.eqb sub "download" then handleDownload env b
   else if String.eqb sub "mass" then handleMass env b
   else if String.eqb sub "mkdir" then handleMkdir env b
   else if String.eqb sub "move" then handleMove env b
   else if String.eqb sub "upload" then handleUpload env b
   else if String.eqb sub "unarchive" then handleUnarchive env b
   else Ok (fail 404 "ação filemanager desconhecida"))
  = Throw CaminhoNaoPermitido.
Proof.
  intros Hp Hd Hs.
  pose proof (resolvePath_dotdot env b p Hd) as R.
  pose proof (sanitizeRelative_rejects_dotdot p Hd) as S.
  pose proof (dotdot_nonempty p Hd) as E.
  simpl in Hs.
  repeat (destruct Hs as [<-|Hs];
          [ vm_compute String.eqb; cbv iota;
            unfold handleList, handleRead, handleDownload, handleMkdir,
              handleUpload, handleUnarchive;
            rewrite Hp; simpl Js.falsy; rewrite ?E, ?R, ?S; reflexivity |]).
  destruct Hs.
Qed.

(** The handlers that call the resolver before anything else raise what
    it raises, whichever of its two tests failed. *)
Lemma resolver_first_handlers_raise (env : Env) (b : Body) (e : exn)
    (sub : string) :
  Js.falsy (path b) = false ->
  resolvePath env b (path b) = Throw e ->
  In sub ["list"; "read"; "download"; "unarchive"] ->
  (if String.eqb sub "list" then handleList env b
   else if String.eqb sub "read" then handleRead env b
   else if String.eqb sub "write" then handleWrite env b
   else if String.eqb sub "rename" then handleRename env b
   else if String.eqb sub "download" then handleDownload env b
   else if String.eqb sub "mass" then handleMass env b
   else if String.eqb sub "mkdir" then handleMkdir env b
   else if String.eqb sub "move" then handleMove env b
   else if String.eqb sub "upload" then handleUpload env b
   else if String.eqb sub "unarchive" then handleUnarchive env b
   else Ok (fail 404 "ação filemanager desconhecida"))
  = Throw e.
Proof.
  intros F R Hs. simpl in Hs.
  repeat (destruct Hs as [<-|Hs];
          [ vm_compute String.eqb; cbv iota;
            unfold handleList, handleRead, handleDownload, handleUnarchive;
            rewrite ?F, R; reflexivity |]).
  destruct Hs.
Qed.

(** *** C2 *)

(** A request that the common checks of the file manager turn away. *)
Lemma interpretFileManager_refused (env : Env) (w : Registry.World)
    (b : Body) (sub : string) :
  interpretFileManager env w (Some b) sub
  = if negb (validateAuth env b).1
    then Ok (fail 400 (validateAuth env b).2)
    else match ensurePermission env w b with
         | Throw e => Ok (fail 403 (exn_message e))
         | Ok _ => interpretFileManager env w (Some b) sub
         end.
Proof.
  unfold interpretFileManager. simpl default.
  destruct (negb (validateAuth env b).1); [reflexivity|].
  destruct (ensurePermission env w b); reflexivity.
Qed.

(** The entry that [mass] records for a path with a [..] segment. *)
Lemma mass_delete_entry_dotdot (env : Env) (b : Body) (p : string) :
  Sandbox.has_dotdot (Js.split Js.is_sep p) = true ->
  mass_delete_entry env b p
  = JObj [("path", JStr p); ("status", JStr "error");
          ("error", JStr "Caminho não permitido")].
Proof.
  intros H. unfold mass_delete_entry.
  rewrite (resolvePath_dotdot env b p H). reflexivity.
Qed.

Lemma mass_delete_entries (env : Env) (b : Body) (ps : list string) :
  Forall2 (fun p r =>
             Sandbox.has_dotdot (Js.split Js.is_sep p) = true ->
             r = JObj [("path", JStr p); ("status", JStr "error");
                       ("error", JStr "Caminho não permitido")])
          ps (map (mass_delete_entry env b) ps).
Proof.
  induction ps as [|p ps IH]; [constructor|].
  simpl. constructor; [apply mass_delete_entry_dotdot | exact IH].
Qed.

(** C2, as stated, fails: an authorised read of [../../../etc/passwd] is
    answered with status 500, not 403. *)
Lemma C2_counterexample :
  code (handleRequest sample_env true Registry.one_server "POST"
          "/api/v1/servers/filemanager/read"
          (Some (body_with (Some "secret") (Some "../../../etc/passwd")))).1
  = 500%nat.
Proof. vm_compute. reflexivity. Qed.

(** C2, amended. For a request to list, read, download, mkdir, upload or
    unarchive whose [path] has a segment equal to [..], the status is 400
    when [validateAuth] turns the body away, 403 when [ensurePermission]
    fails, and 500 otherwise: the resolver's error is not given a status
    of its own and reaches the router's handler. An authorised list,
    read, download or unarchive is answered with 500 as well when the
    resolver rejects [path] by its prefix test. An authorised mass
    deletion is answered with 200, and its results hold, at the place of
    every path with a [..] segment, that path with the status [error] and
    the resolver's message. *)
Theorem C2_path_escape_status (env : Env) (rm : bool) (w : Registry.World)
    (b : Body) :
  (forall p sub,
     path b = Some p ->
     Sandbox.has_dotdot (Js.split Js.is_sep p) = true ->
     In sub ["list"; "read"; "download"; "mkdir"; "upload"; "unarchive"] ->
     code (handleRequest env rm w "POST"
             ("/api/v1/servers/filemanager/" +:+ sub) (Some b)).1
     = if negb (validateAuth env b).1 then 400%nat
       else match ensurePermission env w b with
            | Throw _ => 403%nat
            | Ok _ => 500%nat
            end) /\
  (forall a e sub,
     (validateAuth env b).1 = true -> ensurePermission env w b = Ok a ->
     Js.falsy (path b) = false -> resolvePath env b (path b) = Throw e ->
     In sub ["list"; "read"; "download"; "unarchive"] ->
     code (handleRequest env rm w "POST"
             ("/api/v1/servers/filemanager/" +:+ sub) (Some b)).1
     = 500%nat) /\
  (forall a ps,
     (validateAuth env b).1 = true -> ensurePermission env w b = Ok a ->
     paths b = Some ps -> ps <> [] -> action b = Some "delete" ->
     code (handleRequest env rm w "POST"
             "/api/v1/servers/filemanager/mass" (Some b)).1 = 200%nat /\
     exists results,
       field "results"
         (payload (handleRequest env rm w "POST"
                     "/api/v1/servers/filemanager/mass" (Some b)).1)
       = Some (JArr results) /\
       Forall2 (fun p r =>
                  Sandbox.has_dotdot (Js.split Js.is_sep p) = true ->
                  r = JObj [("path", JStr p); ("status", JStr "error");
                            ("error", JStr "Caminho não permitido")])
               ps results).
Proof.
  repeat apply conj.
  - intros p sub Hp Hd Hs.
    rewrite route_filemanager
      by (unfold file_ops; simpl in Hs |- *; tauto).
    rewrite interpretFileManager_refused.
    destruct (negb (validateAuth env b).1) eqn:Ha; [reflexivity|].
    apply negb_false_iff in Ha.
    destruct (ensurePermission env w b) as [a|e] eqn:He; [|reflexivity].
    rewrite (interpretFileManager_authorised env w b a sub Ha He).
    rewrite (path_first_handlers_raise env b p sub Hp Hd Hs). reflexivity.
  - intros a e sub Ha He F R Hs.
    rewrite route_filemanager.
    + rewrite (interpretFileManager_authorised env w b a sub Ha He).
      rewrite (resolver_first_handlers_raise env b e sub F R Hs).
      reflexivity.
    + unfold file_ops. simpl in Hs |- *. tauto.
  - intros a ps Ha He Hp Hn Hact.
    change "/api/v1/servers/filemanager/mass"
      with ("/api/v1/servers/filemanager/" +:+ "mass").
    rewrite (route_filemanager env rm w (Some b) "mass")
      by (unfold file_ops; simpl; tauto).
    rewrite (interpretFileManager_authorised env w b a "mass" Ha He).
    vm_compute String.eqb. cbv iota. unfold handleMass.
    rewrite Hp, Hact. destruct ps as [|q qs]; [contradiction|].
    split; [reflexivity|].
    exists (map (mass_delete_entry env b) (q :: qs)).
    split; [reflexivity | apply mass_delete_entries].
Qed.

Lemma C2_path_escape_status_witness :
  code (handleRequest sample_env true Registry.one_server "POST"
          ("/api/v1/servers/filemanager/" +:+ "download")
          (Some (body_with (Some "secret") (Some "a/../../b")))).1
  = 500%nat.
Proof.
  destruct (C2_path_escape_status sample_env true Registry.one_server
              (body_with (Some "secret") (Some "a/../../b")))
    as (H & _ & _).
  apply (H "a/../../b" "download" eq_refl eq_refl).
  right. right. left. reflexivity.
Defined.

(** *** C8 *)

Lemma common_checks_missing (env : Env) (b : Body) :
  Js.falsy (token b) = true ->
  common_checks env b = Some (fail 400 "Token is required").
Proof. intros H. unfold common_checks. rewrite H. reflexivity. Qed.

Lemma token_mismatch (env : Env) (b : Body) :
  Js.falsy (token b) = false -> token b <> Some (config_token env) ->
  String.eqb (default "" (token b)) (config_token env) = false.
Proof.
  intros H N. destruct (token b) as [t|]; [|discriminate H].
  simpl. apply String.eqb_neq. congruence.
Qed.

Lemma common_checks_mismatch (env : Env) (b : Body) :
  Js.falsy (token b) = false -> token b <> Some (config_token env) ->
  common_checks env b = Some (fail 403 "Invalid token").
Proof.
  intros H N. unfold common_checks.
  rewrite H, (token_mismatch env b H N). reflexivity.
Qed.

(** Every handler of the servers path answers with what the common
    checks answer, when they answer. *)
Lemma control_handler_checks (env : Env) (rm : bool) (w : Registry.World)
    (b : Body) (op : string) (r : Reply) :
  common_checks env b = Some r ->
  control_handler env rm w (Some b) op = Ok (r, w).
Proof.
  intros H. unfold control_handler, DeleteServer, GetServerStatus,
    SendActionServer, GetServerUsage, CreateServer, member_checks.
  rewrite H.
  repeat match goal with
         | |- context [if ?c then _ else _] => destruct c
         end; reflexivity.
Qed.

Lemma validateAuth_rejects (env : Env) (b : Body) :
  Js.falsy (token b) = true \/ token b <> Some (config_token env) ->
  (validateAuth env b).1 = false.
Proof.
  intros H. unfold validateAuth.
  destruct (Js.falsy (token b)) eqn:F; [reflexivity|].
  destruct H as [H|H]; [discriminate|].
  rewrite (token_mismatch env b F H). reflexivity.
Qed.

(** Every path that begins with the file manager's prefix reaches
    [interpretFileManager], whatever follows the prefix. *)
Lemma route_filemanager_prefix (env : Env) (rm : bool) (w : Registry.World)
    (body : option Body) (rest : string) :
  no_line_break rest = true ->
  exists sub,
    handleRequest env rm w "POST" ("/api/v1/servers/filemanager" +:+ rest)
      body
    = routed w (do r <- interpretFileManager env w body sub; Ok (r, w)).
Proof.
  intros NL.
  exists (if Js.empty (default "" (Js.split Js.is_slash
                                     ("filemanager" +:+ rest) !! 1%nat))
          then "list"
          else default "" (Js.split Js.is_slash
                             ("filemanager" +:+ rest) !! 1%nat)).
  unfold handleRequest, findMatchingApiRoute.
  assert (E1 : String.eqb ("/api/v1/servers/filemanager" +:+ rest)
                 "/api/v1/status" = false) by reflexivity.
  assert (E2 : String.eqb ("/api/v1/servers/filemanager" +:+ rest)
                 "/api/v1/status/" = false) by reflexivity.
  assert (E3 : String.eqb ("/api/v1/servers/filemanager" +:+ rest)
                 "/api/v1/servers" = false) by reflexivity.
  rewrite E1, E2, E3. cbn [orb].
  change (Js.startsWith ("/api/v1/servers/filemanager" +:+ rest)
            "/api/v1/servers/") with true. cbv iota.
  change ("/api/v1/servers/filemanager" +:+ rest)
    with ("/api/v1/servers/" +:+ ("filemanager" +:+ rest)).
  change 16%nat with (String.length "/api/v1/servers/").
  rewrite UnarchiveFacts.drop_append.
  assert (NL' : no_line_break ("filemanager" +:+ rest) = true)
    by exact NL.
  rewrite NL'.
  change (String.eqb "POST" "POST") with true. cbn [orb]. cbv iota.
  unfold interpretServers.
  change (Js.falsy (Some ("filemanager" +:+ rest))) with false.
  change (Js.startsWith (default "" (Some ("filemanager" +:+ rest)))
            "filemanager") with true.
  cbn [negb andb]. cbv iota. reflexivity.
Qed.

(** C8, as stated, fails: the status path answers a wrong token and a
    missing token with 401, and the file manager answers a wrong token
    with 400. *)
Lemma C8_counterexample :
  code (handleRequest sample_env true Registry.one_server "POST"
          "/api/v1/status" (Some (body_with (Some "wrong") None))).1
  = 401%nat /\
  code (handleRequest sample_env true Registry.one_server "POST"
          "/api/v1/status" (Some (body_with None None))).1
  = 401%nat /\
  code (handleRequest sample_env true Registry.one_server "POST"
          "/api/v1/servers/filemanager/list"
          (Some (body_with (Some "wrong") None))).1
  = 400%nat.
Proof. repeat split; vm_compute; reflexivity. Qed.

(** C8, amended. For a POST that has a body: on the servers paths
    create, delete, status, usage and action, a missing token is answered
    with status 400 and a token that differs from the configured one with
    status 403; on the status path both are answered with 401. On every
    path that begins with the file manager's prefix both are answered
    with 400, and so is a request without a body. *)
Theorem C8_token_status (env : Env) (rm : bool) (w : Registry.World)
    (b : Body) :
  (forall op, In op control_ops ->
     (Js.falsy (token b) = true ->
      code (handleRequest env rm w "POST" ("/api/v1/servers/" +:+ op)
              (Some b)).1 = 400%nat) /\
     (Js.falsy (token b) = false -> token b <> Some (config_token env) ->
      code (handleRequest env rm w "POST" ("/api/v1/servers/" +:+ op)
              (Some b)).1 = 403%nat)) /\
  (token b <> Some (config_token env) ->
   code (handleRequest env rm w "POST" "/api/v1/status" (Some b)).1
   = 401%nat) /\
  (forall rest, no_line_break rest = true ->
     (Js.falsy (token b) = true \/ token b <> Some (config_token env) ->
      code (handleRequest env rm w "POST"
              ("/api/v1/servers/filemanager" +:+ rest) (Some b)).1
      = 400%nat) /\
     code (handleRequest env rm w "POST"
             ("/api/v1/servers/filemanager" +:+ rest) None).1
     = 400%nat).
Proof.
  repeat apply conj.
  - intros op Hop. rewrite (route_control env rm w (Some b) op Hop). split.
    + intros H.
      rewrite (control_handler_checks env rm w b op _
                 (common_checks_missing env b H)). reflexivity.
    + intros H N.
      rewrite (control_handler_checks env rm w b op _
                 (common_checks_mismatch env b H N)). reflexivity.
  - intros N. rewrite route_status. unfold VerifyStatus.
    destruct (token b) as [t|]; [|reflexivity].
    destruct (String.eqb_spec t (config_token env)) as [->|_];
      [congruence|reflexivity].
  - intros rest NL. split.
    + intros H.
      destruct (route_filemanager_prefix env rm w (Some b) rest NL)
        as (sub & ->).
      unfold interpretFileManager. simpl default.
      rewrite (validateAuth_rejects env b H). reflexivity.
    + destruct (route_filemanager_prefix env rm w None rest NL)
        as (sub & ->).
      reflexivity.
Qed.

Lemma C8_token_status_witness :
  code (handleRequest sample_env true Registry.one_server "POST"
          ("/api/v1/servers/" +:+ "delete")
          (Some (body_with None None))).1 = 400%nat /\
  code (handleRequest sample_env true Registry.one_server "POST"
          ("/api/v1/servers/" +:+ "delete")
          (Some (body_with (Some "wrong") None))).1 = 403%nat.
Proof.
  pose proof (C8_token_status sample_env true Registry.one_server
                (body_with None None)) as [M _].
  pose proof (C8_token_status sample_env true Registry.one_server
                (body_with (Some "wrong") None)) as [N _].
  assert (D : In "delete" control_ops) by (right; left; reflexivity).
  split.
  - exact (proj1 (M "delete" D) eq_refl).
  - apply (proj2 (N "delete" D)); [reflexivity|discriminate].
Defined.

(** *** C7 *)

(** The status handler puts the promise into the reply, whatever the
    instance and whatever the runtime answers. *)
Lemma GetServerStatus_promise (env : Env) (w : Registry.World) (b : Body)
    (a : nat) :
  member_checks env w b = inr a ->
  exists settled w',
    GetServerStatus env w (Some b)
    = Ok (send (JObj [("status", JStr "success");
                      ("serverStatus", JPromise settled)]), w').
Proof.
  intros H. unfold GetServerStatus. rewrite H.
  destruct (getStatus_at env a w) as [settled w']. eauto.
Qed.

(** C7 fails on the code. For an authorised request about the stopped
    server [s1], the [serverStatus] field of the reply is the promise
    that [getStatus] returned, written on the wire as an empty object;
    the usage handler, which awaits the same call, reports the text. *)
Lemma C7_serverStatus_is_a_promise :
  field "serverStatus"
    (payload (handleRequest sample_env true Registry.one_server "POST"
                "/api/v1/servers/status"
                (Some (body_with (Some "secret") None))).1)
  = Some (JPromise (JStr "stopped")) /\
  stringify
    (payload (handleRequest sample_env true Registry.one_server "POST"
                "/api/v1/servers/status"
                (Some (body_with (Some "secret") None))).1)
  = "{" +:+ Js.quoted "status" +:+ ":" +:+ Js.quoted "success" +:+ ","
    +:+ Js.quoted "serverStatus" +:+ ":{}}" /\
  (field "usage"
     (payload (handleRequest sample_env true Registry.one_server "POST"
                 "/api/v1/servers/usage"
                 (Some (body_with (Some "secret") None))).1)
   ≫= field "state")
  = Some (JStr "stopped").
Proof. repeat split; vm_compute; reflexivity. Qed.

End HttpFacts.

(** * Strings, once more *)

Module TextFacts.
Import Text.

(** Induction on a string two characters at a time. *)
Lemma string_ind2 (P : string -> Prop) :
  P "" -> (forall c, P (String c "")) ->
  (forall c d s, P s -> P (String d s) -> P (String c (String d s))) ->
  forall s, P s.
Proof.
  intros H0 H1 H2 s.
  assert (H : P s /\ forall c, P (String c s)).
  { induction s as [|d s [IH1 IH2]]; [split; [exact H0 | exact H1]|].
    split; [apply IH2|]. intros c. apply H2; [exact IH1 | apply IH2]. }
  exact (proj1 H).
Qed.

Lemma substring_whole (r : string) :
  String.substring 0 (String.length r) r = r.
Proof. induction r as [|c r IH]; simpl; [reflexivity | now rewrite IH]. Qed.

Lemma drop_0 (s : string) : Js.drop 0 s = s.
Proof.
  unfold Js.drop. rewrite Nat.sub_0_r. apply substring_whole.
Qed.

Lemma drop_S (n : nat) (c : ascii) (s : string) :
  Js.drop (S n) (String c s) = Js.drop n s.
Proof. reflexivity. Qed.

Lemma drop_app_length (pre r : string) :
  Js.drop (String.length pre) (pre +:+ r) = r.
Proof.
  induction pre as [|c pre IH]; [apply drop_0|].
  change (String c pre +:+ r) with (String c (pre +:+ r)).
  simpl String.length. rewrite drop_S. exact IH.
Qed.

Lemma append_nil_r (a : string) : a +:+ "" = a.
Proof. induction a as [|c a IH]; simpl; [reflexivity | now rewrite IH]. Qed.

Lemma append_assoc' (a b c : string) : (a +:+ b) +:+ c = a +:+ (b +:+ c).
Proof. induction a as [|x a IH]; simpl; [reflexivity | now rewrite IH]. Qed.

Lemma length_append (a b : string) :
  String.length (a +:+ b) = (String.length a + String.length b)%nat.
Proof. induction a as [|x a IH]; simpl; [reflexivity | now rewrite IH]. Qed.

Lemma startsWith_app (a b : string) : Js.startsWith (a +:+ b) a = true.
Proof.
  induction a as [|x a IH]; [reflexivity|]. simpl.
  rewrite Ascii.eqb_refl. exact IH.
Qed.

Lemma startsWith_split (s pre : string) :
  Js.startsWith s pre = true -> exists rest, s = pre +:+ rest.
Proof.
  revert s. induction pre as [|a pre IH]; intros s H.
  - exists s. reflexivity.
  - destruct s as [|b s]; [discriminate|]. simpl in H.
    apply andb_true_iff in H as [E H]. apply Ascii.eqb_eq in E. subst b.
    destruct (IH s H) as [rest ->]. exists rest. reflexivity.
Qed.

(** [span] cuts where the first character outside the class stands. *)
Lemma span_app (p : ascii -> bool) (k r : string) :
  Js.all_chars p k = true ->
  match r with String c _ => p c = false | EmptyString => True end ->
  span p (k +:+ r) = (k, r).
Proof.
  intros K R. induction k as [|c k IH].
  - simpl. destruct r as [|c r]; [reflexivity|]. simpl. now rewrite R.
  - simpl in K. apply andb_true_iff in K as [C K].
    change (String c k +:+ r) with (String c (k +:+ r)).
    simpl. rewrite C, (IH K). reflexivity.
Qed.

Lemma span_spec (p : ascii -> bool) (s : string) :
  s = (span p s).1 +:+ (span p s).2 /\
  Js.all_chars p (span p s).1 = true.
Proof.
  induction s as [|c s [IH1 IH2]]; [split; reflexivity|].
  simpl. destruct (p c) eqn:C; simpl.
  - split; [now rewrite <- IH1 | now rewrite C, IH2].
  - split; reflexivity.
Qed.

End TextFacts.

(** * Container log lines *)

Module LogsFacts.
Import Logs TextFacts.

Lemma split_lines_cons2 (c d : ascii) (s : string) :
  split_lines (String c (String d s))
  = if is_lf c then "" :: split_lines (String d s)
    else if is_cr c && is_lf d then "" :: split_lines s
    else push c (split_lines (String d s)).
Proof. reflexivity. Qed.

Lemma split_lines_nonempty (s : string) : split_lines s <> [].
Proof.
  induction s as [| c | c d s IH1 IH2] using string_ind2.
  - discriminate.
  - simpl. destruct (is_lf c); discriminate.
  - rewrite split_lines_cons2.
    destruct (is_lf c); [discriminate|].
    destruct (is_cr c && is_lf d); [discriminate|].
    destruct (split_lines (String d s)); [contradiction|discriminate].
Qed.

Lemma push_lf_free (c : ascii) (L : list string) :
  is_lf c = false -> Forall lf_free L -> Forall lf_free (push c L).
Proof.
  intros C H. destruct H as [|h t Hh Ht]; simpl.
  - constructor; [|constructor]. unfold lf_free. simpl. now rewrite C.
  - constructor; [|exact Ht]. unfold lf_free in *. simpl. now rewrite C, Hh.
Qed.

(** No piece of [split_lines] holds a line feed. *)
Lemma split_lines_lf_free (s : string) : Forall lf_free (split_lines s).
Proof.
  induction s as [| c | c d s IH1 IH2] using string_ind2.
  - repeat constructor.
  - simpl. destruct (is_lf c) eqn:C.
    + repeat constructor.
    + constructor; [|constructor]. unfold lf_free. simpl. now rewrite C.
  - rewrite split_lines_cons2. destruct (is_lf c) eqn:C.
    + constructor; [reflexivity | exact IH2].
    + destruct (is_cr c && is_lf d).
      * constructor; [reflexivity | exact IH1].
      * apply push_lf_free; assumption.
Qed.

(** X1. Every line that [handleChunk] hands to the listener is non-empty
    and holds no line feed. *)
Theorem handleChunk_lines (text l : string) :
  In l (handleChunk text) ->
  l <> "" /\ Js.all_chars (fun c => negb (is_lf c)) l = true.
Proof.
  unfold handleChunk. intros H. apply filter_In in H as [H E].
  split.
  - intros ->. discriminate E.
  - pose proof (split_lines_lf_free text) as F.
    exact (proj1 (List.Forall_forall _ _) F l H).
Qed.

Lemma handleChunk_lines_witness :
  In "b" (handleChunk ("a" +:+ LF +:+ LF +:+ "b")) /\
  ("b" <> "" /\ Js.all_chars (fun c => negb (is_lf c)) "b" = true).
Proof.
  assert (H : In "b" (handleChunk ("a" +:+ LF +:+ LF +:+ "b"))).
  { vm_compute. right. left. reflexivity. }
  exact (conj H (handleChunk_lines _ _ H)).
Defined.

Lemma join_push (c : ascii) (L : list string) :
  L <> [] -> Js.join LF (push c L) = String c (Js.join LF L).
Proof.
  intros N. destruct L as [|h t]; [contradiction|].
  destruct t as [|y t]; reflexivity.
Qed.

Lemma join_empty_cons (L : list string) :
  L <> [] -> Js.join LF ("" :: L) = String lf (Js.join LF L).
Proof. intros N. destruct L as [|h t]; [contradiction|]. reflexivity. Qed.

Lemma split_lines_cr_free (c : ascii) (s : string) :
  is_cr c = false ->
  split_lines (String c s)
  = if is_lf c then "" :: split_lines s else push c (split_lines s).
Proof.
  intros C. destruct s as [|d s]; [reflexivity|].
  rewrite split_lines_cons2, C. reflexivity.
Qed.

(** X2. A text without carriage returns is got back from its pieces:
    joining what [split(/\r?\n/)] returns with line feeds gives the
    text. *)
Theorem split_lines_join (text : string) :
  Js.all_chars (fun c => negb (is_cr c)) text = true ->
  Js.join LF (split_lines text) = text.
Proof.
  induction text as [|c s IH]; intros H; [reflexivity|].
  simpl in H. apply andb_true_iff in H as [C H].
  apply negb_true_iff in C. rewrite (split_lines_cr_free _ _ C).
  destruct (is_lf c) eqn:L.
  - rewrite (join_empty_cons _ (split_lines_nonempty s)), (IH H).
    apply Ascii.eqb_eq in L. now subst c.
  - rewrite (join_push _ _ (split_lines_nonempty s)), (IH H). reflexivity.
Qed.

Lemma split_lines_join_witness :
  Js.join LF (split_lines ("a" +:+ LF +:+ LF +:+ "b c" +:+ LF))
  = "a" +:+ LF +:+ LF +:+ "b c" +:+ LF.
Proof.
  apply (split_lines_join ("a" +:+ LF +:+ LF +:+ "b c" +:+ LF)).
  vm_compute. reflexivity.
Defined.

Lemma push_app (c : ascii) (L R : list string) :
  L <> [] -> push c (L ++ R) = push c L ++ R.
Proof. intros N. destruct L; [contradiction | reflexivity]. Qed.

Lemma ends_with_cr_cons2 (c d : ascii) (s : string) :
  ends_with_cr (String c (String d s)) = ends_with_cr (String d s).
Proof. reflexivity. Qed.

Lemma is_lf_not_cr (c : ascii) : is_lf c = true -> is_cr c = false.
Proof.
  unfold is_lf, is_cr. intros H. apply Ascii.eqb_eq in H. now subst c.
Qed.

(** A line feed after a text that does not end in a carriage return
    cuts the pieces in two. *)
Lemma split_lines_app (a b : string) :
  ends_with_cr a = false ->
  split_lines (a +:+ LF +:+ b) = split_lines a ++ split_lines b.
Proof.
  induction a as [| c | c d s IH1 IH2] using string_ind2; intros E.
  - reflexivity.
  - simpl in E.
    change (String c "" +:+ LF +:+ b) with (String c (String lf b)).
    rewrite split_lines_cons2.
    assert (S1 : split_lines (String lf b) = "" :: split_lines b)
      by (destruct b; reflexivity).
    destruct (is_lf c) eqn:L.
    + rewrite S1. simpl. rewrite L. reflexivity.
    + rewrite E, S1. simpl. rewrite L. reflexivity.
  - rewrite ends_with_cr_cons2 in E.
    change (String c (String d s) +:+ LF +:+ b)
      with (String c (String d (s +:+ LF +:+ b))).
    rewrite !split_lines_cons2.
    destruct (is_lf c) eqn:L.
    + change (String d (s +:+ LF +:+ b)) with (String d s +:+ LF +:+ b).
      rewrite (IH2 E). reflexivity.
    + destruct (is_cr c && is_lf d) eqn:CD.
      * apply andb_true_iff in CD as [_ D].
        assert (E' : ends_with_cr s = false).
        { destruct s as [|x s]; [reflexivity|].
          rewrite ends_with_cr_cons2 in E. exact E. }
        rewrite (IH1 E'). reflexivity.
      * change (String d (s +:+ LF +:+ b)) with (String d s +:+ LF +:+ b).
        rewrite (IH2 E).
        apply push_app, split_lines_nonempty.
Qed.

(** X3. Cutting a stream of log text right after a line feed does not
    change the lines delivered, provided the first part does not end in a
    carriage return just before that line feed. *)
Theorem handleChunk_app (a b : string) :
  ends_with_cr a = false ->
  handleChunk (a +:+ LF +:+ b) = handleChunk a ++ handleChunk b.
Proof.
  intros E. unfold handleChunk.
  rewrite (split_lines_app a b E). apply List.filter_app.
Qed.

Lemma handleChunk_app_witness :
  handleChunk ("one" +:+ LF +:+ "two" +:+ LF +:+ "three")
  = handleChunk "one" ++ handleChunk ("two" +:+ LF +:+ "three").
Proof.
  apply (handleChunk_app "one" ("two" +:+ LF +:+ "three")).
  reflexivity.
Defined.

End LogsFacts.

(** * The start command *)

Module StartupFacts.
Import Text Startup TextFacts.

(** The pattern matches where a placeholder is written. *)
Lemma placeholder_braces (k rest : string) :
  is_key k = true -> placeholder (braces k +:+ rest) = Some k.
Proof.
  unfold is_key. intros K. apply andb_true_iff in K as [N K].
  unfold braces.
  change (("{{" +:+ k +:+ "}}") +:+ rest)
    with (String lbrace (String lbrace ((k +:+ "}}") +:+ rest))).
  rewrite append_assoc'. unfold placeholder.
  change (is_lbrace lbrace) with true. cbv iota. simpl andb.
  assert (SP : span is_var_char (k +:+ String "}" (String "}" rest))
               = (k, String "}" (String "}" rest))).
  { apply span_app; [exact K | reflexivity]. }
  simpl. rewrite SP. simpl. rewrite N. reflexivity.
Qed.

(** The characters of a match are passed over. *)
Lemma replace_from_skip (m : gmap string string) (x y : string) :
  replace_from m (String.length x) (x +:+ y) = replace_from m 0 y.
Proof.
  induction x as [|c x IH]; [reflexivity|]. simpl. exact IH.
Qed.

Lemma replaceVars_braces (m : gmap string string) (k rest : string) :
  is_key k = true ->
  replaceVars m (braces k +:+ rest)
  = default (braces k) (m !! k) +:+ replaceVars m rest.
Proof.
  intros K. unfold replaceVars.
  pose proof (placeholder_braces k rest K) as P.
  remember (braces k +:+ rest) as txt eqn:T.
  assert (T' : txt = String lbrace ((String lbrace k +:+ "}}") +:+ rest)).
  { rewrite T. unfold braces. reflexivity. }
  rewrite T' in *. cbn [replace_from]. rewrite P. f_equal.
  replace (String.length k + 3)%nat
    with (String.length (String lbrace k +:+ "}}")).
  - apply replace_from_skip.
  - change (String lbrace k +:+ "}}") with (String lbrace (k +:+ "}}")).
    simpl. rewrite length_append. simpl. lia.
Qed.

Lemma placeholder_not_brace (c : ascii) (s : string) :
  is_lbrace c = false -> placeholder (String c s) = None.
Proof.
  intros C. unfold placeholder. destruct s as [|b r]; [reflexivity|].
  rewrite C. reflexivity.
Qed.

Lemma replaceVars_brace_free (m : gmap string string) (pre rest : string) :
  brace_free pre = true ->
  replaceVars m (pre +:+ rest) = pre +:+ replaceVars m rest.
Proof.
  unfold replaceVars. induction pre as [|c pre IH]; intros B; [reflexivity|].
  unfold brace_free in B. simpl in B. apply andb_true_iff in B as [C B].
  apply negb_true_iff in C.
  change (String c pre +:+ rest) with (String c (pre +:+ rest)).
  cbn [replace_from]. rewrite (placeholder_not_brace _ _ C).
  rewrite (IH B). reflexivity.
Qed.

(** X4. [replaceVars] works in one pass, placeholder by placeholder: a
    text without an opening brace is copied, and a placeholder whose key
    is a run of capitals, digits and underscores is replaced by the value
    of the key, or left as it is when the key is not defined; the value
    put in is not scanned again. *)
Theorem replaceVars_placeholder (m : gmap string string)
    (pre k rest : string) :
  brace_free pre = true -> is_key k = true ->
  replaceVars m pre = pre /\
  replaceVars m (pre +:+ braces k +:+ rest)
  = pre +:+ default (braces k) (m !! k) +:+ replaceVars m rest.
Proof.
  intros B K. split.
  - rewrite <- (append_nil_r pre) at 1.
    rewrite (replaceVars_brace_free m pre "" B). apply append_nil_r.
  - rewrite (replaceVars_brace_free m pre _ B).
    rewrite (replaceVars_braces m k rest K). reflexivity.
Qed.

Lemma replaceVars_placeholder_witness :
  replaceVars {[ "A" := "{{B}}"; "B" := "x" ]} "echo " = "echo " /\
  replaceVars {[ "A" := "{{B}}"; "B" := "x" ]}
              ("echo " +:+ braces "A" +:+ " {{B}}")
  = "echo " +:+ default (braces "A")
                  (({[ "A" := "{{B}}"; "B" := "x" ]} : gmap string string)
                     !! "A")
    +:+ replaceVars {[ "A" := "{{B}}"; "B" := "x" ]} " {{B}}".
Proof.
  apply (replaceVars_placeholder {[ "A" := "{{B}}"; "B" := "x" ]}
           "echo " "A" " {{B}}"); reflexivity.
Defined.

Lemma placeholder_Some (s k : string) :
  placeholder s = Some k -> exists rest, s = braces k +:+ rest.
Proof.
  unfold placeholder. destruct s as [|a [|b r]]; try discriminate.
  destruct (is_lbrace a) eqn:A; [|discriminate].
  destruct (is_lbrace b) eqn:B; [|discriminate]. cbn [andb]. cbv zeta.
  destruct (span_spec is_var_char r) as [R _].
  destruct (negb (Js.empty (span is_var_char r).1)); [|discriminate].
  cbn [andb].
  destruct (Js.startsWith (span is_var_char r).2 "}}") eqn:S; [|discriminate].
  intros [= <-]. apply startsWith_split in S as [rest S].
  exists rest. unfold is_lbrace in A, B.
  apply Ascii.eqb_eq in A. apply Ascii.eqb_eq in B. subst a b.
  rewrite R at 1. rewrite S. unfold braces.
  change ("{{" +:+ (span is_var_char r).1 +:+ "}}")
    with (String lbrace (String lbrace ((span is_var_char r).1 +:+ "}}"))).
  change ((String lbrace (String lbrace ((span is_var_char r).1 +:+ "}}")))
          +:+ rest)
    with (String lbrace (String lbrace
            (((span is_var_char r).1 +:+ "}}") +:+ rest))).
  now rewrite append_assoc'.
Qed.

Lemma occurs_cons (k : string) (c : ascii) (txt : string) :
  occurs k txt -> occurs k (String c txt).
Proof.
  intros (pre & rest & ->). exists (String c pre), rest. reflexivity.
Qed.

Lemma replace_from_undefined (m : gmap string string) (txt : string) :
  (forall k, occurs k txt -> m !! k = None) ->
  forall skip, replace_from m skip txt = Js.drop skip txt.
Proof.
  induction txt as [|c txt IH]; intros H skip.
  - destruct skip; reflexivity.
  - assert (H' : forall k, occurs k txt -> m !! k = None)
      by (intros k O; apply H, occurs_cons, O).
    destruct skip as [|n].
    + rewrite drop_0. cbn [replace_from].
      destruct (placeholder (String c txt)) as [k|] eqn:P.
      * destruct (placeholder_Some _ _ P) as [rest E].
        assert (O : occurs k (String c txt))
          by (exists "", rest; exact E).
        rewrite (H k O). simpl default. rewrite (IH H').
        unfold braces in E.
        change (("{{" +:+ k +:+ "}}") +:+ rest)
          with (String lbrace ((String lbrace k +:+ "}}") +:+ rest)) in E.
        injection E as -> ->.
        replace (String.length k + 3)%nat
          with (String.length (String lbrace k +:+ "}}")).
        -- change (String lbrace ((k +:+ "}}") +:+ rest))
             with ((String lbrace k +:+ "}}") +:+ rest).
           rewrite drop_app_length. reflexivity.
        -- change (String lbrace k +:+ "}}") with (String lbrace (k +:+ "}}")).
           simpl. rewrite length_append. simpl. lia.
      * rewrite (IH H'), drop_0. reflexivity.
    + cbn [replace_from]. rewrite drop_S. apply IH, H'.
Qed.

(** X5. A text none of whose placeholders names a defined variable comes
    out of [replaceVars] as it went in. *)
Theorem replaceVars_undefined (m : gmap string string) (txt : string) :
  (forall k, occurs k txt -> m !! k = None) ->
  replaceVars m txt = txt.
Proof.
  intros H. unfold replaceVars.
  rewrite (replace_from_undefined m txt H 0). apply drop_0.
Qed.

Lemma replaceVars_undefined_witness :
  replaceVars ∅ "say {{HELLO}} {{x}}" = "say {{HELLO}} {{x}}".
Proof.
  apply (replaceVars_undefined ∅ "say {{HELLO}} {{x}}").
  intros k _. apply lookup_empty.
Defined.

Lemma starts_with_exec_prefixed (s : string) :
  starts_with_exec ("exec " +:+ s) = true.
Proof.
  unfold starts_with_exec.
  change (Js.strip_leading Js.is_ws ("exec " +:+ s)) with ("exec " +:+ s).
  change (Js.startsWith ("exec " +:+ s) "exec") with true.
  change ("exec " +:+ s) with ("exec" +:+ String " " s).
  change 4%nat with (String.length "exec").
  rewrite drop_app_length. reflexivity.
Qed.

Lemma trim_empty (s : string) :
  Js.empty s = true -> Js.empty (Js.trim s) = true.
Proof. intros E. apply String.eqb_eq in E. subst s. reflexivity. Qed.

(** X6. The startup command the shell is given always begins with
    [exec], after white space at most: it is the core's command as it
    stands when that begins so, and that command after [exec] and a space
    when it does not. The combined command is the startup command alone
    when the install script is missing, empty or blank, and otherwise the
    install script, a line feed and the startup command. *)
Theorem finalStartupCommand_exec (d : CommandData) :
  starts_with_exec (finalStartupCommand d) = true /\
  finalStartupCommand d
  = (if starts_with_exec (startupBase d) then startupBase d
     else "exec " +:+ startupBase d) /\
  combinedCommand d
  = (if Js.empty (Js.trim (rendered d (installScript d)))
     then finalStartupCommand d
     else rendered d (installScript d) +:+ Logs.LF
          +:+ finalStartupCommand d).
Proof.
  split; [|split].
  - unfold finalStartupCommand, with_exec.
    destruct (starts_with_exec (startupBase d)) eqn:E; simpl.
    + exact E.
    + apply starts_with_exec_prefixed.
  - unfold finalStartupCommand, with_exec.
    destruct (starts_with_exec (startupBase d)); reflexivity.
  - unfold combinedCommand.
    destruct (Js.empty (rendered d (installScript d))) eqn:E.
    + rewrite (trim_empty _ E). reflexivity.
    + cbn [negb andb].
      destruct (Js.empty (Js.trim (rendered d (installScript d))));
        reflexivity.
Qed.

End StartupFacts.

(** * The SFTP session *)

Module SftpSessionFacts.
Import SftpSession TextFacts.
Import Path (keep, good, slash_free).

(** ** Open flags *)

Lemma land_pow2 (a : Z) (n : Z) :
  0 <= n ->
  Z.land a (2 ^ n) = if Z.testbit a n then 2 ^ n else 0.
Proof.
  intros Hn. apply Z.bits_inj'. intros m Hm.
  rewrite Z.land_spec, (Z.pow2_bits_eqb n m Hn).
  destruct (Z.eqb_spec n m) as [->|Hne].
  - destruct (Z.testbit a m) eqn:E.
    + now rewrite Z.pow2_bits_true.
    + now rewrite Z.bits_0.
  - rewrite andb_false_r.
    destruct (Z.testbit a n).
    + rewrite Z.pow2_bits_false; [reflexivity | assumption].
    + now rewrite Z.bits_0.
Qed.

Lemma land_bit_zero (a n : Z) :
  0 <= n -> (Z.land a (2 ^ n) =? 0) = negb (Z.testbit a n).
Proof.
  intros Hn. rewrite (land_pow2 a n Hn).
  destruct (Z.testbit a n); [|reflexivity].
  apply Z.eqb_neq. apply Z.pow_nonzero; lia.
Qed.

(** X7. A file is opened for writing, and so truncated, exactly when
    the client's flags have the WRITE bit (bit 1) or the CREAT bit
    (bit 3); READ, APPEND, TRUNC and EXCL alone open it for reading. The
    flag handed to [fsp.open] is the one [flagsToFsFlags] returns. *)
Theorem flagsToFsFlags_bits (flags : Z) :
  (flagsToFsFlags flags = "w+" <->
   Z.testbit flags 1 = true \/ Z.testbit flags 3 = true) /\
  (flagsToFsFlags flags = "r" <->
   Z.testbit flags 1 = false /\ Z.testbit flags 3 = false) /\
  open_flag flags = flagsToFsFlags flags.
Proof.
  unfold open_flag, flagsToFsFlags.
  change 2 with (2 ^ 1). change 8 with (2 ^ 3).
  rewrite (land_bit_zero flags 1), (land_bit_zero flags 3) by lia.
  rewrite !negb_involutive.
  destruct (Z.testbit flags 1), (Z.testbit flags 3); simpl;
    (split; [|split]); try reflexivity;
    split; intros H; try discriminate H; try reflexivity; auto;
    try (destruct H as [H|H]; discriminate H);
    try (destruct H as [H1 H2]; discriminate).
Qed.

(** ** Handles *)

Lemma serve_all_app (fs : Fs) (root : string) (r1 r2 : list request)
    (h : Handles) :
  serve_all fs root (r1 ++ r2) h
  = serve_all fs root r2 (serve_all fs root r1 h).
Proof. unfold serve_all. apply fold_left_app. Qed.

Lemma eqb_false_ne (a b : string) :
  negb (String.eqb a b) = true -> a <> b.
Proof.
  intros H ->. rewrite String.eqb_refl in H. discriminate H.
Qed.

(** A request that leaves a handle alone leaves its directory entry as
    it is, once the directory has been listed. *)
Lemma serve_keeps_sent (fs : Fs) (root handle : string) (req : request)
    (h : Handles) (d : DirHandle) :
  leaves_alone handle req = true ->
  dirHandles h !! handle = Some d -> sent d = true ->
  dirHandles (serve fs root req h).2 !! handle = Some d.
Proof.
  intros L D S. destruct req; simpl in *; try exact D.
  - destruct (Sandbox.normalize root givenPath); exact D.
  - destruct (fileHandles h !! handle0); exact D.
  - destruct (Sandbox.normalize root givenPath) as [p|]; simpl; [|exact D].
    destruct (readdir fs p); simpl; [|exact D].
    rewrite lookup_insert_ne; [exact D | apply eqb_false_ne, L].
  - destruct (dirHandles h !! handle0) as [d0|] eqn:D0; [|exact D].
    destruct (sent d0) eqn:S0; [exact D|]. simpl.
    destruct (String.eqb_spec handle0 handle) as [->|Hne].
    + rewrite D in D0. injection D0 as <-. rewrite S in S0. discriminate.
    + rewrite lookup_insert_ne; [exact D | exact Hne].
  - destruct (Sandbox.normalize root filename) as [p|]; simpl; [|exact D].
    destruct (mkdir fs (PathMore.dirname p)); simpl; [|exact D].
    destruct (open fs p (open_flag flags)); exact D.
  - destruct (fileHandles h !! handle0); exact D.
  - destruct (fileHandles h !! handle0); exact D.
  - destruct (fileHandles h !! handle0); simpl; [exact D|].
    destruct (dirHandles h !! handle0); simpl; [|exact D].
    rewrite lookup_delete_ne; [exact D | apply eqb_false_ne, L].
Qed.

Lemma serve_all_keeps_sent (fs : Fs) (root handle : string)
    (reqs : list request) (h : Handles) (d : DirHandle) :
  forallb (leaves_alone handle) reqs = true ->
  dirHandles h !! handle = Some d -> sent d = true ->
  dirHandles (serve_all fs root reqs h) !! handle = Some d.
Proof.
  revert h. induction reqs as [|req reqs IH]; intros h L D S; [exact D|].
  simpl in L. apply andb_true_iff in L as [L1 L2].
  change (serve_all fs root (req :: reqs) h)
    with (serve_all fs root reqs (serve fs root req h).2).
  apply IH; [exact L2 | | exact S].
  apply serve_keeps_sent; assumption.
Qed.

(** X8. A directory is listed once per handle. The first [READDIR] on
    a handle that [OPENDIR] issued answers with the names read when the
    directory was opened; every later [READDIR] on it answers [EOF],
    whatever is served in between, as long as the handle is neither
    closed nor issued again. *)
Theorem READDIR_once (fs : Fs) (root givenPath handle : string)
    (h : Handles) (between : list request) :
  (serve fs root (OPENDIR givenPath handle) h).1 = Handle handle ->
  forallb (leaves_alone handle) between = true ->
  let h1 := (serve fs root (OPENDIR givenPath handle) h).2 in
  let h2 := (serve fs root (READDIR handle) h1).2 in
  (exists dirPath names,
      Sandbox.normalize root givenPath = Ok dirPath /\
      readdir fs dirPath = Ok names /\
      (serve fs root (READDIR handle) h1).1 = Name names) /\
  (serve fs root (READDIR handle) (serve_all fs root between h2)).1
  = Status EOF.
Proof.
  intros O L h1 h2.
  assert (E1 : exists p names,
             Sandbox.normalize root givenPath = Ok p /\
             readdir fs p = Ok names /\
             h1 = mkHandles (fileHandles h)
                    (<[handle := mkDirHandle p names false]> (dirHandles h))).
  { subst h1. simpl in *.
    destruct (Sandbox.normalize root givenPath) as [p|] eqn:N;
      [|discriminate O]. simpl in *.
    destruct (readdir fs p) as [names|] eqn:R; [|discriminate O].
    exists p, names. auto. }
  destruct E1 as (p & names & N & R & E1).
  assert (R1 : serve fs root (READDIR handle) h1
               = (Name names,
                  mkHandles (fileHandles h)
                    (<[handle := mkDirHandle p names true]>
                       (<[handle := mkDirHandle p names false]>
                          (dirHandles h))))).
  { rewrite E1. unfold serve. cbn [dirHandles fileHandles].
    rewrite lookup_insert_eq. reflexivity. }
  subst h2. rewrite R1. cbn [fst snd].
  split; [exists p, names; auto|].
  unfold serve at 1.
  rewrite (serve_all_keeps_sent fs root handle between _
             (mkDirHandle p names true) L);
    [reflexivity | | reflexivity].
  cbn [dirHandles]. apply lookup_insert_eq.
Qed.

Lemma READDIR_once_witness :
  let h1 := (serve sample_fs "E:/servers/s1" (OPENDIR "/" "h1") no_handles).2 in
  let h2 := (serve sample_fs "E:/servers/s1" (READDIR "h1") h1).2 in
  (exists dirPath names,
      Sandbox.normalize "E:/servers/s1" "/" = Ok dirPath /\
      readdir sample_fs dirPath = Ok names /\
      (serve sample_fs "E:/servers/s1" (READDIR "h1") h1).1 = Name names) /\
  (serve sample_fs "E:/servers/s1" (READDIR "h1")
     (serve_all sample_fs "E:/servers/s1"
        [STAT "/a.txt"; OPEN "/a.txt" 1 "f1"; READ "f1" 0 10; CLOSE "f1"]
        h2)).1
  = Status EOF.
Proof.
  apply (READDIR_once sample_fs "E:/servers/s1" "/" "h1" no_handles
           [STAT "/a.txt"; OPEN "/a.txt" 1 "f1"; READ "f1" 0 10; CLOSE "f1"]);
    reflexivity.
Defined.

(** X9. [CLOSE] answers [OK] exactly when the handle is in one of the
    two tables, and takes it out of the table of open files: reading,
    writing and [FSTAT] on it then fail. *)
Theorem CLOSE_then_fail (fs : Fs) (root handle : string) (h : Handles)
    (offset length : Z) (data : string) :
  let h' := (serve fs root (CLOSE handle) h).2 in
  ((serve fs root (CLOSE handle) h).1 = Status OK <->
   is_Some (fileHandles h !! handle) \/ is_Some (dirHandles h !! handle)) /\
  ((serve fs root (CLOSE handle) h).1 = Status FAILURE <->
   fileHandles h !! handle = None /\ dirHandles h !! handle = None) /\
  fileHandles h' !! handle = None /\
  serve fs root (READ handle offset length) h' = (Status FAILURE, h') /\
  serve fs root (WRITE handle offset data) h' = (Status FAILURE, h') /\
  serve fs root (FSTAT handle) h' = (Status FAILURE, h').
Proof.
  intros h'.
  assert (F : fileHandles h' !! handle = None).
  { subst h'. simpl.
    destruct (fileHandles h !! handle) eqn:E; simpl.
    - apply lookup_delete_eq.
    - destruct (dirHandles h !! handle); exact E. }
  split; [|split; [|split; [exact F|]]].
  - simpl. destruct (fileHandles h !! handle) eqn:E; simpl.
    + split; [intros _; left; eauto | reflexivity].
    + destruct (dirHandles h !! handle) eqn:D; simpl.
      * split; [intros _; right; eauto | reflexivity].
      * split; [discriminate|].
        intros [[x X]|[x X]]; discriminate X.
  - simpl. destruct (fileHandles h !! handle) eqn:E; simpl.
    + split; [discriminate | intros [X _]; discriminate X].
    + destruct (dirHandles h !! handle) eqn:D; simpl.
      * split; [discriminate | intros [_ X]; discriminate X].
      * split; auto.
  - simpl. rewrite F. auto.
Qed.

(** ** Virtual paths *)

Lemma all_chars_impl (p q : ascii -> bool) (x : string) :
  (forall c, p c = true -> q c = true) ->
  Js.all_chars p x = true -> Js.all_chars q x = true.
Proof.
  intros H. induction x as [|c x IH]; [reflexivity|]. simpl.
  intros A. apply andb_true_iff in A as [C A].
  now rewrite (H c C), (IH A).
Qed.

Lemma plain_good (x : string) : plain x = true -> good x = true.
Proof. unfold plain. intros H. now apply andb_true_iff in H as [G _]. Qed.

Lemma plain_slash_free (x : string) : plain x = true -> slash_free x = true.
Proof.
  unfold plain, slash_free. intros H. apply andb_true_iff in H as [_ H].
  revert H. apply all_chars_impl. intros c. unfold Js.is_sep.
  destruct (Js.is_slash c); [discriminate | reflexivity].
Qed.

Lemma plain_nonempty (x : string) : plain x = true -> x <> "".
Proof. intros H ->. discriminate H. Qed.

Lemma forallb_plain_good (L : list string) :
  forallb plain L = true -> forallb good L = true.
Proof.
  induction L as [|x L IH]; [reflexivity|]. simpl. intros H.
  apply andb_true_iff in H as [X H]. now rewrite (plain_good x X), (IH H).
Qed.

Lemma forallb_plain_slash_free (L : list string) :
  forallb plain L = true -> Forall (fun x => slash_free x = true) L.
Proof.
  induction L as [|x L IH]; [constructor|]. simpl. intros H.
  apply andb_true_iff in H as [X H].
  constructor; [exact (plain_slash_free x X) | exact (IH H)].
Qed.

Lemma forallb_plain_nonempty (L : list string) :
  forallb plain L = true -> Forall (fun x => x <> "") L.
Proof.
  induction L as [|x L IH]; [constructor|]. simpl. intros H.
  apply andb_true_iff in H as [X H].
  constructor; [exact (plain_nonempty x X) | exact (IH H)].
Qed.

Lemma endsWith_cons (a : ascii) (s : string) :
  s <> "" -> Js.endsWith (String a s) "/" = Js.endsWith s "/".
Proof.
  intros N. destruct s as [|b s]; [contradiction|].
  unfold Js.endsWith. simpl String.length.
  replace (S (S (String.length s)) - 1)%nat with (S (String.length s)) by lia.
  replace (S (String.length s) - 1)%nat with (String.length s) by lia.
  rewrite drop_S. reflexivity.
Qed.

Lemma endsWith_app (x y : string) :
  y <> "" -> Js.endsWith (x +:+ y) "/" = Js.endsWith y "/".
Proof.
  intros N. induction x as [|a x IH]; [reflexivity|].
  change (String a x +:+ y) with (String a (x +:+ y)).
  rewrite endsWith_cons; [exact IH|].
  destruct x; [exact N | discriminate].
Qed.

Lemma endsWith_slash_free (x : string) :
  x <> "" -> slash_free x = true -> Js.endsWith x "/" = false.
Proof.
  induction x as [|a x IH]; [contradiction|]. intros _ S.
  unfold slash_free in S. simpl in S. apply andb_true_iff in S as [A S].
  destruct x as [|b x].
  - unfold Js.endsWith. simpl. unfold Js.drop. simpl.
    apply negb_true_iff in A. unfold Js.is_slash in A.
    apply String.eqb_neq. intros [= E]. subst a. discriminate A.
  - rewrite endsWith_cons by discriminate. apply IH; [discriminate|exact S].
Qed.

Lemma join_app_slash (A B : list string) :
  A <> [] -> B <> [] ->
  Js.join "/" (A ++ B) = Js.join "/" A +:+ "/" +:+ Js.join "/" B.
Proof.
  intros NA NB. induction A as [|x A IH]; [contradiction|].
  destruct A as [|y A].
  - destruct B as [|b B]; [contradiction|]. reflexivity.
  - change ((x :: y :: A) ++ B) with (x :: (y :: A) ++ B).
    change (Js.join "/" (x :: (y :: A) ++ B))
      with (x +:+ "/" +:+ Js.join "/" ((y :: A) ++ B)).
    rewrite IH by discriminate.
    change (Js.join "/" (x :: y :: A))
      with (x +:+ "/" +:+ Js.join "/" (y :: A)).
    rewrite !append_assoc'. reflexivity.
Qed.

Lemma join_nonempty (L : list string) :
  L <> [] -> Forall (fun x => x <> "") L -> Js.join "/" L <> "".
Proof.
  intros N F E. apply N. exact (join_eq_empty L F E).
Qed.

Lemma endsWith_join (L : list string) :
  L <> [] -> Forall (fun x => x <> "") L ->
  Forall (fun x => slash_free x = true) L ->
  Js.endsWith (Js.join "/" L) "/" = false.
Proof.
  induction L as [|x L IH]; [contradiction|]. intros _ F S.
  inversion F as [|? ? Fx FL]; inversion S as [|? ? Sx SL]; subst.
  destruct L as [|y L].
  - simpl. apply endsWith_slash_free; assumption.
  - change (Js.join "/" (x :: y :: L))
      with (x +:+ ("/" +:+ Js.join "/" (y :: L))).
    rewrite endsWith_app by discriminate.
    change ("/" +:+ Js.join "/" (y :: L))
      with (String Js.slash (Js.join "/" (y :: L))).
    rewrite endsWith_cons.
    + apply IH; [discriminate | assumption | assumption].
    + apply join_nonempty; [discriminate | assumption].
Qed.

(** A relative path made of clean segments is its own normal form. *)
Lemma normalize_clean (L : list string) :
  L <> [] -> forallb good L = true ->
  Forall (fun x => slash_free x = true) L ->
  Path.normalize (Js.join "/" L) = Js.join "/" L.
Proof.
  intros N G S.
  destruct (good_no_dotdot L G) as [D K].
  assert (NE : Forall (fun x => x <> "") L).
  { clear -G. induction L as [|x L IH]; [constructor|].
    simpl in G. apply andb_true_iff in G as [X G].
    constructor; [|exact (IH G)]. intros ->. discriminate X. }
  assert (J : Js.join "/" L <> "") by (apply join_nonempty; assumption).
  assert (A : Path.isAbsolute (Js.join "/" L) = false).
  { destruct L as [|h t]; [contradiction|].
    inversion NE; inversion S; subst.
    rewrite <- (append_nil_r (Js.join "/" (h :: t))).
    apply isAbsolute_join; assumption. }
  unfold Path.normalize. rewrite (empty_false _ J), A.
  rewrite (endsWith_join L N NE S). cbn [negb].
  unfold Path.normalizeString, Path.norm_segments.
  rewrite (split_join L N S), (fold_norm_no_dotdot true L [] D).
  rewrite K, app_nil_r, rev_involutive, (empty_false _ J). reflexivity.
Qed.

Lemma rootDir_plain (s : string) :
  plain s = true -> Sandbox.rootDir s = Js.join "/" ["E:"; "servers"; s].
Proof.
  intros P. unfold Sandbox.rootDir.
  rewrite (join_two BASE_SERVER_PATH s) by discriminate.
  rewrite (empty_false s (plain_nonempty s P)).
  change (BASE_SERVER_PATH +:+ String Js.slash s)
    with (Js.join "/" ["E:"; "servers"; s]).
  apply normalize_clean.
  - discriminate.
  - simpl. now rewrite (plain_good s P).
  - repeat constructor. exact (plain_slash_free s P).
Qed.

Lemma b2s_plain (x : string) :
  Js.all_chars (fun c => negb (Js.is_sep c)) x = true ->
  Js.backslashes_to_slashes x = x.
Proof.
  induction x as [|c x IH]; [reflexivity|]. simpl. intros H.
  apply andb_true_iff in H as [C H]. rewrite (IH H).
  unfold Js.is_sep in C. destruct (Js.is_backslash c); [|reflexivity].
  rewrite orb_true_r in C. discriminate C.
Qed.

Lemma b2s_app (x y : string) :
  Js.backslashes_to_slashes (x +:+ y)
  = Js.backslashes_to_slashes x +:+ Js.backslashes_to_slashes y.
Proof.
  induction x as [|c x IH]; [reflexivity|]. simpl. now rewrite IH.
Qed.

Lemma b2s_join (L : list string) :
  forallb plain L = true ->
  Js.backslashes_to_slashes (Js.join "/" L) = Js.join "/" L.
Proof.
  induction L as [|x L IH]; [reflexivity|]. simpl forallb. intros H.
  apply andb_true_iff in H as [X H].
  assert (Bx : Js.backslashes_to_slashes x = x).
  { apply b2s_plain. unfold plain in X.
    now apply andb_true_iff in X as [_ X]. }
  destruct L as [|y L]; [exact Bx|].
  change (Js.join "/" (x :: y :: L))
    with (x +:+ "/" +:+ Js.join "/" (y :: L)).
  rewrite !b2s_app, Bx, (IH H). reflexivity.
Qed.

Lemma strip_slashes_join (L : list string) :
  L <> [] -> Forall (fun x => x <> "") L ->
  Forall (fun x => slash_free x = true) L ->
  Js.strip_leading Js.is_slash (String Js.slash (Js.join "/" L))
  = Js.join "/" L.
Proof.
  intros N F S. destruct L as [|h t]; [contradiction|].
  inversion F; inversion S; subst.
  pose proof (isAbsolute_join h t "" ltac:(assumption) ltac:(assumption)) as A.
  rewrite append_nil_r in A.
  change (Js.strip_leading Js.is_slash (String Js.slash (Js.join "/" (h :: t))))
    with (Js.strip_leading Js.is_slash (Js.join "/" (h :: t))).
  destruct (Js.join "/" (h :: t)) as [|c r] eqn:E; [reflexivity|].
  rewrite isAbsolute_cons in A. simpl. now rewrite A.
Qed.

Lemma eqb_longer (x y : string) :
  y <> "" -> String.eqb (x +:+ y) x = false.
Proof.
  intros N. apply String.eqb_neq. intros E.
  assert (L : String.length (x +:+ y) = String.length x) by now rewrite E.
  rewrite length_append in L. destruct y; [contradiction|]. simpl in L. lia.
Qed.

(** X10. The virtual path of a file comes back from its host path: for
    a server whose id is a plain name, and a virtual path made of plain
    names, [normalize] accepts the path and [toVirtual] gives it back. *)
Theorem toVirtual_normalize (s : string) (segs : list string) :
  plain s = true -> forallb plain segs = true ->
  exists full,
    Sandbox.normalize (Sandbox.rootDir s) ("/" +:+ Js.join "/" segs) = Ok full /\
    toVirtual (Sandbox.rootDir s) full = "/" +:+ Js.join "/" segs.
Proof.
  intros P G. rewrite (rootDir_plain s P).
  set (root := Js.join "/" ["E:"; "servers"; s]).
  assert (RG : forallb good ["E:"; "servers"; s] = true)
    by (simpl; now rewrite (plain_good s P)).
  assert (RS : Forall (fun x => slash_free x = true) ["E:"; "servers"; s])
    by (repeat constructor; exact (plain_slash_free s P)).
  destruct segs as [|x segs].
  - exists root. split; [reflexivity|].
    unfold toVirtual. now rewrite String.eqb_refl.
  - set (L := x :: segs) in *.
    assert (LN : L <> []) by discriminate.
    pose proof (forallb_plain_nonempty L G) as LE.
    pose proof (forallb_plain_slash_free L G) as LS.
    pose proof (forallb_plain_good L G) as LG.
    exists (root +:+ "/" +:+ Js.join "/" L).
    assert (J : Path.join [root; Js.join "/" L]
                = root +:+ "/" +:+ Js.join "/" L).
    { rewrite (join_two root (Js.join "/" L)) by discriminate.
      rewrite (empty_false _ (join_nonempty L LN LE)).
      change (root +:+ String Js.slash (Js.join "/" L))
        with (root +:+ "/" +:+ Js.join "/" L).
      unfold root. rewrite <- (join_app_slash _ L) by (discriminate || exact LN).
      apply normalize_clean.
      - discriminate.
      - rewrite forallb_app, RG, LG. reflexivity.
      - apply Forall_app. split; assumption. }
    split.
    + unfold Sandbox.normalize.
      change (Js.empty ("/" +:+ Js.join "/" L)) with false.
      assert (E1 : String.eqb ("/" +:+ Js.join "/" L) "." = false)
        by reflexivity.
      assert (E2 : String.eqb ("/" +:+ Js.join "/" L) "/" = false).
      { change ("/" +:+ Js.join "/" L) with (String Js.slash (Js.join "/" L)).
        apply String.eqb_neq. intros [= E].
        exact (join_nonempty L LN LE E). }
      rewrite E1, E2. cbn [orb].
      assert (E3 : String.eqb ("/" +:+ Js.join "/" L) root = false)
        by reflexivity.
      assert (E4 : String.eqb ("/" +:+ Js.join "/" L) (root +:+ "/") = false)
        by reflexivity.
      assert (E5 : String.eqb ("/" +:+ Js.join "/" L) (root +:+ "/" +:+ ".")
                   = false) by reflexivity.
      rewrite E3, E4, E5. cbn [orb].
      change (Js.startsWith ("/" +:+ Js.join "/" L) "/") with true. cbv iota.
      change ("/" +:+ Js.join "/" L) with (String Js.slash (Js.join "/" L)).
      rewrite (strip_slashes_join L LN LE LS).
      rewrite (empty_false _ (join_nonempty L LN LE)), J.
      assert (NN : Path.normalize (root +:+ "/" +:+ Js.join "/" L)
                   = root +:+ "/" +:+ Js.join "/" L).
      { unfold root at 1.
        rewrite <- (join_app_slash _ L) by (discriminate || exact LN).
        rewrite normalize_clean.
        - now rewrite (join_app_slash _ L) by (discriminate || exact LN).
        - discriminate.
        - rewrite forallb_app, RG, LG. reflexivity.
        - apply Forall_app. split; assumption. }
      rewrite NN. unfold Sandbox.check_root.
      now rewrite startsWith_app.
    + unfold toVirtual.
      rewrite eqb_longer by discriminate.
      rewrite <- append_assoc', startsWith_app.
      replace (String.length root + 1)%nat
        with (String.length (root +:+ "/"))
        by (rewrite length_append; reflexivity).
      rewrite drop_app_length, (b2s_join L G). reflexivity.
Qed.

Lemma toVirtual_normalize_witness :
  exists full,
    Sandbox.normalize (Sandbox.rootDir "s1")
      ("/" +:+ Js.join "/" ["world"; "level.dat"]) = Ok full /\
    toVirtual (Sandbox.rootDir "s1") full
    = "/" +:+ Js.join "/" ["world"; "level.dat"].
Proof.
  apply (toVirtual_normalize "s1" ["world"; "level.dat"]); reflexivity.
Defined.

End SftpSessionFacts.

(** * Where a rename lands *)

Module FileOpsFacts.
Import Http FileOps TextFacts SftpSessionFacts.
Import Path (keep, good, slash_free).

Lemma get_slash_free (w : string) (k : nat) :
  slash_free w = true -> PathMore.slash_at w k = false.
Proof.
  unfold PathMore.slash_at. revert k.
  induction w as [|c w IH]; intros k S; [destruct k; reflexivity|].
  unfold slash_free in S. simpl in S. apply andb_true_iff in S as [C S].
  destruct k as [|k]; simpl.
  - now apply negb_true_iff in C.
  - apply IH. exact S.
Qed.

Lemma slash_at_app_r (pre rest : string) (n : nat) :
  PathMore.slash_at (pre +:+ rest) (String.length pre + n)
  = PathMore.slash_at rest n.
Proof.
  unfold PathMore.slash_at.
  rewrite (String.append_correct2 pre rest n).
  now rewrite (Nat.add_comm n).
Qed.

(** The loop of [dirname] on a path that ends in a slash and a last
    component: it stops at that slash, unless the slash opens the
    path. *)
Lemma dirname_loop_last (pre w : string) (k : nat) (b : bool) :
  slash_free w = true -> (k = 0%nat -> b = false) ->
  PathMore.dirname_loop (pre +:+ String Js.slash w) (String.length pre + k) b
  = if (String.length pre =? 0)%nat then None else Some (String.length pre).
Proof.
  intros SF. revert b. induction k as [|k IH]; intros b B.
  - rewrite (B eq_refl), Nat.add_0_r.
    assert (SL : PathMore.slash_at (pre +:+ String Js.slash w)
                   (String.length pre) = true).
    { pose proof (slash_at_app_r pre (String Js.slash w) 0) as H.
      rewrite Nat.add_0_r in H. exact H. }
    destruct (String.length pre) as [|n]; [reflexivity|].
    cbn [PathMore.dirname_loop]. rewrite SL. reflexivity.
  - replace (String.length pre + S k)%nat
      with (S (String.length pre + k)) by lia.
    cbn [PathMore.dirname_loop].
    replace (S (String.length pre + k))
      with (String.length pre + S k)%nat by lia.
    rewrite slash_at_app_r.
    change (PathMore.slash_at (String Js.slash w) (S k))
      with (PathMore.slash_at w k).
    rewrite (get_slash_free w k SF). apply IH. reflexivity.
Qed.

Lemma take_app_length (pre rest : string) :
  Js.take (String.length pre) (pre +:+ rest) = pre.
Proof.
  unfold Js.take. induction pre as [|c pre IH]; simpl.
  - destruct rest; reflexivity.
  - now rewrite IH.
Qed.

Lemma dirname_last (pre w : string) :
  w <> "" -> slash_free w = true ->
  (2 <= String.length pre)%nat ->
  PathMore.dirname (pre +:+ String Js.slash w) = pre.
Proof.
  intros N S L. unfold PathMore.dirname.
  assert (E : Js.empty (pre +:+ String Js.slash w) = false).
  { apply empty_false. destruct pre; discriminate. }
  rewrite E.
  replace (String.length (pre +:+ String Js.slash w) - 1)%nat
    with (String.length pre + String.length w)%nat
    by (rewrite length_append; simpl; lia).
  rewrite (dirname_loop_last pre w (String.length w) true S).
  - destruct (String.length pre) as [|[|n]] eqn:EL; try lia.
    cbn [Nat.eqb]. rewrite andb_false_r. rewrite <- EL.
    apply take_app_length.
  - intros Z. destruct w; [contradiction | discriminate].
Qed.

Lemma dirname_root (w : string) :
  w <> "" -> slash_free w = true ->
  PathMore.dirname (String Js.slash w) = "/".
Proof.
  intros N S. unfold PathMore.dirname.
  change (Js.empty (String Js.slash w)) with false. cbv iota.
  change (String.length (String Js.slash w) - 1)%nat
    with (String.length w - 0)%nat.
  rewrite Nat.sub_0_r.
  pose proof (dirname_loop_last "" w (String.length w) true S) as D.
  simpl in D. rewrite D; [reflexivity|].
  intros Z. destruct w; [contradiction | discriminate].
Qed.

Lemma norm_segments_good (a : bool) (L : list string) :
  forallb good L = true -> Path.norm_segments a L = L.
Proof.
  intros G. destruct (good_no_dotdot L G) as [D K].
  unfold Path.norm_segments.
  now rewrite (fold_norm_no_dotdot a L [] D), K, app_nil_r, rev_involutive.
Qed.

Lemma norm_segments_all_good (segs : list string) :
  forallb good (Path.norm_segments false segs) = true.
Proof.
  unfold Path.norm_segments.
  destruct (canon_stack_fold false segs [] (canon_stack_nil false))
    as (stk & n & E & G & Z).
  rewrite (Z eq_refl) in E. simpl in E. rewrite app_nil_r in E.
  rewrite E, forallb_rev. exact G.
Qed.

Lemma forallb_good_nonempty (L : list string) :
  forallb good L = true -> Forall (fun x => x <> "") L.
Proof.
  induction L as [|x L IH]; [constructor|]. simpl. intros G.
  apply andb_true_iff in G as [X G].
  constructor; [|exact (IH G)]. intros ->. discriminate X.
Qed.

(** The canonical segments of an absolute path written from clean
    segments are these segments. *)
Lemma canonical_abs_good (L : list string) :
  forallb good L = true -> Forall (fun x => slash_free x = true) L ->
  Sandbox.canonical (String Js.slash (Js.join "/" L)) = L.
Proof.
  intros G S.
  rewrite <- (norm_segments_good false L G) at 1.
  rewrite (canonical_abs_norm L S). apply norm_segments_good, G.
Qed.

(** [dirname] of an absolute path written from clean segments drops the
    last of them. *)
Lemma dirname_join (L : list string) (x : string) :
  forallb good (L ++ [x]) = true ->
  Forall (fun y => slash_free y = true) (L ++ [x]) ->
  PathMore.dirname (String Js.slash (Js.join "/" (L ++ [x])))
  = String Js.slash (Js.join "/" L).
Proof.
  intros G S.
  rewrite forallb_app in G. apply andb_true_iff in G as [GL GX].
  simpl in GX. rewrite andb_true_r in GX.
  apply Forall_app in S as [SL SX]. inversion SX as [|? ? Sx _]; subst.
  assert (NX : x <> "") by (intros ->; discriminate GX).
  destruct L as [|y L].
  - simpl. apply dirname_root; assumption.
  - rewrite (join_app_slash (y :: L) [x]) by discriminate.
    change (String Js.slash (Js.join "/" (y :: L) +:+ "/" +:+ Js.join "/" [x]))
      with (String Js.slash (Js.join "/" (y :: L)) +:+ String Js.slash x).
    apply dirname_last; [exact NX | exact Sx |].
    pose proof (forallb_good_nonempty (y :: L) GL) as NE.
    pose proof (join_nonempty (y :: L) ltac:(discriminate) NE) as J.
    destruct (Js.join "/" (y :: L)); [contradiction | simpl; lia].
Qed.

Lemma has_dotdot_false_good (segs : list string) :
  Sandbox.has_dotdot segs = false ->
  forallb good (List.filter keep segs) = true.
Proof.
  unfold Sandbox.has_dotdot.
  induction segs as [|x segs IH]; [reflexivity|]. simpl. intros H.
  apply orb_false_iff in H as [X H].
  destruct (keep x) eqn:K; [|exact (IH H)].
  simpl. rewrite (IH H), andb_true_r. unfold good. rewrite K. simpl.
  apply negb_true_iff. rewrite String.eqb_sym. exact X.
Qed.

(** X11. A rename stays in the server's directory. When [handleRename]
    gets to [fs.rename], for a path that is relative once sanitized and
    that is not the server's directory itself, and a new name other than
    [..], both the file renamed and its new path lie in the server's
    directory. *)
Theorem rename_call_inside (env : Env) (b : Body) (from to : string) :
  Path.isAbsolute (cwd env) = true ->
  rename_call env b = Some (from, to) ->
  relative_path b = true ->
  from <> base_of env b ->
  newName b <> Some ".." ->
  Sandbox.descendant (base_of env b) from = true /\
  Sandbox.descendant (base_of env b) to = true.
Proof.
  intros CW RC RP NB ND. unfold rename_call in RC.
  destruct (Js.falsy (path b) || Js.falsy (newName b)) eqn:F;
    [discriminate RC|].
  apply orb_false_iff in F as [_ FN].
  destruct (newName b) as [name|] eqn:EN; [|discriminate FN].
  simpl default in RC.
  destruct (has_separator name) eqn:HS; [discriminate RC|].
  unfold has_separator in HS. apply negb_false_iff in HS.
  unfold resolvePath in RC. unfold relative_path in RP.
  destruct (Sandbox.sanitizeRelative (path b)) as [rel|] eqn:SR;
    [|discriminate RP].
  apply negb_true_iff in RP. simpl in RC.
  set (sid := default "" (serverId b)) in *.
  destruct (Sandbox.resolveServerPath (cwd env) sid rel) as [abs|] eqn:RS;
    [|discriminate RC].
  simpl in RC. destruct (stat env abs); [|discriminate RC].
  injection RC as <- <-.
  pose proof (sanitizeRelative_no_dotdot _ _ SR) as DD.
  (* the shape of the two paths *)
  set (B := Path.norm_segments false
              (Js.split Js.is_slash (cwd env)
               ++ Js.split Js.is_slash (Sandbox.serverBase sid))).
  set (E := List.filter keep (Js.split Js.is_slash rel)).
  assert (EB : base_of env b = String Js.slash (Js.join "/" B)).
  { unfold base_of. fold sid.
    apply resolve_base;
      [exact CW | apply serverBase_nonempty | apply serverBase_relative]. }
  assert (EA : abs = String Js.slash (Js.join "/" (B ++ E))).
  { unfold Sandbox.resolveServerPath in RS.
    destruct (negb (Js.startsWith _ _)); [discriminate RS|].
    injection RS as <-.
    rewrite (resolve_below (cwd env) (Sandbox.serverBase sid) rel CW
               (serverBase_nonempty sid) (serverBase_relative sid) RP).
    rewrite app_assoc.
    rewrite (norm_segments_app_no_dotdot false _ _ DD). reflexivity. }
  assert (GB : forallb good B = true) by apply norm_segments_all_good.
  assert (SB : Forall (fun x => slash_free x = true) B).
  { apply norm_segments_Forall_slash_free. apply Forall_app.
    split; apply split_slash_free. }
  assert (GE : forallb good E = true).
  { unfold E. apply has_dotdot_false_good. exact DD. }
  assert (SE : Forall (fun x => slash_free x = true) E).
  { unfold E. apply List.Forall_forall. intros x X.
    apply filter_In in X as [X _].
    pose proof (split_slash_free rel) as H.
    exact (proj1 (List.Forall_forall _ _) H x X). }
  assert (NE : E <> []).
  { intros Z. apply NB. rewrite EA, EB, Z, app_nil_r. reflexivity. }
  destruct (exists_last NE) as (E' & x & EE).
  assert (GA : forallb good (B ++ E) = true)
    by (rewrite forallb_app, GB, GE; reflexivity).
  assert (SA : Forall (fun y => slash_free y = true) (B ++ E))
    by (apply Forall_app; split; assumption).
  rewrite EB.
  unfold Sandbox.descendant. rewrite (canonical_abs_good B GB SB).
  split.
  - rewrite EA, (canonical_abs_good (B ++ E) GA SA).
    apply list_prefixb_app.
  - rewrite EA, EE, app_assoc.
    rewrite EE, app_assoc in GA, SA.
    rewrite (dirname_join (B ++ E') x GA SA).
    rewrite forallb_app in GA. apply andb_true_iff in GA as [GA _].
    apply Forall_app in SA as [SA _].
    rewrite canonical_join.
    + rewrite (canonical_abs_good (B ++ E') GA SA), <- app_assoc.
      apply list_prefixb_app.
    + discriminate.
    + assert (SN : Js.split Js.is_slash name = [name]).
      { apply split_no_sep. revert HS. apply all_chars_impl.
        intros c. unfold Js.is_sep. destruct (Js.is_slash c);
          [discriminate | reflexivity]. }
      rewrite SN. simpl. rewrite orb_false_r.
      apply String.eqb_neq. intros Z. apply ND. now rewrite Z.
Qed.

Lemma rename_call_inside_witness :
  Sandbox.descendant (base_of sample_env (rename_body "x.dat"))
                     "/app/E:/servers/s1/world/level.dat" = true /\
  Sandbox.descendant (base_of sample_env (rename_body "x.dat"))
                     "/app/E:/servers/s1/world/x.dat" = true.
Proof.
  apply (rename_call_inside sample_env (rename_body "x.dat")
           "/app/E:/servers/s1/world/level.dat"
           "/app/E:/servers/s1/world/x.dat");
    [reflexivity | vm_compute; reflexivity | reflexivity
    | vm_compute; discriminate | discriminate].
Defined.

End FileOpsFacts.

(** * Who may do what over HTTP *)

Module AccessFacts.
Import Instance Http Access.

Lemma common_checks_token (env : Env) (b : Body) :
  token b <> Some (config_token env) ->
  exists r, common_checks env b = Some r /\
            (code r = 400%nat \/ code r = 403%nat).
Proof.
  intros T. unfold common_checks.
  destruct (Js.falsy (token b)) eqn:F; [eexists; split; [reflexivity|auto]|].
  destruct (token b) as [t|] eqn:E; [|discriminate F]. simpl.
  destruct (String.eqb_spec t (config_token env)) as [->|_];
    [contradiction|]. simpl.
  eexists; split; [reflexivity | auto].
Qed.

Lemma common_checks_None (env : Env) (b : Body) :
  common_checks env b = None -> token b = Some (config_token env).
Proof.
  intros C. destruct (option_eq_dec (token b) (Some (config_token env)))
    as [E|N]; [exact E|].
  destruct (common_checks_token env b N) as (r & R & _).
  rewrite R in C. discriminate C.
Qed.

Lemma validateAuth_token (env : Env) (b : Body) :
  (validateAuth env b).1 = true -> token b = Some (config_token env).
Proof.
  unfold validateAuth.
  destruct (Js.falsy (token b)) eqn:F; [discriminate|].
  destruct (token b) as [t|]; [|discriminate F]. simpl.
  destruct (String.eqb_spec t (config_token env)) as [->|_];
    [reflexivity | discriminate].
Qed.

Lemma getStatus_at_servers (env : Env) (a : nat) (w : Registry.World) :
  Registry.servers (getStatus_at env a w).2 = Registry.servers w.
Proof.
  unfold getStatus_at, Registry.on_instance.
  destruct (Registry.heap w !! a) as [s|]; [|reflexivity].
  destruct (getStatus (inspect env) (now env) s) as [[r s'] t].
  destruct r as [st|e]; reflexivity.
Qed.

(** What a handler of [/api/v1/servers] does with a request that does
    not carry the token: it answers 400 or 403, or it throws; the
    registry is as it was. *)
Lemma interpretServers_no_token (env : Env) (rm : bool) (w : Registry.World)
    (body : option Body) (action : option string) :
  ~ has_token env body ->
  (exists e, interpretServers env rm w body action = Throw e) \/
  (exists r, interpretServers env rm w body action = Ok (r, w) /\
             (code r = 400%nat \/ code r = 403%nat)).
Proof.
  intros T. unfold interpretServers.
  destruct (negb (Js.falsy action)
            && Js.startsWith (default "" action) "filemanager").
  - right. unfold interpretFileManager.
    destruct ((validateAuth env (default empty_body body)).1) eqn:V.
    + exfalso. apply validateAuth_token in V.
      destruct body as [b|]; [|discriminate V].
      apply T. exists b. auto.
    + simpl. eexists. split; [reflexivity | auto].
  - assert (H : forall b, body = Some b ->
                exists r, common_checks env b = Some r /\
                          (code r = 400%nat \/ code r = 403%nat)).
    { intros b ->. apply common_checks_token. intros E. apply T.
      exists b. auto. }
    destruct body as [b|].
    + right. destruct (H b eq_refl) as (r & R & C).
      exists r. split; [|exact C].
      unfold DeleteServer, GetServerStatus, SendActionServer,
        GetServerUsage, CreateServer, member_checks.
      rewrite R.
      repeat match goal with
             | |- context [if ?c then _ else _] => destruct c
             end; reflexivity.
    + left. exists (TypeError "Cannot read properties of undefined (reading 'token')").
      repeat match goal with
             | |- context [if ?c then _ else _] => destruct c
             end; reflexivity.
Qed.

(** X12. Without the agent's token nothing succeeds and nothing
    changes: whatever the method and the path, a request whose body is
    missing or carries another token is answered with a status other
    than 200, and the registry is left as it was. *)
Theorem no_token_no_effect (env : Env) (rm : bool) (w : Registry.World)
    (method pathname : string) (body : option Body) :
  ~ has_token env body ->
  (handleRequest env rm w method pathname body).2 = w /\
  code (handleRequest env rm w method pathname body).1 <> 200%nat.
Proof.
  intros T. unfold handleRequest.
  destruct (findMatchingApiRoute pathname) as [[|action]|];
    [| |split; [reflexivity | discriminate]].
  - destruct (String.eqb method "POST");
      [|split; [reflexivity | discriminate]].
    unfold VerifyStatus. destruct body as [b|];
      [|split; [reflexivity | discriminate]].
    destruct (token b) as [t|] eqn:E;
      [|split; [reflexivity | discriminate]].
    destruct (String.eqb_spec t (config_token env)) as [->|_];
      [|split; [reflexivity | discriminate]].
    exfalso. apply T. exists b. auto.
  - destruct (String.eqb method "POST" || String.eqb method "GET");
      [|split; [reflexivity | discriminate]].
    destruct (interpretServers_no_token env rm w body action T)
      as [[e ->]|(r & -> & [C|C])]; simpl;
      (split; [reflexivity|]); try discriminate; rewrite C; discriminate.
Qed.

Lemma no_token_no_effect_witness :
  (handleRequest sample_env true Registry.one_server "POST"
     "/api/v1/servers/delete" (Some (body_with (Some "guess") None))).2
  = Registry.one_server /\
  code (handleRequest sample_env true Registry.one_server "POST"
          "/api/v1/servers/delete" (Some (body_with (Some "guess") None))).1
  <> 200%nat.
Proof.
  apply (no_token_no_effect sample_env true Registry.one_server "POST"
           "/api/v1/servers/delete" (Some (body_with (Some "guess") None))).
  intros (b & [= <-] & E). discriminate E.
Defined.

(** A handler of [/api/v1/servers] that changes the list of registered
    instances was asked by an administrator, with the token. *)
Lemma interpretServers_servers (env : Env) (rm : bool) (w w' : Registry.World)
    (body : option Body) (action : option string) (r : Reply) :
  interpretServers env rm w body action = Ok (r, w') ->
  Registry.servers w' <> Registry.servers w ->
  exists b, body = Some b /\ token b = Some (config_token env) /\
            userIsAdmin env (default "" (userUuid b)) = true.
Proof.
  unfold interpretServers. intros H N.
  destruct (negb (Js.falsy action)
            && Js.startsWith (default "" action) "filemanager").
  { destruct (interpretFileManager env w body _); [|discriminate H].
    injection H as _ <-. contradiction. }
  assert (K : forall b, body = Some b -> common_checks env b = None ->
              userIsAdmin env (default "" (userUuid b)) = true ->
              exists b, body = Some b /\ token b = Some (config_token env) /\
                        userIsAdmin env (default "" (userUuid b)) = true).
  { intros b -> C A. exists b. split; [reflexivity|].
    split; [exact (common_checks_None env b C) | exact A]. }
  destruct (String.eqb (default "" action) "delete").
  { unfold DeleteServer in H. destruct body as [b|]; [|discriminate H].
    destruct (common_checks env b) eqn:C;
      [injection H as _ <-; contradiction|].
    destruct (userIsAdmin env (default "" (userUuid b))) eqn:A; simpl in H;
      [|injection H as _ <-; contradiction].
    exact (K b eq_refl C A). }
  destruct (String.eqb (default "" action) "status").
  { unfold GetServerStatus in H. destruct body as [b|]; [|discriminate H].
    destruct (member_checks env w b) as [r0|a];
      [injection H as _ <-; contradiction|].
    pose proof (getStatus_at_servers env a w) as G.
    destruct (getStatus_at env a w) as [v w1]. injection H as _ <-.
    simpl in G. contradiction. }
  destruct (String.eqb (default "" action) "action").
  { unfold SendActionServer in H. destruct body as [b|]; [|discriminate H].
    exfalso. apply N.
    destruct (member_checks env w b) as [r0|a];
      [injection H as _ <-; reflexivity|].
    repeat match type of H with
           | context [if ?c then _ else _] => destruct c
           | context [match ?c with Some _ => _ | None => _ end] => destruct c
           end; injection H as _ <-; reflexivity. }
  destruct (String.eqb (default "" action) "usage").
  { unfold GetServerUsage in H. destruct body as [b|]; [|discriminate H].
    destruct (member_checks env w b) as [r0|a];
      [injection H as _ <-; contradiction|].
    pose proof (getStatus_at_servers env a w) as G1.
    destruct (getStatus_at env a w) as [v1 w1].
    pose proof (getStatus_at_servers env a w1) as G2.
    destruct (getStatus_at env a w1) as [v2 w2]. injection H as _ <-.
    simpl in G1, G2. rewrite G2, G1 in N. contradiction. }
  unfold CreateServer in H. destruct body as [b|]; [|discriminate H].
  destruct (common_checks env b) eqn:C;
    [injection H as _ <-; contradiction|].
  destruct (userIsAdmin env (default "" (userUuid b))) eqn:A; simpl in H;
    [|injection H as _ <-; contradiction].
  exact (K b eq_refl C A).
Qed.

(** X13. Only an administrator's request that carries the token ever
    adds an instance to the registry or takes one out: any other request,
    whatever its method and path, leaves the list of registered instances
    as it was. *)
Theorem registry_change_needs_admin (env : Env) (rm : bool)
    (w : Registry.World) (method pathname : string) (body : option Body) :
  Registry.servers (handleRequest env rm w method pathname body).2
  <> Registry.servers w ->
  exists b, body = Some b /\ token b = Some (config_token env) /\
            userIsAdmin env (default "" (userUuid b)) = true.
Proof.
  unfold handleRequest. intros N.
  destruct (findMatchingApiRoute pathname) as [[|action]|];
    [| |contradiction].
  - destruct (String.eqb method "POST"); [|contradiction].
    unfold VerifyStatus in N. destruct body as [b|]; [|contradiction].
    destruct (token b) as [t|]; [|contradiction].
    destruct (String.eqb t (config_token env)); contradiction.
  - destruct (String.eqb method "POST" || String.eqb method "GET");
      [|contradiction].
    destruct (interpretServers env rm w body action) as [[r w']|e] eqn:I;
      [|contradiction].
    exact (interpretServers_servers env rm w w' body action r I N).
Qed.

Lemma registry_change_needs_admin_witness :
  exists b,
    Some (body_with (Some "secret") None) = Some b /\
    token b = Some (config_token sample_env) /\
    userIsAdmin sample_env (default "" (userUuid b)) = true.
Proof.
  apply (registry_change_needs_admin sample_env true Registry.one_server
           "POST" "/api/v1/servers/delete"
           (Some (body_with (Some "secret") None))).
  vm_compute. discriminate.
Defined.

Lemma route_servers (action : string) :
  findMatchingApiRoute ("/api/v1/servers/" +:+ action)
  = if no_line_break action then Some (ServersRoute (Some action)) else None.
Proof.
  unfold findMatchingApiRoute.
  assert (E1 : String.eqb ("/api/v1/servers/" +:+ action) "/api/v1/status"
               = false) by reflexivity.
  assert (E2 : String.eqb ("/api/v1/servers/" +:+ action) "/api/v1/status/"
               = false) by reflexivity.
  assert (E3 : String.eqb ("/api/v1/servers/" +:+ action) "/api/v1/servers"
               = false) by reflexivity.
  rewrite E1, E2, E3. cbn [orb].
  change (Js.startsWith ("/api/v1/servers/" +:+ action) "/api/v1/servers/")
    with true. cbv iota.
  change 16%nat with (String.length "/api/v1/servers/").
  rewrite TextFacts.drop_app_length. reflexivity.
Qed.

Lemma member_checks_inr (env : Env) (w : Registry.World) (b : Body)
    (a : nat) :
  member_checks env w b = inr a ->
  token b = Some (config_token env) /\
  Registry.getServer (default "" (serverId b)) w = Some a /\
  hasPermission env (default "" (userUuid b)) (default "" (serverId b))
  = true.
Proof.
  unfold member_checks. destruct (common_checks env b) eqn:C; [discriminate|].
  destruct (Registry.getServer (default "" (serverId b)) w) as [a'|];
    [|discriminate].
  destruct (hasPermission env _ _) eqn:P; [|discriminate].
  intros [= <-]. split; [exact (common_checks_None env b C)|]. auto.
Qed.

Lemma common_checks_code (env : Env) (b : Body) (r : Reply) :
  common_checks env b = Some r -> code r <> 200%nat.
Proof.
  unfold common_checks.
  repeat match goal with
         | |- context [if ?c then _ else _] => destruct c
         end; intros [= <-]; discriminate.
Qed.

Lemma member_checks_inl (env : Env) (w : Registry.World) (b : Body)
    (r : Reply) :
  member_checks env w b = inl r -> code r <> 200%nat.
Proof.
  unfold member_checks.
  destruct (common_checks env b) as [r1|] eqn:CC.
  - intros [= <-]. exact (common_checks_code env b r1 CC).
  - destruct (Registry.getServer _ w);
      [destruct (hasPermission env _ _)|];
      intros [= <-]; discriminate.
Qed.

(** A member action that is answered 200 was allowed by the helper
    API for a registered server. *)
Lemma interpretServers_member (env : Env) (rm : bool)
    (w w' : Registry.World) (body : option Body) (action : string)
    (r : Reply) :
  member_action action = true ->
  interpretServers env rm w body (Some action) = Ok (r, w') ->
  code r = 200%nat ->
  exists b a,
    body = Some b /\ token b = Some (config_token env) /\
    Registry.getServer (default "" (serverId b)) w = Some a /\
    hasPermission env (default "" (userUuid b)) (default "" (serverId b))
    = true.
Proof.
  unfold member_action, interpretServers. simpl default. intros M H C.
  destruct (Js.startsWith action "filemanager") eqn:FM.
  - assert (F : Js.falsy (Some action) = false)
      by (destruct action; [discriminate FM | reflexivity]).
    rewrite F in H. simpl in H.
    unfold interpretFileManager in H.
    destruct ((validateAuth env (default empty_body body)).1) eqn:V.
    + pose proof (validateAuth_token _ _ V) as T.
      destruct body as [b|]; [|discriminate T]. simpl in H.
      unfold ensurePermission in H.
      destruct (Registry.getServer (default "" (serverId b)) w) as [a|] eqn:G.
      * destruct (hasPermission env _ _) eqn:P.
        -- exists b, a. auto.
        -- simpl in H. injection H as <- _. discriminate C.
      * simpl in H. injection H as <- _. discriminate C.
    + simpl in H. injection H as <- _. discriminate C.
  - rewrite andb_false_r in H. simpl in M.
    destruct (String.eqb_spec action "delete") as [->|_]; [discriminate M|].
    destruct (String.eqb action "status").
    { unfold GetServerStatus in H. destruct body as [b|]; [|discriminate H].
      destruct (member_checks env w b) as [r0|a] eqn:MC.
      - exfalso. injection H as <- _.
        exact (member_checks_inl env w b r0 MC C).
      - destruct (member_checks_inr env w b a MC) as (T & G & P).
        exists b, a. auto. }
    destruct (String.eqb action "action").
    { unfold SendActionServer in H. destruct body as [b|]; [|discriminate H].
      destruct (member_checks env w b) as [r0|a] eqn:MC.
      - exfalso. injection H as <- _.
        exact (member_checks_inl env w b r0 MC C).
      - destruct (member_checks_inr env w b a MC) as (T & G & P).
        exists b, a. auto. }
    destruct (String.eqb action "usage"); [|discriminate M].
    unfold GetServerUsage in H. destruct body as [b|]; [|discriminate H].
    destruct (member_checks env w b) as [r0|a] eqn:MC.
    + exfalso. injection H as <- _.
      exact (member_checks_inl env w b r0 MC C).
    + destruct (member_checks_inr env w b a MC) as (T & G & P).
      exists b, a. auto.
Qed.

(** X14. The file manager, [status], [usage] and [action] answer 200
    only to a request that carries the token, names a registered server,
    and comes from a user whom the helper API allows on that server. *)
Theorem member_request_needs_permission (env : Env) (rm : bool)
    (w : Registry.World) (method action : string) (body : option Body) :
  member_action action = true ->
  code (handleRequest env rm w method ("/api/v1/servers/" +:+ action)
          body).1 = 200%nat ->
  exists b a,
    body = Some b /\ token b = Some (config_token env) /\
    Registry.getServer (default "" (serverId b)) w = Some a /\
    hasPermission env (default "" (userUuid b)) (default "" (serverId b))
    = true.
Proof.
  intros M. unfold handleRequest. rewrite route_servers.
  destruct (no_line_break action); [|discriminate].
  destruct (String.eqb method "POST" || String.eqb method "GET");
    [|discriminate].
  destruct (interpretServers env rm w body (Some action)) as [[r w']|e] eqn:I;
    [|discriminate].
  simpl. intros C.
  exact (interpretServers_member env rm w w' body action r M I C).
Qed.

Lemma member_request_needs_permission_witness :
  exists b a,
    Some (body_with (Some "secret") None) = Some b /\
    token b = Some (config_token sample_env) /\
    Registry.getServer (default "" (serverId b)) Registry.one_server = Some a /\
    hasPermission sample_env (default "" (userUuid b))
      (default "" (serverId b)) = true.
Proof.
  apply (member_request_needs_permission sample_env true Registry.one_server
           "POST" "filemanager/list"
           (Some (body_with (Some "secret") None)));
    vm_compute; reflexivity.
Defined.

(** X15. Only GET and POST reach a handler: a request with any other
    method is answered 404 or 405 and changes nothing; on
    [/api/v1/status] GET is refused as well. *)
Theorem other_methods_refused (env : Env) (rm : bool) (w : Registry.World)
    (method pathname : string) (body : option Body) :
  String.eqb method "POST" = false ->
  (String.eqb method "GET" = false \/
   findMatchingApiRoute pathname = Some StatusRoute) ->
  (handleRequest env rm w method pathname body).2 = w /\
  (code (handleRequest env rm w method pathname body).1 = 404%nat /\
   findMatchingApiRoute pathname = None \/
   code (handleRequest env rm w method pathname body).1 = 405%nat /\
   findMatchingApiRoute pathname <> None).
Proof.
  intros P G. unfold handleRequest.
  destruct (findMatchingApiRoute pathname) as [[|action]|] eqn:F.
  - rewrite P. split; [reflexivity|]. right. split; [reflexivity|discriminate].
  - destruct G as [G|G]; [|discriminate G]. rewrite P, G.
    split; [reflexivity|]. right. split; [reflexivity|discriminate].
  - split; [reflexivity|]. left. split; reflexivity.
Qed.

Lemma other_methods_refused_witness :
  (handleRequest sample_env true Registry.one_server "DELETE"
     "/api/v1/servers/delete" (Some (body_with (Some "secret") None))).2
  = Registry.one_server /\
  (code (handleRequest sample_env true Registry.one_server "DELETE"
           "/api/v1/servers/delete"
           (Some (body_with (Some "secret") None))).1 = 404%nat /\
   findMatchingApiRoute "/api/v1/servers/delete" = None \/
   code (handleRequest sample_env true Registry.one_server "DELETE"
           "/api/v1/servers/delete"
           (Some (body_with (Some "secret") None))).1 = 405%nat /\
   findMatchingApiRoute "/api/v1/servers/delete" <> None).
Proof.
  apply (other_methods_refused sample_env true Registry.one_server "DELETE"
           "/api/v1/servers/delete" (Some (body_with (Some "secret") None)));
    [reflexivity | left; reflexivity].
Defined.

End AccessFacts.

(** * The registry, once more *)

Module BootFacts.
Import Instance Registry Boot RegistryFacts.

Lemma remove_first_fresh (a : nat) (l : list nat) :
  ~ In a l -> remove_first a (l ++ [a]) = l.
Proof.
  induction l as [|x l IH]; intros N; simpl.
  - now rewrite Nat.eqb_refl.
  - destruct (Nat.eqb_spec x a) as [->|_].
    + exfalso. apply N. left. reflexivity.
    + rewrite IH; [reflexivity|]. intros I. apply N. right. exact I.
Qed.

Lemma next_fresh (w : World) : wf w = true -> ~ In (next w) (servers w).
Proof.
  intros W I. destruct (wf_servers w (next w) W I) as [_ L]. lia.
Qed.

(** X16. Creating a server and deleting it again leaves the registry
    as it was: for an id that no registered instance has, [create] makes
    [getServer] find the new instance, and [delete] on that instance
    gives back the list of instances and every answer of [getServer]. *)
Theorem create_then_delete (id : string) (w : World)
    (k : result exn unit) (rm_done : bool) :
  wf w = true -> getServer id w = None ->
  let w1 := (create id (Ok tt) w).2 in
  getServer id w1 = Some (next w) /\
  servers (delete (next w) k rm_done w1) = servers w /\
  forall uuid, getServer uuid (delete (next w) k rm_done w1)
               = getServer uuid w.
Proof.
  intros W G w1.
  assert (G1 : getServer id w1 = Some (next w)).
  { subst w1. rewrite (getServer_create id id w W), G.
    now rewrite String.eqb_refl. }
  assert (D : exists s' t,
             delete (next w) k rm_done w1
             = mkWorld (<[next w := s']> (heap w1)) (servers w)
                       (next w1)
                       (if rm_done then dirs w1 ∖ {[serverPath (new_Server id)]}
                        else dirs w1)
                       (trace w1 ++ t)).
  { subst w1. rewrite create_ok. unfold delete. cbn [heap servers snd].
    rewrite lookup_insert_eq.
    destruct (delete_instance k (new_Server id)) as [[r s'] t].
    exists s', t. cbn [servers next dirs trace heap].
    rewrite (remove_first_fresh _ _ (next_fresh w W)). reflexivity. }
  destruct D as (s' & t & D).
  split; [exact G1|]. rewrite D. split; [reflexivity|].
  intros uuid. unfold getServer. cbn [servers].
  apply find_ext_in. intros a I.
  assert (N : a <> next w).
  { intros ->. exact (next_fresh w W I). }
  unfold has_id. cbn [heap]. subst w1. rewrite create_ok. cbn [heap snd].
  rewrite !lookup_insert_ne by (intros E; apply N; now rewrite E).
  reflexivity.
Qed.

Lemma create_then_delete_witness :
  getServer "s2" (create "s2" (Ok tt) one_server).2 = Some (next one_server) /\
  servers (delete (next one_server) (Ok tt) true
             (create "s2" (Ok tt) one_server).2)
  = servers one_server /\
  forall uuid,
    getServer uuid (delete (next one_server) (Ok tt) true
                      (create "s2" (Ok tt) one_server).2)
    = getServer uuid one_server.
Proof.
  apply (create_then_delete "s2" one_server (Ok tt) true);
    vm_compute; reflexivity.
Defined.

(** ** Boot *)

Lemma adopt_run (existing : option (Container * string))
    (i : result exn InspectData) (x : result exn Stream) (n : Z)
    (s : Server) :
  exists s' t, adopt existing i x n s = (Ok tt, s', t) /\ id s' = id s.
Proof.
  destruct existing as [[c state]|]; [|exists s, []; split; reflexivity].
  unfold adopt. destruct s as [i0 c0 r0 n0 t0 st0 l0].
  destruct (String.eqb state "running").
  - destruct i as [[status [[z|]|]]|e]; destruct x as [st|e'];
      cbv; eexists; eexists; split; reflexivity.
  - cbv. eexists; eexists; split; reflexivity.
Qed.

Lemma boot_instance_id (rt : Runtime) (serverId : string) :
  id (boot_instance rt serverId).1 = serverId.
Proof.
  unfold boot_instance. destruct (existingContainer rt serverId) as [c|];
    [|reflexivity].
  destruct (adopt_run (Some (Id c, State c)) (inspect rt (Id c))
              (attach rt (Id c)) (now rt) (new_Server serverId))
    as (s' & t & E & I).
  rewrite E. exact I.
Qed.

Lemma boot_one_unfold (rt : Runtime) (w : World) (serverId : string) :
  boot_one rt w serverId
  = mkWorld (<[next w := (boot_instance rt serverId).1]> (heap w))
            (servers w ++ [next w]) (S (next w)) (dirs w)
            (trace w ++ (boot_instance rt serverId).2).
Proof.
  unfold boot_one. destruct (boot_instance rt serverId). reflexivity.
Qed.

Lemma boot_one_wf (rt : Runtime) (w : World) (serverId : string) :
  wf w = true -> wf (boot_one rt w serverId) = true.
Proof.
  intros W. rewrite boot_one_unfold.
  pose proof (create_wf serverId w W) as C. rewrite create_ok in C.
  unfold wf in *. cbn [servers heap next snd] in *.
  apply andb_true_iff in C as [C1 C2]. apply andb_true_iff. split; [|exact C2].
  rewrite forallb_forall in C1 |- *. intros a I. specialize (C1 a I).
  apply andb_true_iff in C1 as [C1 C3]. apply andb_true_iff.
  split; [|exact C3].
  apply bool_decide_eq_true in C1. apply bool_decide_eq_true.
  destruct (Nat.eq_dec (next w) a) as [<-|N].
  - rewrite lookup_insert_eq. eauto.
  - rewrite lookup_insert_ne by exact N.
    rewrite lookup_insert_ne in C1 by exact N. exact C1.
Qed.

Lemma omap_ext_in {A B} (f g : A -> option B) (l : list A) :
  (forall a, In a l -> f a = g a) -> omap f l = omap g l.
Proof.
  induction l as [|x l IH]; intros H; [reflexivity|].
  change (omap f (x :: l))
    with (match f x with Some y => y :: omap f l | None => omap f l end).
  change (omap g (x :: l))
    with (match g x with Some y => y :: omap g l | None => omap g l end).
  rewrite (H x (or_introl eq_refl)), IH; [reflexivity|].
  intros a I. apply H. right. exact I.
Qed.

Lemma ids_boot_one (rt : Runtime) (w : World) (serverId : string) :
  wf w = true -> ids (boot_one rt w serverId) = ids w ++ [serverId].
Proof.
  intros W. rewrite boot_one_unfold. unfold ids. cbn [servers].
  rewrite omap_app. f_equal.
  - apply omap_ext_in. intros a I.
    unfold id_of. cbn [heap]. rewrite lookup_insert_ne; [reflexivity|].
    intros E. apply (next_fresh w W). now rewrite E.
  - simpl. unfold id_of. cbn [heap]. rewrite lookup_insert_eq. simpl.
    now rewrite boot_instance_id.
Qed.

(** X17. Boot registers the persisted ids as they come: one instance per
    row, in the order of the rows, a repeated id included; the registry it
    builds is well formed. *)
Theorem boot_registers_rows (rt : Runtime) (rows : list string) (w : World) :
  wf w = true ->
  ids (boot rt rows w) = ids w ++ rows /\
  wf (boot rt rows w) = true /\
  length (servers (boot rt rows w))
  = (length (servers w) + length rows)%nat.
Proof.
  revert w. induction rows as [|r rows IH]; intros w W.
  - simpl. rewrite app_nil_r. split; [reflexivity|].
    split; [exact W | lia].
  - change (boot rt (r :: rows) w) with (boot rt rows (boot_one rt w r)).
    destruct (IH (boot_one rt w r) (boot_one_wf rt w r W)) as (I1 & I2 & I3).
    rewrite I1, I3, (ids_boot_one rt w r W), <- app_assoc.
    split; [reflexivity|]. split; [exact I2|].
    rewrite boot_one_unfold. cbn [servers]. rewrite length_app. simpl. lia.
Qed.

Lemma boot_registers_rows_witness :
  ids (boot sample_runtime ["a"; "b"; "a"] empty_world)
  = ids empty_world ++ ["a"; "b"; "a"] /\
  wf (boot sample_runtime ["a"; "b"; "a"] empty_world) = true /\
  length (servers (boot sample_runtime ["a"; "b"; "a"] empty_world))
  = (length (servers empty_world) + length ["a"; "b"; "a"])%nat.
Proof.
  apply (boot_registers_rows sample_runtime ["a"; "b"; "a"] empty_world).
  reflexivity.
Defined.

Lemma boot_instance_booted (rt : Runtime) (serverId : string) :
  booted (boot_instance rt serverId).1.
Proof.
  unfold boot_instance, booted, startedAt_iff_running.
  destruct (existingContainer rt serverId) as [c|].
  - unfold adopt. destruct (String.eqb (State c) "running").
    + destruct (inspect rt (Id c)) as [[status [[z|]|]]|e];
        destruct (attach rt (Id c)) as [st|e']; cbv;
        (split; [split; [reflexivity | discriminate]|]);
        split; discriminate.
    + cbv. split; [split; [intros H; now contradiction H | discriminate]|].
      split; discriminate.
  - cbv. split; [split; [intros H; now contradiction H | discriminate]|].
    split; [discriminate | reflexivity].
Qed.

Lemma boot_one_all (rt : Runtime) (w : World) (serverId : string) :
  wf w = true -> all_instances booted w ->
  all_instances booted (boot_one rt w serverId).
Proof.
  intros W A a I. rewrite boot_one_unfold in I |- *. cbn [servers heap] in *.
  apply in_app_or in I as [I|[<-|[]]].
  - destruct (A a I) as (s & E & B). exists s. split; [|exact B].
    rewrite lookup_insert_ne; [exact E|].
    intros Z. apply (next_fresh w W). now rewrite Z.
  - exists (boot_instance rt serverId).1.
    split; [apply lookup_insert_eq | apply boot_instance_booted].
Qed.

(** X18. After boot every registered instance has a start time exactly
    when it is marked running, is marked running only with a container
    handle, and has a stdin stream only with a container handle. *)
Theorem boot_invariant (rt : Runtime) (rows : list string) (w : World) :
  wf w = true -> all_instances booted w ->
  all_instances booted (boot rt rows w).
Proof.
  revert w. induction rows as [|r rows IH]; intros w W A; [exact A|].
  change (boot rt (r :: rows) w) with (boot rt rows (boot_one rt w r)).
  apply IH; [apply boot_one_wf, W | apply boot_one_all; assumption].
Qed.

Lemma boot_invariant_witness :
  all_instances booted (boot sample_runtime ["a"; "b"; "c"] empty_world).
Proof.
  apply (boot_invariant sample_runtime ["a"; "b"; "c"] empty_world).
  - reflexivity.
  - intros a [].
Defined.

End BootFacts.

(** * One instance, once more *)

Module LifecycleFacts.
Import Instance.

(** X19. [getStatus] never throws, and its answer and the running flag
    agree once it has returned: it answers [running] exactly when it
    leaves the flag set, and then the instance has a container handle. *)
Theorem getStatus_agrees (i : result exn InspectData) (n : Z) (s : Server) :
  exists st s' t,
    getStatus i n s = (Ok st, s', t) /\
    (st = running_ <-> running s' = true) /\
    (st = running_ -> container s' <> None) /\
    id s' = id s /\ liveListeners s' = liveListeners s.
Proof.
  destruct s as [i0 c0 r0 n0 t0 st0 l0]. unfold getStatus.
  destruct c0 as [c|].
  - destruct i as [[status sa]|e].
    + unfold bindM, get, try_catch, call, modify, ret. cbn [container].
      cbn [Status StartedAt running startedAt].
      destruct (String.eqb status "running").
      * destruct r0; cbn [negb];
          [|destruct sa as [[z|]|]; destruct (startedAt_falsy t0)];
          cbn; eexists; eexists; eexists;
          (split; [reflexivity|]);
          (split; [split; reflexivity|]);
          (split; [discriminate | split; reflexivity]).
      * cbn. eexists; eexists; eexists.
        split; [reflexivity|].
        split; [split; discriminate|].
        split; [discriminate | split; reflexivity].
    + cbn. eexists; eexists; eexists.
      split; [reflexivity|].
      split; [split; discriminate|].
      split; [discriminate | split; reflexivity].
  - cbn. eexists; eexists; eexists.
    split; [reflexivity|].
    split; [split; discriminate|].
    split; [discriminate | split; reflexivity].
Qed.

Lemma sendCommand_cases (command : option string) (x : result exn Stream)
    (y : result exn unit) (s : Server) (c : Container) :
  container s = Some c ->
  (exists stream t,
      sendCommand command x y s
      = (Ok tt, set_stdinStream (Some stream) s,
         t ++ [StdinWrite stream (with_newline (default "" command))]) /\
      (forall e, In e t -> e = RtAttach c) /\
      Js.falsy command = false /\ y = Ok tt) \/
  (exists e s' t,
      sendCommand command x y s = (Throw e, s', t) /\
      container s' = Some c /\ running s' = running s /\
      startedAt s' = startedAt s /\ id s' = id s /\
      forall f, In f t -> f <> RtKill c).
Proof.
  intros C. destruct s as [i0 c0 r0 n0 t0 st0 l0]. simpl in C. subst c0.
  unfold sendCommand.
  destruct (Js.falsy command) eqn:F.
  { right. exists ComandoInvalido. eexists. exists [].
    split; [reflexivity|]. do 4 (split; [reflexivity|]). intros f []. }
  unfold bindM, get, reattach, try_catch, call, modify, ret, throw.
  cbn [container stdinStream].
  destruct st0 as [st|].
  - destruct y as [[]|e].
    + left. exists st, []. cbn. split; [reflexivity|].
      split; [intros e []|]. auto.
    + right. exists FalhaAoEscreverNoStdin. eexists. eexists.
      cbn. split; [reflexivity|]. do 4 (split; [reflexivity|]).
      intros f [<-|[]]; discriminate.
  - destruct x as [st|e].
    + destruct y as [[]|e].
      * left. exists st, [RtAttach c]. cbn. split; [reflexivity|].
        split; [intros e [<-|[]]; reflexivity|]. auto.
      * right. exists FalhaAoEscreverNoStdin. eexists. eexists.
        cbn. split; [reflexivity|]. do 4 (split; [reflexivity|]).
        intros f [<-|[<-|[]]]; discriminate.
    + right. exists StdinIndisponivel. eexists. eexists.
      cbn. split; [reflexivity|]. do 4 (split; [reflexivity|]).
      intros f [<-|[]]; discriminate.
Qed.

Lemma stop_handler_run (k : result exn unit) (s : Server) (c : Container) :
  container s = Some c ->
  bindM (fun s0 : Server =>
           (Ok tt, s0, [Emit "error" "Falha stop gracioso, aplicando kill."]))
        (fun _ => kill k) s
  = (Ok tt, s,
     [Emit "error" "Falha stop gracioso, aplicando kill.";
      Emit "status" "Forçando parada (kill)..."; RtKill c]).
Proof.
  intros C. unfold bindM, emitLive, tell, kill, get, try_catch, call, ret.
  cbn. rewrite C. destruct k as [[]|e]; reflexivity.
Qed.

(** X20. [stop] never throws and leaves the running flag and the start
    time alone. Without a container it does nothing. With one, either
    the stop command goes to the container's stdin as one line and no
    kill is asked for, or the line could not be written and the last
    thing asked of the runtime is to kill the container. *)
Theorem stop_falls_back_to_kill (command : option string)
    (x : result exn Stream) (y k : result exn unit) (s : Server) :
  exists s' t,
    stop command x y k s = (Ok tt, s', t) /\
    container s' = container s /\ running s' = running s /\
    startedAt s' = startedAt s /\
    (container s = None -> s' = s /\ t = []) /\
    (forall c, container s = Some c ->
       (exists stream,
           last t = Some (StdinWrite stream
                            (with_newline (default "" command))) /\
           ~ In (RtKill c) t) \/
       (last t = Some (RtKill c) /\
        forall stream line, In (StdinWrite stream line) t -> y <> Ok tt)).
Proof.
  unfold stop.
  destruct (container s) as [c|] eqn:C.
  - unfold bindM at 1, get. rewrite C.
    unfold bindM at 1, emitLive, tell. unfold try_catch at 1.
    destruct (sendCommand_cases command x y s c C)
      as [(stream & t & E & A & F & Y)|(e & s' & t & E & C' & R & T & I & K)];
      rewrite E.
    + eexists. eexists. split; [reflexivity|].
      split; [exact C|]. do 2 (split; [reflexivity|]).
      split; [discriminate|].
      intros c' [= <-]. left. exists stream.
      split.
      * rewrite app_nil_l, app_assoc. apply last_snoc.
      * intros Z. simpl in Z. destruct Z as [Z|Z]; [discriminate Z|].
        apply in_app_or in Z as [Z|[Z|[]]]; [|discriminate Z].
        specialize (A _ Z). discriminate A.
    + cbv beta iota. rewrite (stop_handler_run k s' c C').
      eexists; eexists; split; [reflexivity|].
      split; [exact C'|]. split; [exact R|]. split; [exact T|].
      split; [discriminate|].
      intros c' [= <-]. right. split.
      * rewrite !last_app. reflexivity.
      * intros stream line Z Yk.
        destruct (sendCommand_cases command x y s c C)
          as [(stream' & t' & E' & _)|_]; [rewrite E' in E; discriminate E|].
        destruct s as [i0 c0 r0 n0 t0 st0 l0]; simpl in C; subst c0.
        unfold sendCommand in E.
        destruct (Js.falsy command);
          [injection E as _ _ <-; simpl in Z;
           destruct Z as [Z|[Z|[Z|[Z|[]]]]]; discriminate Z|].
        unfold bindM, get, reattach, try_catch, call, modify, ret, throw in E.
        cbn [container stdinStream] in E.
        subst y. destruct st0 as [st|]; [discriminate E|].
        destruct x as [st|xe]; [discriminate E|].
        cbn in E. injection E as _ _ <-. simpl in Z.
        destruct Z as [Z|[Z|[Z|[Z|[Z|[]]]]]]; discriminate Z.
  - unfold bindM, get. rewrite C.
    exists s, []. unfold ret.
    split; [reflexivity|]. split; [exact C|].
    do 2 (split; [reflexivity|]). split; [auto|]. intros c [=].
Qed.

End LifecycleFacts.

(** * The ORM *)

Module OrmFacts.
Import Value Orm TextFacts.

Lemma count_app (a b : string) :
  count_questions (a +:+ b) = (count_questions a + count_questions b)%nat.
Proof.
  induction a as [|c a IH]; [reflexivity|]. simpl.
  destruct (Ascii.eqb c question); rewrite IH; reflexivity.
Qed.

Lemma count_join (f : string -> string) (n : nat) (l : list string) :
  Forall (fun x => count_questions (f x) = n) l ->
  count_questions (Js.join ", " (map f l)) = (n * length l)%nat.
Proof.
  induction l as [|x l IH]; intros F; [simpl; lia|].
  inversion F as [|? ? Fx Fl]; subst. specialize (IH Fl).
  destruct l as [|y l].
  - simpl. lia.
  - change (Js.join ", " (map f (x :: y :: l)))
      with (f x +:+ ", " +:+ Js.join ", " (map f (y :: l))).
    rewrite !count_app, IH. simpl count_questions. simpl length. lia.
Qed.

Lemma mapM_length {A B} (f : A -> result orm_error B) (l : list A)
    (ys : list B) :
  mapM f l = Ok ys -> length ys = length l.
Proof.
  revert ys. induction l as [|x l IH]; intros ys H.
  - injection H as <-. reflexivity.
  - simpl in H. destruct (f x) as [y|e]; [|discriminate H]. simpl in H.
    destruct (mapM f l) as [zs|e]; [|discriminate H]. simpl in H.
    injection H as <-. simpl. now rewrite (IH zs eq_refl).
Qed.

Lemma insert_sql_count (schema : Schema) (names : list string) :
  count_questions (tableName schema) = 0%nat ->
  Forall (fun c => count_questions c = 0%nat) names ->
  count_questions (insert_sql schema names) = length names.
Proof.
  intros T F. unfold insert_sql. rewrite !count_app, T.
  rewrite <- (map_id names) at 1.
  rewrite (count_join (fun x => x) 0 names F).
  rewrite (count_join (fun _ => "?") 1 names).
  - simpl. lia.
  - clear. induction names; constructor; [reflexivity | assumption].
Qed.

Lemma update_sql_count (schema : Schema) :
  plain_names schema ->
  count_questions (update_sql schema)
  = S (length (otherColumnNames schema)).
Proof.
  intros (T & P & C). unfold update_sql. rewrite !count_app, T, P.
  rewrite (count_join (fun c => c +:+ " = ?") 1 (otherColumnNames schema)).
  - simpl. lia.
  - unfold otherColumnNames. apply List.Forall_forall. intros x X.
    apply filter_In in X as [X _]. apply in_map_iff in X as (kv & <- & I).
    rewrite count_app.
    rewrite (proj1 (List.Forall_forall _ _) C kv I). reflexivity.
Qed.

Lemma insert_names_plain (schema : Schema) (this : Instance) :
  plain_names schema ->
  Forall (fun c => count_questions c = 0%nat)
         (insertColumnNames schema this).
Proof.
  intros (_ & _ & C). unfold insertColumnNames.
  apply List.Forall_forall. intros x X.
  apply filter_In in X as [X _]. apply in_map_iff in X as (kv & <- & I).
  exact (proj1 (List.Forall_forall _ _) C kv I).
Qed.

(** X21. Every statement that [save] and [delete] hand to the driver
    has as many question marks as it has parameters, for a schema whose
    table and column names hold no question mark. *)
Theorem statements_bind_every_placeholder (reg : Registry) (db : bool)
    (ctor : string) (run : Statement -> result orm_error value)
    (this : Instance) (schema : Schema) :
  reg !! ctor = Some schema -> plain_names schema ->
  (forall stmt, (save reg db ctor run this).2 = Some stmt ->
     count_questions (sql stmt) = length (params stmt)) /\
  (forall stmt, (delete reg db ctor run this).2 = Some stmt ->
     count_questions (sql stmt) = length (params stmt)).
Proof.
  intros R P. split; intros stmt H.
  - unfold save in H. rewrite R in H.
    destruct db; [|discriminate H]. cbn [negb] in H.
    destruct (truthy (prop this "_isNew")).
    + destruct (mapM _ (insertColumnNames schema this)) as [values|e] eqn:M;
        [|discriminate H].
      assert (S0 : stmt = mkStatement
                     (insert_sql schema (insertColumnNames schema this))
                     values).
      { destruct (run _); injection H as <-; reflexivity. }
      rewrite S0. cbn [sql params].
      rewrite (mapM_length _ _ _ M).
      apply insert_sql_count; [apply P | apply insert_names_plain, P].
    + destruct (mapM _ (otherColumnNames schema)) as [values|e] eqn:M;
        [|discriminate H].
      assert (S0 : stmt = mkStatement (update_sql schema)
                     (values ++ [prop this (schemaPrimaryKey schema)])).
      { destruct (run _); injection H as <-; reflexivity. }
      rewrite S0. cbn [sql params].
      rewrite (update_sql_count schema P), length_app.
      rewrite (mapM_length _ _ _ M). simpl. lia.
  - unfold delete in H. rewrite R in H.
    destruct db; [|discriminate H]. cbn [negb] in H.
    destruct (truthy (prop this "_isNew")
              || negb (truthy (prop this (schemaPrimaryKey schema))));
      [discriminate H|].
    assert (S0 : stmt = mkStatement (delete_sql schema)
                   [prop this (schemaPrimaryKey schema)]).
    { destruct (run _); injection H as <-; reflexivity. }
    rewrite S0. cbn [sql params]. destruct P as (T & K & _).
    unfold delete_sql. rewrite !count_app, T, K. reflexivity.
Qed.

Lemma statements_bind_every_placeholder_witness :
  (forall stmt,
      (save ServerModel true "ServerModel" accepting
            {[ "_isNew" := VBool true; "serverId" := VStr "abc" ]}).2
      = Some stmt ->
      count_questions (sql stmt) = length (params stmt)) /\
  (forall stmt,
      (delete ServerModel true "ServerModel" accepting
            {[ "_isNew" := VBool true; "serverId" := VStr "abc" ]}).2
      = Some stmt ->
      count_questions (sql stmt) = length (params stmt)).
Proof.
  apply (statements_bind_every_placeholder ServerModel true "ServerModel"
           accepting {[ "_isNew" := VBool true; "serverId" := VStr "abc" ]}
           (mkSchema "servers"
              [("id", mkColumn "INTEGER" true true);
               ("serverId", mkColumn "TEXT" false false)] "id")).
  - vm_compute. reflexivity.
  - repeat split. repeat constructor.
Defined.

Lemma prop_insert_eq (this : Instance) (k : string) (v : value) :
  prop (<[k := v]> this) k = v.
Proof.
  unfold prop, Instance in *.
  rewrite (lookup_insert_eq (M := gmap string)). reflexivity.
Qed.

Lemma prop_insert_ne (this : Instance) (k k' : string) (v : value) :
  k <> k' -> prop (<[k := v]> this) k' = prop this k'.
Proof.
  intros N. unfold prop, Instance in *.
  rewrite (lookup_insert_ne (M := gmap string)) by exact N. reflexivity.
Qed.

Lemma generated_key_left_out (schema : Schema) (this : Instance) :
  generated_key schema this = true ->
  ~ In (schemaPrimaryKey schema) (insertColumnNames schema this).
Proof.
  unfold generated_key, insertColumnNames. intros G I.
  apply andb_true_iff in G as [G N]. apply andb_true_iff in G as [_ G].
  apply filter_In in I as [_ I]. rewrite String.eqb_refl in I.
  destruct (map_get (schemaPrimaryKey schema) (columns schema)) as [col|];
    [|discriminate G].
  rewrite G, N in I. discriminate I.
Qed.

(** X22. A new instance is inserted, then updated. When [save] succeeds
    on an instance that is new, the statement is the insertion into the
    model's table, the instance is no longer new, and a key that the
    database generates was left out of the insertion and is now the row
    id the driver returned; the statement of any later [save] is the
    update of the row with that key. *)
Theorem save_inserts_then_updates (reg : Registry) (db : bool)
    (ctor : string) (run : Statement -> result orm_error value)
    (this this' : Instance) (schema : Schema) (stmt : Statement) :
  reg !! ctor = Some schema ->
  schemaPrimaryKey schema <> "_isNew" ->
  truthy (prop this "_isNew") = true ->
  save reg db ctor run this = (Ok tt, this', Some stmt) ->
  sql stmt = insert_sql schema (insertColumnNames schema this) /\
  prop this' "_isNew" = VBool false /\
  (generated_key schema this = true ->
   ~ In (schemaPrimaryKey schema) (insertColumnNames schema this) /\
   run stmt = Ok (prop this' (schemaPrimaryKey schema))) /\
  (generated_key schema this = false ->
   prop this' (schemaPrimaryKey schema)
   = prop this (schemaPrimaryKey schema)) /\
  forall run2 stmt2,
    (save reg db ctor run2 this').2 = Some stmt2 ->
    sql stmt2 = update_sql schema /\
    last (params stmt2) = Some (prop this' (schemaPrimaryKey schema)).
Proof.
  intros R K N H. unfold save in H. rewrite R, N in H.
  destruct db; [|discriminate H]. cbn [negb] in H.
  destruct (mapM _ (insertColumnNames schema this)) as [values|e] eqn:M;
    [|discriminate H].
  destruct (run _) as [rowid|e] eqn:RUN; [|discriminate H].
  injection H as <- <-. cbn [sql].
  split; [reflexivity|]. split; [apply prop_insert_eq|].
  split; [|split].
  - intros G. split; [exact (generated_key_left_out schema this G)|].
    rewrite G, RUN. rewrite prop_insert_ne by (intros E; apply K; now rewrite E).
    now rewrite prop_insert_eq.
  - intros G. rewrite G.
    apply prop_insert_ne. intros E. apply K. now rewrite E.
  - intros run2 stmt2 H2. unfold save in H2. rewrite R in H2.
    cbn [negb] in H2. rewrite prop_insert_eq in H2. cbn [truthy] in H2.
    destruct (mapM _ (otherColumnNames schema)) as [values2|e];
      [|discriminate H2].
    assert (S2 : stmt2
                 = mkStatement (update_sql schema)
                     (values2 ++
                      [prop (<["_isNew" := VBool false]>
                               (if generated_key schema this
                                then <[schemaPrimaryKey schema := rowid]> this
                                else this))
                            (schemaPrimaryKey schema)])).
    { destruct (run2 _); injection H2 as <-; reflexivity. }
    rewrite S2. cbn [sql params]. split; [reflexivity|]. apply last_snoc.
Qed.

Lemma save_inserts_then_updates_witness :
  sql (mkStatement "INSERT INTO servers (serverId) VALUES (?)" [VStr "abc"])
  = insert_sql (mkSchema "servers"
                  [("id", mkColumn "INTEGER" true true);
                   ("serverId", mkColumn "TEXT" false false)] "id")
      (insertColumnNames
         (mkSchema "servers"
            [("id", mkColumn "INTEGER" true true);
             ("serverId", mkColumn "TEXT" false false)] "id")
         {[ "_isNew" := VBool true; "serverId" := VStr "abc" ]}).
Proof.
  apply (save_inserts_then_updates ServerModel true "ServerModel" accepting
           {[ "_isNew" := VBool true; "serverId" := VStr "abc" ]}
           (save ServerModel true "ServerModel" accepting
              {[ "_isNew" := VBool true; "serverId" := VStr "abc" ]}).1.2
           (mkSchema "servers"
              [("id", mkColumn "INTEGER" true true);
               ("serverId", mkColumn "TEXT" false false)] "id")
           (mkStatement "INSERT INTO servers (serverId) VALUES (?)"
              [VStr "abc"]));
    [vm_compute; reflexivity | discriminate | reflexivity
    | vm_compute; reflexivity].
Defined.

End OrmFacts.

(** * The configuration script *)

Module ConfigureFacts.
Import Value Configure TextFacts.






Lemma parseArgs_app (Number : string -> number) (argv : list string)
    (a : string) :
  (2 <= length argv)%nat ->
  parseArgs Number (argv ++ [a])
  = parse_one Number (parseArgs Number argv) a.
Proof.
  intros L. unfold parseArgs.
  destruct argv as [|x [|y rest]]; simpl in L; try lia.
  change (skipn 2 ((x :: y :: rest) ++ [a])) with (rest ++ [a]).
  change (skipn 2 (x :: y :: rest)) with rest.
  apply fold_left_app.
Qed.

Lemma span_value (v : string) :
  (Text.span (fun c => negb (Ascii.eqb c equals)) ("token=" +:+ v))
  = ("token", String equals v).
Proof. reflexivity. Qed.

(** X24. The last [--token=...] on the command line is the token that
    [parseArgs] returns, as it is written, equals signs included,
    provided that it has no line break; the other arguments keep what
    was read before it. *)
Theorem parseArgs_last_token (Number : string -> number)
    (argv : list string) (v : string) :
  (2 <= length argv)%nat -> no_line_terminator v = true ->
  let before := parseArgs Number argv in
  parseArgs Number (argv ++ ["--token=" +:+ v])
  = mkArgs (remote before) (uuid before) v (port before) (sftp before)
           (path before) (help before) (ssl before) (cert before)
           (key before).
Proof.
  intros L V before. rewrite (parseArgs_app Number argv _ L). fold before.
  unfold parse_one.
  assert (E1 : String.eqb ("--token=" +:+ v) "--help" = false) by reflexivity.
  assert (E2 : String.eqb ("--token=" +:+ v) "-h" = false) by reflexivity.
  rewrite E1, E2. cbn [orb].
  assert (M : match_arg ("--token=" +:+ v) = Some ("token", v)).
  { unfold match_arg.
    change ("--token=" +:+ v)
      with (String hyphen (String hyphen ("token=" +:+ v))).
    replace (Ascii.eqb hyphen hyphen) with true by reflexivity.
    cbn [andb]. cbv iota beta. rewrite span_value.
    cbn [fst snd]. rewrite V. reflexivity. }
  rewrite M. reflexivity.
Qed.

Lemma parseArgs_last_token_witness :
  parseArgs sample_Number
    (["node"; "configure.ts"; "--token=old"; "--port=8443"]
     ++ ["--token=" +:+ "a=b"])
  = mkArgs "" "" "a=b" (Some (of_Z 8443)) None None false None None None.
Proof.
  apply (parseArgs_last_token sample_Number
           ["node"; "configure.ts"; "--token=old"; "--port=8443"] "a=b");
    [simpl; lia | reflexivity].
Defined.

End ConfigureFacts.

(** * The console socket *)

Module ConsoleFacts.
Import Instance Console.

Lemma tail_of_bounds (t : option string) : 0 <= tail_of t <= 1000.
Proof. unfold tail_of. destruct (parseInt t); lia. Qed.

Lemma send_not_disclosing (now : Z) (category message : string)
    (server : nat) (e : event) :
  In e (send now category message) -> ~ discloses server e.
Proof.
  unfold send, sendStructured.
  destruct (String.eqb category "internal"); [intros []|].
  intros [<-|[]] [D|[[n D]|D]]; discriminate D.
Qed.

Ltac refused I D :=
  let n := fresh "n" in
  cbn [fst orb negb] in I;
  apply in_app_or in I as [I|[<-|[]]];
  [ exfalso; exact (send_not_disclosing _ _ _ _ _ I D)
  | destruct D as [D|[[n D]|D]]; discriminate D ].

(** X25. The console shows a server only to a user the helper API
    allows on it. A connection subscribes to the events of a server,
    streams its log or starts to watch it only when the query names a
    registered server and a user with permission on it; and a log stream
    is asked for between 0 and 1000 lines of history. *)
Theorem console_needs_permission (q : Query)
    (hasPermission : string -> string -> bool)
    (inspect : result exn InspectData) (stream : result exn unit) (now : Z)
    (w : Registry.World) (server : nat) (e : event) :
  In e (connect q hasPermission inspect stream now w).1 ->
  discloses server e ->
  Registry.getServer (default "" (serverId q)) w = Some server /\
  hasPermission (default "" (userUuid q)) (default "" (serverId q)) = true /\
  Js.falsy (serverId q) = false /\ Js.falsy (userUuid q) = false /\
  forall n, e = StreamDockerLogs server n -> 0 <= n <= 1000.
Proof.
  unfold connect. intros I D.
  destruct (Js.falsy (serverId q)) eqn:F1; [refused I D|].
  destruct (Js.falsy (userUuid q)) eqn:F2; [refused I D|].
  cbn [orb] in I.
  destruct (Registry.getServer (default "" (serverId q)) w) as [a|] eqn:G;
    [|refused I D].
  destruct (hasPermission (default "" (userUuid q))
                          (default "" (serverId q))) eqn:P;
    [|refused I D].
  cbn [negb] in I.
  assert (A : a = server /\
              forall n, e = StreamDockerLogs server n -> 0 <= n <= 1000).
  { destruct (Registry.on_instance a (getStatus inspect now) w)
      as [[[[|]|x]|] w']; cbn [fst] in I.
    - apply in_app_or in I as [[<-|[]]|I].
      + destruct D as [D|[[n D]|D]]; try discriminate D.
        injection D as ->. split; [reflexivity|]. intros n [=].
      + apply in_app_or in I as [I|[<-|[]]].
        * destruct (match Registry.heap w' !! a with
                    | Some s => match container s with
                                | Some _ => true
                                | None => false
                                end
                    | None => false
                    end).
          -- destruct I as [<-|I].
             ++ destruct D as [D|[[n D]|D]]; try discriminate D.
                injection D as -> _. split; [reflexivity|].
                intros n' [= <-]. apply tail_of_bounds.
             ++ exfalso. destruct stream as [u|x]; [destruct I|].
                exact (send_not_disclosing _ _ _ _ _ I D).
          -- exfalso. exact (send_not_disclosing _ _ _ _ _ I D).
        * destruct D as [D|[[n D]|D]]; try discriminate D.
          injection D as ->. split; [reflexivity|]. intros n [=].
    - apply in_app_or in I as [[<-|[]]|I].
      + destruct D as [D|[[n D]|D]]; try discriminate D.
        injection D as ->. split; [reflexivity|]. intros n [=].
      + apply in_app_or in I as [I|[<-|[]]].
        * exfalso. exact (send_not_disclosing _ _ _ _ _ I D).
        * destruct D as [D|[[n D]|D]]; try discriminate D.
          injection D as ->. split; [reflexivity|]. intros n [=].
    - apply in_app_or in I as [[<-|[]]|I].
      + destruct D as [D|[[n D]|D]]; try discriminate D.
        injection D as ->. split; [reflexivity|]. intros n [=].
      + apply in_app_or in I as [I|[<-|[]]].
        * exfalso. exact (send_not_disclosing _ _ _ _ _ I D).
        * destruct D as [D|[[n D]|D]]; discriminate D.
    - apply in_app_or in I as [[<-|[]]|I].
      + destruct D as [D|[[n D]|D]]; try discriminate D.
        injection D as ->. split; [reflexivity|]. intros n [=].
      + apply in_app_or in I as [I|[<-|[]]].
        * exfalso. exact (send_not_disclosing _ _ _ _ _ I D).
        * destruct D as [D|[[n D]|D]]; discriminate D. }
  destruct A as [-> B]. auto.
Qed.

Lemma console_needs_permission_witness :
  Registry.getServer "s1" Registry.one_server = Some 0%nat /\
  Js.falsy (Some "s1") = false /\ Js.falsy (Some "u1") = false.
Proof.
  pose proof (console_needs_permission
                (mkQuery (Some "s1") (Some "u1") (Some "5000"))
                (fun _ _ => true) (Ok (mkInspect "running" None)) (Ok tt) 0
                Registry.one_server 0%nat (Monitor 0)) as H.
  destruct H as (G & _ & F1 & F2 & _).
  - vm_compute. right. right. left. reflexivity.
  - right. right. reflexivity.
  - exact (conj G (conj F1 F2)).
Defined.

End ConsoleFacts.

(** * The sandbox resolvers, settled *)

Module SandboxFacts.
Import SftpSession TextFacts SftpSessionFacts.
Import Path (keep, good, slash_free).






(** ** C1 *)




End SandboxFacts.
